(** * Restaurant pipeline: cleaning and reporting nodes

    A shallow embedding of
    [src/restaurant_pipeline/pipelines/data_processing/nodes.py] and
    [src/restaurant_pipeline/pipelines/reporting/nodes.py].

    The nodes are thin compositions of pandas and json calls, so the
    development first fixes the part of Python, json and pandas the nodes
    rely on (cell values, [pd.isna], [==] on hashable cells, [str]/[repr],
    [json.dumps(..., sort_keys=True)], [json.loads], [drop_duplicates],
    [dropna], [merge], [groupby(...).count()]) and then transcribes the
    nodes line by line on top of it. *)

From Stdlib Require Import ZArith List String Ascii Bool Lia Permutation.
From Stdlib Require Decimal DecimalFacts DecimalPos DecimalString OrderedTypeEx.
From Stdlib Require Import Floats.SpecFloat.
Import ListNotations.

Local Open Scope string_scope.
Local Open Scope Z_scope.

(** ** Exceptions and the error monad *)

Inductive exn : Set :=
| TypeError        (* unhashable cell, value json cannot encode, ... *)
| KeyError         (* column label not found *)
| ValueError       (* pandas: unparseable date, length mismatch *)
| JSONDecodeError. (* json.loads on a text that is not JSON *)

Inductive result (A : Type) : Type :=
| Ok (a : A)
| Raise (e : exn).
Arguments Ok {A} a.
Arguments Raise {A} e.

Definition bind {A B} (m : result A) (k : A -> result B) : result B :=
  match m with
  | Ok a => k a
  | Raise e => Raise e
  end.

Notation "x <- m ;; k" := (bind m (fun x => k))
  (at level 61, m at next level, right associativity).

Definition is_ok {A} (m : result A) : bool :=
  match m with Ok _ => true | Raise _ => false end.

Fixpoint mapM {A B} (f : A -> result B) (l : list A) : result (list B) :=
  match l with
  | [] => Ok []
  | x :: r => y <- f x ;; ys <- mapM f r ;; Ok (y :: ys)
  end.

(** ** Text helpers *)

Fixpoint join (sep : string) (l : list string) : string :=
  match l with
  | [] => ""
  | [x] => x
  | x :: r => x ++ sep ++ join sep r
  end.

Fixpoint repeat_char (c : ascii) (n : nat) : string :=
  match n with
  | O => ""
  | S k => String c (repeat_char c k)
  end.

(** [str(int)]: decimal digits, a leading [-] for negatives. *)
Definition int_str (z : Z) : string :=
  DecimalString.NilZero.string_of_int (Z.to_int z).

(** Decimal digits of a natural number, zero-padded on the left to [width]. *)
Definition pad_int (width : nat) (z : Z) : string :=
  let s := int_str z in
  repeat_char "0" (width - String.length s) ++ s.

Definition hex_digit (n : N) : ascii :=
  match n with
  | 0%N => "0" | 1%N => "1" | 2%N => "2" | 3%N => "3" | 4%N => "4"
  | 5%N => "5" | 6%N => "6" | 7%N => "7" | 8%N => "8" | 9%N => "9"
  | 10%N => "a" | 11%N => "b" | 12%N => "c" | 13%N => "d" | 14%N => "e"
  | _ => "f"
  end%char.

(** ** Floats

    A Python float is an IEEE 754 binary64 number: [spec_float] with
    [prec = 53] and [emax = 1024]. *)

Definition prec : Z := 53.
Definition emax : Z := 1024.

Definition float_of_Z (z : Z) : spec_float := binary_normalize prec emax z 0 false.
Definition float_add : spec_float -> spec_float -> spec_float := SFadd prec emax.
Definition float_div : spec_float -> spec_float -> spec_float := SFdiv prec emax.

Definition is_nan (f : spec_float) : bool :=
  match f with S754_nan => true | _ => false end.

(** [x == y] for a Python int [z] and a float [f]: the comparison is exact. *)
Definition int_float_eqb (z : Z) (f : spec_float) : bool :=
  match f with
  | S754_zero _ => z =? 0
  | S754_finite s m e =>
      let v := if s then Z.neg m else Z.pos m in
      if 0 <=? e then z =? v * 2 ^ e else z * 2 ^ (- e) =? v
  | _ => false
  end.

(** *** [repr(float)]

    Python prints the shortest decimal digit string that reads back as the
    same float ([float_repr_style = 'short']), in positional notation when
    the decimal point falls in [-4 < decpt <= 16] and in exponent notation
    otherwise. *)

Section ShortestDigits.
  (** The float is [m * 2^e]; [xn / den] is its exact value and
      [(xn - dn) / den], [(xn + un) / den] are the midpoints to its
      neighbours, between which every real rounds to it. *)
Variables (m : positive) (e : Z).

Definition lower_gap_halved : bool :=
    (Z.pos m =? 2 ^ (prec - 1)) && (emin prec emax <? e).

Definition den : Z := if 2 <=? e then 1 else 2 ^ (2 - e).
Definition xn : Z := if 2 <=? e then Z.pos m * 2 ^ e else 4 * Z.pos m.
Definition un : Z := if 2 <=? e then 2 ^ (e - 1) else 2.
Definition dn : Z :=
    if 2 <=? e then (if lower_gap_halved then 2 ^ (e - 2) else 2 ^ (e - 1))
    else (if lower_gap_halved then 1 else 2).

  (** [10^p <= x] *)
Definition pow10_le (p : Z) : bool :=
    if 0 <=? p then 10 ^ p * den <=? xn else den <=? xn * 10 ^ (- p).

Fixpoint adjust_exp10 (fuel : nat) (p : Z) : Z :=
    match fuel with
    | O => p
    | S k =>
        if pow10_le (p + 1) then adjust_exp10 k (p + 1)
        else if pow10_le p then p
        else adjust_exp10 k (p - 1)
    end.

  (** The [p] with [10^p <= x < 10^(p+1)]. *)
Definition exp10 : Z :=
    adjust_exp10 8 (((Z.log2 xn - Z.log2 den) * 1233) / 4096).

  (** With [k] digits the candidates are [c * 10^q], [q = exp10 - k + 1];
      [c * 10^q] compares with [n / den] as [c * sa] with [n * sb]. *)
Definition sa (q : Z) : Z := if 0 <=? q then den * 10 ^ q else den.
Definition sb (q : Z) : Z := if 0 <=? q then 1 else 10 ^ (- q).

Definition in_interval (q c : Z) : bool :=
    if Z.even (Z.pos m)
    then ((xn - dn) * sb q <=? c * sa q) && (c * sa q <=? (xn + un) * sb q)
    else ((xn - dn) * sb q <? c * sa q) && (c * sa q <? (xn + un) * sb q).

Definition candidate (k : Z) : option Z :=
    let q := exp10 - k + 1 in
    let lo := (xn * sb q) / sa q in
    let hi := lo + 1 in
    let dlo := xn * sb q - lo * sa q in
    let dhi := hi * sa q - xn * sb q in
    match in_interval q lo, in_interval q hi with
    | true, true =>
        Some (if dlo <? dhi then lo
              else if dhi <? dlo then hi
              else if Z.even lo then lo else hi)
    | true, false => Some lo
    | false, true => Some hi
    | false, false => None
    end.

Fixpoint shortest (fuel : nat) (k : Z) : Z * Z :=
    match fuel with
    | O => (k, (xn * sb (exp10 - k + 1)) / sa (exp10 - k + 1))
    | S f =>
        match candidate k with
        | Some c => (k, c)
        | None => shortest f (k + 1)
        end
    end.
End ShortestDigits.

Fixpoint strip_zeros_rev (s : list ascii) : list ascii :=
  match s with
  | "0"%char :: r => strip_zeros_rev r
  | _ => s
  end.

Definition strip_trailing_zeros (s : string) : string :=
  string_of_list_ascii
    (rev (strip_zeros_rev (rev (list_ascii_of_string s)))).

(** The digits and the position of the decimal point of a positive float. *)
Definition float_digits (m : positive) (e : Z) : string * Z :=
  let '(k, c) := shortest m e 17 1 in
  let raw := int_str c in
  (strip_trailing_zeros raw,
   exp10 m e + 1 + (Z.of_nat (String.length raw) - k)).

Definition string_drop (n : nat) (s : string) : string :=
  substring n (String.length s - n) s.

Definition format_float (digits : string) (decpt : Z) : string :=
  let n := Z.of_nat (String.length digits) in
  if (-4 <? decpt) && (decpt <=? 16) then
    if decpt <=? 0 then
      "0." ++ repeat_char "0" (Z.to_nat (- decpt)) ++ digits
    else if n <=? decpt then
      digits ++ repeat_char "0" (Z.to_nat (decpt - n)) ++ ".0"
    else
      substring 0 (Z.to_nat decpt) digits ++ "." ++ string_drop (Z.to_nat decpt) digits
  else
    let ex := decpt - 1 in
    substring 0 1 digits
    ++ (if 1 <? n then "." ++ string_drop 1 digits else "")
    ++ "e" ++ (if ex <? 0 then "-" else "+") ++ pad_int 2 (Z.abs ex).

Definition float_repr (f : spec_float) : string :=
  match f with
  | S754_nan => "nan"
  | S754_infinity s => if s then "-inf" else "inf"
  | S754_zero s => if s then "-0.0" else "0.0"
  | S754_finite s m e =>
      let '(d, p) := float_digits m e in
      (if s then "-" else "") ++ format_float d p
  end.

(** ** Cell values

    What a DataFrame cell (or a value nested inside one) can hold: the
    scalars of the data model, pandas' missing-timestamp marker [NaT], and
    the two nested shapes.  A [dict] keeps its insertion order, as Python's
    does; its keys are strings.  Strings are sequences of code points below
    256. *)

Record Timestamp : Set := mkTimestamp {
  ts_year : Z; ts_month : Z; ts_day : Z;
  ts_hour : Z; ts_minute : Z; ts_second : Z;
  ts_nanosecond : Z   (* nanoseconds within the second *)
}.

Unset Elimination Schemes.
Inductive value : Type :=
| VNone
| VNaT
| VBool (b : bool)
| VInt (z : Z)
| VFloat (f : spec_float)
| VStr (s : string)
| VTimestamp (t : Timestamp)
| VList (l : list value)
| VDict (d : list (string * value)).
Set Elimination Schemes.

Section ValueInduction.
Variable P : value -> Prop.
Hypothesis HNone : P VNone.
Hypothesis HNaT : P VNaT.
Hypothesis HBool : forall b, P (VBool b).
Hypothesis HInt : forall z, P (VInt z).
Hypothesis HFloat : forall f, P (VFloat f).
Hypothesis HStr : forall s, P (VStr s).
Hypothesis HTimestamp : forall t, P (VTimestamp t).
Hypothesis HList : forall l, Forall P l -> P (VList l).
Hypothesis HDict : forall d, Forall (fun kv => P (snd kv)) d -> P (VDict d).

Fixpoint value_ind (v : value) : P v :=
    match v with
    | VNone => HNone
    | VNaT => HNaT
    | VBool b => HBool b
    | VInt z => HInt z
    | VFloat f => HFloat f
    | VStr s => HStr s
    | VTimestamp t => HTimestamp t
    | VList l =>
        HList l
          ((fix all (l : list value) : Forall P l :=
              match l with
              | [] => Forall_nil P
              | x :: r => Forall_cons x (value_ind x) (all r)
              end) l)
    | VDict d =>
        HDict d
          ((fix all (d : list (string * value)) : Forall (fun kv => P (snd kv)) d :=
              match d with
              | [] => Forall_nil _
              | kv :: r => Forall_cons kv (value_ind (snd kv)) (all r)
              end) d)
    end.
End ValueInduction.

(** [isinstance(x, (dict, list))] *)
Definition is_nested (v : value) : bool :=
  match v with
  | VList _ | VDict _ => true
  | _ => false
  end.

Definition is_str (v : value) : bool :=
  match v with VStr _ => true | _ => false end.

(** [pd.isna(x)] on a cell: [None], a float NaN, [NaT]. *)
Definition isna (v : value) : bool :=
  match v with
  | VNone | VNaT => true
  | VFloat f => is_nan f
  | _ => false
  end.

(** A [list] or a [dict] has no hash. *)
Definition hashable (v : value) : bool := negb (is_nested v).

(** The type of a datetime64 column's entries. *)
Definition is_datetime (v : value) : bool :=
  match v with
  | VTimestamp _ | VNaT => true
  | _ => false
  end.

Definition Timestamp_eqb (a b : Timestamp) : bool :=
  (ts_year a =? ts_year b) && (ts_month a =? ts_month b)
  && (ts_day a =? ts_day b) && (ts_hour a =? ts_hour b)
  && (ts_minute a =? ts_minute b) && (ts_second a =? ts_second b)
  && (ts_nanosecond a =? ts_nanosecond b).

(** Python's [==] on hashable, non-missing cells.  [bool] is an [int], and
    an [int] compares with a [float] by value, so [1 == 1.0 == True]. *)
Definition py_eqb (a b : value) : bool :=
  match a, b with
  | VNone, VNone => true
  | VStr s, VStr t => String.eqb s t
  | VTimestamp s, VTimestamp t => Timestamp_eqb s t
  | VBool x, VBool y => Bool.eqb x y
  | VBool x, VInt z | VInt z, VBool x => z =? Z.b2z x
  | VBool x, VFloat f | VFloat f, VBool x => int_float_eqb (Z.b2z x) f
  | VInt x, VInt y => x =? y
  | VInt z, VFloat f | VFloat f, VInt z => int_float_eqb z f
  | VFloat f, VFloat g => SFeqb f g
  | _, _ => false
  end.

(** Equality of two cells as [factorize] sees it (it backs
    [drop_duplicates], [merge] and [groupby]): every missing value gets the
    same code, the rest are told apart by hash and [==]. *)
Definition cell_eqb (a b : value) : bool :=
  if isna a then isna b
  else if isna b then false
  else py_eqb a b.

Fixpoint row_eqb (r1 r2 : list value) : bool :=
  match r1, r2 with
  | [], [] => true
  | a :: r1', b :: r2' => cell_eqb a b && row_eqb r1' r2'
  | _, _ => false
  end.

(** ** [str] and [repr] *)

(** The double quote character. *)
Definition dquote : ascii := "034"%char.

Fixpoint string_mem (c : ascii) (s : string) : bool :=
  match s with
  | EmptyString => false
  | String d r => Ascii.eqb c d || string_mem c r
  end.

Definition hex2 (n : N) : string :=
  String (hex_digit (n / 16)) (String (hex_digit (n mod 16)) "").

(** [str.isprintable] on one code point below 256. *)
Definition printable (n : N) : bool :=
  ((32 <=? n) && (n <? 127) || (161 <=? n) && negb (n =? 173))%N.

Definition repr_char (quote c : ascii) : string :=
  let n := N_of_ascii c in
  if Ascii.eqb c quote || Ascii.eqb c "\" then String "\" (String c "")
  else if (n =? 9)%N then "\t"
  else if (n =? 10)%N then "\n"
  else if (n =? 13)%N then "\r"
  else if printable n then String c ""
  else "\x" ++ hex2 n.

Fixpoint repr_chars (quote : ascii) (s : string) : string :=
  match s with
  | EmptyString => ""
  | String c r => repr_char quote c ++ repr_chars quote r
  end.

(** [repr(s)] for a [str]: single quotes, unless the text has a single quote
    and no double quote. *)
Definition str_repr (s : string) : string :=
  let quote : ascii :=
    if string_mem "'" s && negb (string_mem dquote s) then dquote else "'"%char in
  String quote (repr_chars quote s ++ String quote "").

(** [str(ts)] for a timezone-naive [pd.Timestamp]. *)
Definition Timestamp_str (t : Timestamp) : string :=
  let frac :=
    if ts_nanosecond t =? 0 then ""
    else if ts_nanosecond t mod 1000 =? 0
         then "." ++ pad_int 6 (ts_nanosecond t / 1000)
         else "." ++ pad_int 9 (ts_nanosecond t) in
  pad_int 4 (ts_year t) ++ "-" ++ pad_int 2 (ts_month t) ++ "-" ++ pad_int 2 (ts_day t)
  ++ " " ++ pad_int 2 (ts_hour t) ++ ":" ++ pad_int 2 (ts_minute t) ++ ":"
  ++ pad_int 2 (ts_second t) ++ frac.

Fixpoint py_repr (v : value) : string :=
  match v with
  | VNone => "None"
  | VNaT => "NaT"
  | VBool b => if b then "True" else "False"
  | VInt z => int_str z
  | VFloat f => float_repr f
  | VStr s => str_repr s
  | VTimestamp t => "Timestamp('" ++ Timestamp_str t ++ "')"
  | VList l =>
      "[" ++ join ", "
               ((fix reprs (l : list value) : list string :=
                   match l with
                   | [] => []
                   | x :: r => py_repr x :: reprs r
                   end) l)
          ++ "]"
  | VDict d =>
      "{" ++ join ", "
               ((fix reprs (d : list (string * value)) : list string :=
                   match d with
                   | [] => []
                   | (k, x) :: r => (str_repr k ++ ": " ++ py_repr x) :: reprs r
                   end) d)
          ++ "}"
  end.

(** [str(x)]: a [str] is itself, a [Timestamp] prints bare, everything else
    prints as its [repr]. *)
Definition py_str (v : value) : string :=
  match v with
  | VStr s => s
  | VTimestamp t => Timestamp_str t
  | _ => py_repr v
  end.

(** ** [json.dumps(x, sort_keys=True)]

    The defaults apply otherwise: [ensure_ascii=True], separators [", "] and
    [": "], [allow_nan=True]. *)

Definition json_escape_char (c : ascii) : string :=
  let n := N_of_ascii c in
  if Ascii.eqb c dquote then String "\" (String dquote "")
  else if Ascii.eqb c "\" then "\\"
  else if (n =? 10)%N then "\n"
  else if (n =? 13)%N then "\r"
  else if (n =? 9)%N then "\t"
  else if (n =? 8)%N then "\b"
  else if (n =? 12)%N then "\f"
  else if ((32 <=? n) && (n <? 127))%N then String c ""
  else "\u00" ++ hex2 n.

Fixpoint json_escape (s : string) : string :=
  match s with
  | EmptyString => ""
  | String c r => json_escape_char c ++ json_escape r
  end.

(** [encode_basestring_ascii] *)
Definition json_string (s : string) : string :=
  String dquote (json_escape s ++ String dquote "").

(** [floatstr] *)
Definition json_float (f : spec_float) : string :=
  match f with
  | S754_nan => "NaN"
  | S754_infinity s => if s then "-Infinity" else "Infinity"
  | _ => float_repr f
  end.

(** [sorted(dct.items())]: the sort is stable and, the keys of a dict being
    distinct, decided by the keys alone. *)
Fixpoint insert_item {A} (x : string * A) (l : list (string * A)) : list (string * A) :=
  match l with
  | [] => [x]
  | y :: r => if String.leb (fst x) (fst y) then x :: y :: r else y :: insert_item x r
  end.

Fixpoint sort_items {A} (l : list (string * A)) : list (string * A) :=
  match l with
  | [] => []
  | x :: r => insert_item x (sort_items r)
  end.

(** Gathers the encoded items of a dict, in order; the first failure wins. *)
Fixpoint json_items (l : list (string * result string)) : result (list string) :=
  match l with
  | [] => Ok []
  | (k, m) :: r =>
      s <- m ;; rest <- json_items r ;;
      Ok ((json_string k ++ ": " ++ s) :: rest)
  end.

(** The encoder.  A [Timestamp] or [NaT] is "not JSON serializable"
    ([TypeError]).  Each value of a dict is encoded where it stands and the
    encoded items are then put in key order, which prints what encoding the
    sorted items prints. *)
Fixpoint json_dumps (v : value) : result string :=
  match v with
  | VStr s => Ok (json_string s)
  | VNone => Ok "null"
  | VBool b => Ok (if b then "true" else "false")
  | VInt z => Ok (int_str z)
  | VFloat f => Ok (json_float f)
  | VList l =>
      items <- (fix encs (l : list value) : result (list string) :=
                  match l with
                  | [] => Ok []
                  | x :: r => s <- json_dumps x ;; rest <- encs r ;; Ok (s :: rest)
                  end) l ;;
      Ok ("[" ++ join ", " items ++ "]")
  | VDict d =>
      items <- json_items
                 (sort_items
                    ((fix encs (d : list (string * value)) : list (string * result string) :=
                        match d with
                        | [] => []
                        | (k, x) :: r => (k, json_dumps x) :: encs r
                        end) d)) ;;
      Ok ("{" ++ join ", " items ++ "}")
  | VTimestamp _ | VNaT => Raise TypeError
  end.

(** ** [json.loads] *)

Definition is_ws (c : ascii) : bool :=
  let n := N_of_ascii c in
  ((n =? 32) || (n =? 9) || (n =? 10) || (n =? 13))%N.

Fixpoint skip_ws (s : string) : string :=
  match s with
  | String c r => if is_ws c then skip_ws r else s
  | EmptyString => s
  end.

Definition is_digit (c : ascii) : bool :=
  let n := N_of_ascii c in ((48 <=? n) && (n <=? 57))%N.

Definition hex_value (c : ascii) : option N :=
  let n := N_of_ascii c in
  if ((48 <=? n) && (n <=? 57))%N then Some (n - 48)%N
  else if ((97 <=? n) && (n <=? 102))%N then Some (n - 87)%N
  else if ((65 <=? n) && (n <=? 70))%N then Some (n - 55)%N
  else None.

Definition hex4 (a b c d : ascii) : option N :=
  match hex_value a, hex_value b, hex_value c, hex_value d with
  | Some x, Some y, Some z, Some w => Some (((x * 16 + y) * 16 + z) * 16 + w)%N
  | _, _, _, _ => None
  end.

(** The character a one-letter escape stands for. *)
Definition unescape (c : ascii) : option ascii :=
  if Ascii.eqb c dquote then Some dquote
  else if Ascii.eqb c "\" then Some "\"%char
  else if Ascii.eqb c "/" then Some "/"%char
  else if Ascii.eqb c "b" then Some "008"%char
  else if Ascii.eqb c "f" then Some "012"%char
  else if Ascii.eqb c "n" then Some "010"%char
  else if Ascii.eqb c "r" then Some "013"%char
  else if Ascii.eqb c "t" then Some "009"%char
  else None.

(** [scanstring], strict, entered after the opening quote: the decoded text
    and what follows the closing quote.  An escape [\uXXXX] above [ÿ]
    names a code point the model's strings do not hold and is refused. *)
Fixpoint scanstring (s : string) : result (string * string) :=
  match s with
  | EmptyString => Raise JSONDecodeError
  | String c r =>
      if Ascii.eqb c dquote then Ok ("", r)
      else if Ascii.eqb c "\" then
        match r with
        | String "u" (String h1 (String h2 (String h3 (String h4 r')))) =>
            match hex4 h1 h2 h3 h4 with
            | Some n =>
                if (n <? 256)%N then
                  p <- scanstring r' ;;
                  Ok (String (ascii_of_N n) (fst p), snd p)
                else Raise JSONDecodeError
            | None => Raise JSONDecodeError
            end
        | String e r' =>
            match unescape e with
            | Some ch => p <- scanstring r' ;; Ok (String ch (fst p), snd p)
            | None => Raise JSONDecodeError
            end
        | EmptyString => Raise JSONDecodeError
        end
      else if (N_of_ascii c <? 32)%N then Raise JSONDecodeError
      else p <- scanstring r ;; Ok (String c (fst p), snd p)
  end.

(** The longest prefix of digits, and the rest. *)
Fixpoint span_digits (s : string) : string * string :=
  match s with
  | String c r =>
      if is_digit c then let (ds, rest) := span_digits r in (String c ds, rest)
      else ("", s)
  | EmptyString => ("", s)
  end.

Definition Z_of_digits (ds : string) : Z :=
  match DecimalString.NilEmpty.uint_of_string ds with
  | Some u => Z.of_uint u
  | None => 0
  end.

(** [float(text)] for a decimal literal [mant * 10^ex], correctly rounded. *)
Definition float_of_decimal (neg : bool) (mant ex : Z) : spec_float :=
  if mant =? 0 then S754_zero neg
  else if 0 <=? ex then
    binary_normalize prec emax ((if neg then -1 else 1) * mant * 10 ^ ex) 0 false
  else
    let '(mz, ez, lz) := SFdiv_core_binary prec emax mant 0 (10 ^ (- ex)) 0 in
    binary_round_aux prec emax neg mz ez lz.

(** [NUMBER_RE]: an optional minus sign, then [0] or a nonzero digit and
    digits; then, optionally, a dot and at least one digit; then, optionally,
    [e] or [E], an optional sign and at least one digit.  Each part returns
    what it matched and the text after it. *)
Definition scan_sign (s : string) : bool * string :=
  match s with
  | String c r => if Ascii.eqb c "-" then (true, r) else (false, s)
  | EmptyString => (false, s)
  end.

Definition scan_int (s : string) : option (string * string) :=
  match s with
  | String c r =>
      if Ascii.eqb c "0" then Some ("0", r)
      else if is_digit c then
        let (ds, rest) := span_digits r in Some (String c ds, rest)
      else None
  | EmptyString => None
  end.

Definition scan_frac (s : string) : option string * string :=
  match s with
  | String c r =>
      if Ascii.eqb c "." then
        let (fd, rest) := span_digits r in
        match fd with
        | EmptyString => (None, s)
        | String _ _ => (Some fd, rest)
        end
      else (None, s)
  | EmptyString => (None, s)
  end.

Definition scan_exp_sign (s : string) : bool * string :=
  match s with
  | String c r =>
      if Ascii.eqb c "-" then (true, r)
      else if Ascii.eqb c "+" then (false, r)
      else (false, s)
  | EmptyString => (false, s)
  end.

Definition scan_exp (s : string) : option Z * string :=
  match s with
  | String c r =>
      if Ascii.eqb c "e" || Ascii.eqb c "E" then
        let (eneg, r1) := scan_exp_sign r in
        let (ed, rest) := span_digits r1 in
        match ed with
        | EmptyString => (None, s)
        | String _ _ => (Some (if eneg then - Z_of_digits ed else Z_of_digits ed), rest)
        end
      else (None, s)
  | EmptyString => (None, s)
  end.

(** A literal with a fraction or an exponent is a float, any other an int. *)
Definition scan_number (s : string) : option (value * string) :=
  let (neg, s1) := scan_sign s in
  match scan_int s1 with
  | None => None
  | Some (ip, s2) =>
      let (frac, s3) := scan_frac s2 in
      let (expo, s4) := scan_exp s3 in
      match frac, expo with
      | None, None =>
          Some (VInt (if neg then - Z_of_digits ip else Z_of_digits ip), s4)
      | _, _ =>
          let fd := match frac with Some fd => fd | None => "" end in
          let ex := match expo with Some ex => ex | None => 0 end in
          Some (VFloat (float_of_decimal neg (Z_of_digits (ip ++ fd))
                          (ex - Z.of_nat (String.length fd))), s4)
      end
  end.

(** [s.startswith(p)], with the rest of [s]. *)
Fixpoint strip_prefix (p s : string) : option string :=
  match p, s with
  | EmptyString, _ => Some s
  | String a p', String b s' => if Ascii.eqb a b then strip_prefix p' s' else None
  | String _ _, EmptyString => None
  end.

(** [dict(pairs)]: a repeated key keeps its first place and its last value. *)
Fixpoint dict_set (k : string) (v : value) (d : list (string * value)) : list (string * value) :=
  match d with
  | [] => [(k, v)]
  | (k', v') :: r => if String.eqb k k' then (k, v) :: r else (k', v') :: dict_set k v r
  end.

Definition dict_of_pairs (pairs : list (string * value)) : list (string * value) :=
  fold_left (fun d kv => dict_set (fst kv) (snd kv) d) pairs [].

(** [scan_once], [JSONArray] and [JSONObject].  [fuel] bounds the number of
    nested and successive calls; the length of the text is enough. *)
Fixpoint scan_once (fuel : nat) (s : string) : result (value * string) :=
  match fuel with
  | O => Raise JSONDecodeError
  | S fuel' =>
      match s with
      | EmptyString => Raise JSONDecodeError
      | String c r =>
          if Ascii.eqb c dquote then
            p <- scanstring r ;; Ok (VStr (fst p), snd p)
          else if Ascii.eqb c "{" then
            match skip_ws r with
            | String c' r' =>
                if Ascii.eqb c' "}" then Ok (VDict [], r')
                else if Ascii.eqb c' dquote then
                  p <- object_items fuel' r' [] ;;
                  Ok (VDict (dict_of_pairs (fst p)), snd p)
                else Raise JSONDecodeError
            | EmptyString => Raise JSONDecodeError
            end
          else if Ascii.eqb c "[" then
            match skip_ws r with
            | String c' r' =>
                if Ascii.eqb c' "]" then Ok (VList [], r')
                else p <- array_items fuel' (String c' r') [] ;;
                     Ok (VList (fst p), snd p)
            | EmptyString => Raise JSONDecodeError
            end
          else
            match strip_prefix "null" s, strip_prefix "true" s, strip_prefix "false" s with
            | Some r', _, _ => Ok (VNone, r')
            | _, Some r', _ => Ok (VBool true, r')
            | _, _, Some r' => Ok (VBool false, r')
            | None, None, None =>
                match scan_number s with
                | Some p => Ok p
                | None =>
                    match strip_prefix "NaN" s, strip_prefix "Infinity" s,
                          strip_prefix "-Infinity" s with
                    | Some r', _, _ => Ok (VFloat S754_nan, r')
                    | _, Some r', _ => Ok (VFloat (S754_infinity false), r')
                    | _, _, Some r' => Ok (VFloat (S754_infinity true), r')
                    | None, None, None => Raise JSONDecodeError
                    end
                end
            end
      end
  end

(** The items of an array from the first one on; [acc] holds the values read
    so far, last first. *)
with array_items (fuel : nat) (s : string) (acc : list value)
  : result (list value * string) :=
  match fuel with
  | O => Raise JSONDecodeError
  | S fuel' =>
      p <- scan_once fuel' s ;;
      match skip_ws (snd p) with
      | String c r =>
          if Ascii.eqb c "]" then Ok (List.rev (fst p :: acc), r)
          else if Ascii.eqb c "," then array_items fuel' (skip_ws r) (fst p :: acc)
          else Raise JSONDecodeError
      | EmptyString => Raise JSONDecodeError
      end
  end

(** The pairs of an object, entered after the opening quote of a key. *)
with object_items (fuel : nat) (s : string) (acc : list (string * value))
  : result (list (string * value) * string) :=
  match fuel with
  | O => Raise JSONDecodeError
  | S fuel' =>
      k <- scanstring s ;;
      match skip_ws (snd k) with
      | String ":" r =>
          p <- scan_once fuel' (skip_ws r) ;;
          match skip_ws (snd p) with
          | String c r' =>
              if Ascii.eqb c "}" then Ok (List.rev ((fst k, fst p) :: acc), r')
              else if Ascii.eqb c "," then
                match skip_ws r' with
                | String c' r'' =>
                    if Ascii.eqb c' dquote
                    then object_items fuel' r'' ((fst k, fst p) :: acc)
                    else Raise JSONDecodeError
                | EmptyString => Raise JSONDecodeError
                end
              else Raise JSONDecodeError
          | EmptyString => Raise JSONDecodeError
          end
      | _ => Raise JSONDecodeError
      end
  end.

(** [JSONDecoder.decode]: one value, white space around it, nothing else. *)
Definition json_loads (s : string) : result value :=
  p <- scan_once (S (String.length s)) (skip_ws s) ;;
  match skip_ws (snd p) with
  | EmptyString => Ok (fst p)
  | String _ _ => Raise JSONDecodeError
  end.

(** ** DataFrames

    A frame is its column labels and its rows, each row holding one cell per
    column.  Columns carry no dtype of their own: a cell is whatever value
    it holds.  The index is left out, no node reads it. *)

Record DataFrame : Type := mkDataFrame {
  columns : list string;
  rows : list (list value)
}.

Definition wf_frame (df : DataFrame) : Prop :=
  Forall (fun r => List.length r = List.length (columns df)) (rows df).

Fixpoint index_of (c : string) (cols : list string) : option nat :=
  match cols with
  | [] => None
  | c' :: r => if String.eqb c c' then Some O
               else match index_of c r with Some i => Some (S i) | None => None end
  end.

(** [c in df.columns] *)
Definition has_column (c : string) (df : DataFrame) : bool :=
  existsb (String.eqb c) (columns df).

Definition cell (i : nat) (r : list value) : value := nth i r VNone.

Fixpoint set_cell (i : nat) (v : value) (r : list value) : list value :=
  match i, r with
  | O, _ :: r' => v :: r'
  | S i', x :: r' => x :: set_cell i' v r'
  | _, [] => []
  end.

(** [df[c]] *)
Definition get_column (c : string) (df : DataFrame) : result (list value) :=
  match index_of c (columns df) with
  | Some i => Ok (map (cell i) (rows df))
  | None => Raise KeyError
  end.

Fixpoint set_cells (i : nat) (vals : list value) (rs : list (list value)) : list (list value) :=
  match vals, rs with
  | v :: vals', r :: rs' => set_cell i v r :: set_cells i vals' rs'
  | _, _ => []
  end.

Fixpoint append_cells (vals : list value) (rs : list (list value)) : list (list value) :=
  match vals, rs with
  | v :: vals', r :: rs' => (r ++ [v])%list :: append_cells vals' rs'
  | _, _ => []
  end.

(** [df[c] = vals]: overwrites the column, or adds it as the last one. *)
Definition set_column (c : string) (vals : list value) (df : DataFrame) : result DataFrame :=
  if negb (List.length vals =? List.length (rows df))%nat then Raise ValueError
  else match index_of c (columns df) with
       | Some i => Ok (mkDataFrame (columns df) (set_cells i vals (rows df)))
       | None => Ok (mkDataFrame (columns df ++ [c])%list (append_cells vals (rows df)))
       end.

(** [df.rename(columns={old: new})] *)
Definition rename_column (old new : string) (df : DataFrame) : DataFrame :=
  mkDataFrame (map (fun c => if String.eqb c old then new else c) (columns df)) (rows df).

(** [df.applymap(f)] *)
Definition applymap (f : value -> value) (df : DataFrame) : DataFrame :=
  mkDataFrame (columns df) (map (map f) (rows df)).

(** [series.astype(str)] on an object column: [str(x)] of every entry, the
    missing ones included ([None] becomes ['None'], NaN ['nan']). *)
Definition astype_str (vals : list value) : list value :=
  map (fun v => VStr (py_str v)) vals.

(** [df.empty] *)
Definition frame_empty (df : DataFrame) : bool :=
  match columns df, rows df with
  | [], _ | _, [] => true
  | _, _ => false
  end.

(** Keeps the rows no earlier kept row equals, in order. *)
Fixpoint dedup (seen rs : list (list value)) : list (list value) :=
  match rs with
  | [] => []
  | r :: rest =>
      if existsb (row_eqb r) seen then dedup seen rest
      else r :: dedup (r :: seen) rest
  end.

(** [df.drop_duplicates()]: an empty frame comes back as it is; otherwise
    every column is factorized, which hashes every cell. *)
Definition drop_duplicates (df : DataFrame) : result DataFrame :=
  if frame_empty df then Ok df
  else if forallb (forallb hashable) (rows df)
       then Ok (mkDataFrame (columns df) (dedup [] (rows df)))
       else Raise TypeError.

Definition row_has_na (r : list value) : bool := existsb isna r.

(** [df.dropna()] *)
Definition dropna (df : DataFrame) : DataFrame :=
  mkDataFrame (columns df) (filter (fun r => negb (row_has_na r)) (rows df)).

(** *** Ordering of group keys

    [groupby] sorts its keys.  Numbers compare by value, strings by code
    points, timestamps by date; across kinds numbers come first, as in
    pandas' [safe_sort]. *)

(** A finite number as [n / 2^k]. *)
Definition num_scaled (v : value) : option (Z * Z) :=
  match v with
  | VBool b => Some (Z.b2z b, 0)
  | VInt z => Some (z, 0)
  | VFloat (S754_zero _) => Some (0, 0)
  | VFloat (S754_finite s m e) =>
      let n := if s then Z.neg m else Z.pos m in
      Some (if 0 <=? e then (n * 2 ^ e, 0) else (n, - e))
  | _ => None
  end.

Definition num_leb (a b : value) : bool :=
  match a, b with
  | VFloat (S754_infinity s), _ => s || match b with VFloat (S754_infinity false) => true | _ => false end
  | _, VFloat (S754_infinity s) => negb s
  | _, _ =>
      match num_scaled a, num_scaled b with
      | Some (n1, k1), Some (n2, k2) => n1 * 2 ^ k2 <=? n2 * 2 ^ k1
      | _, _ => true
      end
  end.

Definition Timestamp_key (t : Timestamp) : list Z :=
  [ts_year t; ts_month t; ts_day t; ts_hour t; ts_minute t; ts_second t; ts_nanosecond t].

Fixpoint lex_leb (a b : list Z) : bool :=
  match a, b with
  | x :: a', y :: b' => (x <? y) || ((x =? y) && lex_leb a' b')
  | [], _ => true
  | _ :: _, [] => false
  end.

Definition kind_rank (v : value) : Z :=
  match v with
  | VBool _ | VInt _ | VFloat _ => 0
  | VTimestamp _ => 1
  | VStr _ => 2
  | _ => 3
  end.

Definition value_leb (a b : value) : bool :=
  if kind_rank a <? kind_rank b then true
  else if kind_rank b <? kind_rank a then false
  else match a, b with
       | VStr s, VStr t => String.leb s t
       | VTimestamp s, VTimestamp t => lex_leb (Timestamp_key s) (Timestamp_key t)
       | _, _ => if kind_rank a =? 0 then num_leb a b else true
       end.

Fixpoint insert_sorted (x : value) (l : list value) : list value :=
  match l with
  | [] => [x]
  | y :: r => if value_leb x y then x :: y :: r else y :: insert_sorted x r
  end.

Fixpoint sort_values (l : list value) : list value :=
  match l with
  | [] => []
  | x :: r => insert_sorted x (sort_values r)
  end.

(** The distinct entries of a column, in order of first appearance. *)
Fixpoint uniques (seen l : list value) : list value :=
  match l with
  | [] => []
  | x :: r =>
      if existsb (cell_eqb x) seen then uniques seen r
      else x :: uniques (x :: seen) r
  end.

(** *** [pd.merge(left, right, on=key)]

    An inner join.  A column label the two frames share besides the key
    gets the suffix [_x] on the left and [_y] on the right.  Each left row
    pairs, in order, with the right rows whose key equals its own; missing
    keys match each other.  The key must be hashable. *)

Fixpoint remove_nth {A} (i : nat) (l : list A) : list A :=
  match i, l with
  | O, _ :: r => r
  | S i', x :: r => x :: remove_nth i' r
  | _, [] => []
  end.

Definition merge_columns (key : string) (ri : nat) (lcols rcols : list string) : list string :=
  let rrest := remove_nth ri rcols in
  List.app
    (map (fun c => if negb (String.eqb c key) && existsb (String.eqb c) rrest
                   then c ++ "_x" else c) lcols)
    (map (fun c => if existsb (String.eqb c) lcols then c ++ "_y" else c) rrest).

(** The right rows a left row pairs with, each joined to it without its
    copy of the key. *)
Definition pairs_of (li ri : nat) (rrows : list (list value)) (l : list value)
  : list (list value) :=
  map (fun r => (l ++ remove_nth ri r)%list)
      (filter (fun r => cell_eqb (cell li l) (cell ri r)) rrows).

Definition join_rows (li ri : nat) (lrows rrows : list (list value)) : list (list value) :=
  flat_map (pairs_of li ri rrows) lrows.

Definition merge (left right : DataFrame) (key : string) : result DataFrame :=
  match index_of key (columns left), index_of key (columns right) with
  | Some li, Some ri =>
      if forallb (fun r => hashable (cell li r)) (rows left)
         && forallb (fun r => hashable (cell ri r)) (rows right)
      then
        Ok (mkDataFrame
              (merge_columns key ri (columns left) (columns right))
              (join_rows li ri (rows left) (rows right)))
      else Raise TypeError
  | _, _ => Raise KeyError
  end.

(** *** [df.groupby(key)[col].count().reset_index()]

    One row per distinct non-missing key (groupby drops missing keys), the
    keys sorted; [count] is the number of non-missing entries of [col] in
    the group. *)
Definition group_count (ki ci : nat) (rs : list (list value)) (k : value) : Z :=
  Z.of_nat (List.length (filter (fun r => cell_eqb (cell ki r) k && negb (isna (cell ci r))) rs)).

Definition groupby_count (key col : string) (df : DataFrame) : result DataFrame :=
  match index_of key (columns df), index_of col (columns df) with
  | Some ki, Some ci =>
      if forallb (fun r => hashable (cell ki r)) (rows df) then
        let keys := filter (fun k => negb (isna k)) (map (cell ki) (rows df)) in
        Ok (mkDataFrame [key; col]
              (map (fun k => [k; VInt (group_count ki ci (rows df) k)])
                   (sort_values (uniques [] keys))))
      else Raise TypeError
  | _, _ => Raise KeyError
  end.

(** *** [series.sum()] and [series.mean()]

    Missing entries are skipped.  The entries are numbers ([bool] counts as
    0 or 1); a column of other values is reported as [TypeError].  A column
    with no float in it sums in the integers, so an empty one sums to [0].
    The floats are added left to right. *)
Definition float_of_value (v : value) : option spec_float :=
  match v with
  | VBool b => Some (float_of_Z (Z.b2z b))
  | VInt z => Some (float_of_Z z)
  | VFloat f => Some f
  | _ => None
  end.

Definition py_add (a b : value) : result value :=
  match a, b with
  | VInt x, VInt y => Ok (VInt (x + y))
  | VInt x, VBool y | VBool y, VInt x => Ok (VInt (x + Z.b2z y))
  | VBool x, VBool y => Ok (VInt (Z.b2z x + Z.b2z y))
  | _, _ =>
      match float_of_value a, float_of_value b with
      | Some f, Some g => Ok (VFloat (float_add f g))
      | _, _ => Raise TypeError
      end
  end.

Fixpoint sum_values (acc : value) (l : list value) : result value :=
  match l with
  | [] => Ok acc
  | x :: r => s <- py_add acc x ;; sum_values s r
  end.

Definition notna_values (l : list value) : list value :=
  filter (fun v => negb (isna v)) l.

Definition series_sum (l : list value) : result value :=
  sum_values (VInt 0) (notna_values l).

(** [nanmean]: the sum over the count, and NaN when nothing is counted. *)
Definition series_mean (l : list value) : result value :=
  let vals := notna_values l in
  s <- sum_values (VInt 0) vals ;;
  match vals, float_of_value s with
  | [], _ => Ok (VFloat S754_nan)
  | _, Some f => Ok (VFloat (float_div f (float_of_Z (Z.of_nat (List.length vals)))))
  | _, None => Raise TypeError
  end.

(** ** The data_processing nodes, as functions of the table's contents *)

(** [clean_customers] *)
Definition clean_customers (customers : DataFrame) : result DataFrame :=
  customers <- drop_duplicates customers ;;
  Ok (dropna customers).

Section CleanOrders.
  (** [pd.to_datetime] applied to a column, [errors='raise']: the converted
      column, or an error.  The date formats it reads are pandas' business;
      the node is transcribed over any such function. *)
Variable to_datetime : list value -> result (list value).

  (** [clean_orders] *)
Definition clean_orders (orders : DataFrame) : result DataFrame :=
    let orders :=
      if has_column "id" orders then rename_column "id" "order_id" orders
      else orders in
    orders <- drop_duplicates orders ;;
    let orders := dropna orders in
    ordered_at <- get_column "ordered_at" orders ;;
    parsed <- to_datetime ordered_at ;;
    set_column "ordered_at" parsed orders.
End CleanOrders.

(** [_safe_serialize] *)
Definition _safe_serialize (x : value) : value :=
  if is_nested x then
    match json_dumps x with
    | Ok s => VStr s
    | Raise _ => VStr (py_str x)
    end
  else x.

(** [clean_tickets] *)
Definition clean_tickets (tickets : DataFrame) : result DataFrame :=
  let tickets := applymap _safe_serialize tickets in
  tickets <-
    (if has_column "tags" tickets then
       tags <- get_column "tags" tickets ;;
       set_column "tags" (astype_str tags) tickets
     else Ok tickets) ;;
  tickets <- drop_duplicates tickets ;;
  Ok (dropna tickets).

(** ** The reporting nodes *)

(** [create_average_order_value] *)
Definition create_average_order_value (orders : DataFrame) : result DataFrame :=
  subtotal <- get_column "subtotal" orders ;;
  avg_order_value <- series_mean subtotal ;;
  Ok (mkDataFrame ["average_order_value"] [[avg_order_value]]).

(** [create_tickets_per_order] *)
Definition create_tickets_per_order (orders tickets : DataFrame) : result DataFrame :=
  order_tickets <- merge orders tickets "order_id" ;;
  tickets_per_order <- groupby_count "order_id" "ticket_id" order_tickets ;;
  Ok (rename_column "ticket_id" "number_of_tickets" tickets_per_order).

(** [create_total_revenue] *)
Definition create_total_revenue (orders : DataFrame) : result DataFrame :=
  subtotal <- get_column "subtotal" orders ;;
  total_revenue <- series_sum subtotal ;;
  Ok (mkDataFrame ["total_revenue"] [[total_revenue]]).

(** ** A date reader to run [clean_orders] with

    The part of [pd.to_datetime] that reads calendar dates written
    [YYYY-MM-DD]: such a text becomes the timestamp of that day's midnight;
    the empty text and pandas' NaT spellings become [NaT]; a timestamp or a
    missing value is kept (missing as [NaT]).  Any other entry is refused
    here, whether pandas reads it or not. *)

Definition nat_strings : list string := ["NaT"; "nat"; "NAT"; "nan"; "NaN"; "NAN"].

Definition leap_year (y : Z) : bool :=
  ((y mod 4 =? 0) && negb (y mod 100 =? 0)) || (y mod 400 =? 0).

Definition days_in_month (y m : Z) : Z :=
  if m =? 2 then (if leap_year y then 29 else 28)
  else if (m =? 4) || (m =? 6) || (m =? 9) || (m =? 11) then 30
  else 31.

Definition all_digits (s : string) : bool :=
  forallb is_digit (list_ascii_of_string s).

Definition parse_iso_date (s : string) : option Timestamp :=
  if (String.length s =? 10)%nat
     && all_digits (substring 0 4 s) && String.eqb (substring 4 1 s) "-"
     && all_digits (substring 5 2 s) && String.eqb (substring 7 1 s) "-"
     && all_digits (substring 8 2 s)
  then
    let y := Z_of_digits (substring 0 4 s) in
    let m := Z_of_digits (substring 5 2 s) in
    let d := Z_of_digits (substring 8 2 s) in
    if (1678 <=? y) && (y <=? 2261) && (1 <=? m) && (m <=? 12)
       && (1 <=? d) && (d <=? days_in_month y m)
    then Some (mkTimestamp y m d 0 0 0 0)
    else None
  else None.

Definition iso_datetime_scalar (v : value) : result value :=
  match v with
  | VStr s =>
      if String.eqb s "" || existsb (String.eqb s) nat_strings then Ok VNaT
      else match parse_iso_date s with
           | Some t => Ok (VTimestamp t)
           | None => Raise ValueError
           end
  | VTimestamp t => Ok (VTimestamp t)
  | VNone | VNaT => Ok VNaT
  | _ => Raise ValueError
  end.

Definition iso_to_datetime (l : list value) : result (list value) :=
  mapM iso_datetime_scalar l.

(** ** The nodes on shared tables

    A node receives a reference to the caller's DataFrame.  The [inplace=True]
    calls and the column assignment write through that reference; [applymap],
    [merge], [groupby] and the DataFrame constructor make a new object.  The
    heap lists the live DataFrames, a reference is a position in it. *)

Module InPlace.

Definition ref : Set := nat.
Definition heap : Type := list DataFrame.

  (** A computation reads and writes the heap and returns or raises; the heap
      it leaves is observable in both cases. *)
Definition M (A : Type) : Type := heap -> heap * result A.

Definition ret {A} (a : A) : M A := fun h => (h, Ok a).

Definition bindM {A B} (m : M A) (k : A -> M B) : M B :=
    fun h =>
      match m h with
      | (h', Ok a) => k a h'
      | (h', Raise e) => (h', Raise e)
      end.

Notation "x <~ m ;; k" := (bindM m (fun x => k))
    (at level 61, m at next level, right associativity).

Definition lift {A} (m : result A) : M A := fun h => (h, m).

Fixpoint replace_nth (i : nat) (df : DataFrame) (h : heap) : heap :=
    match i, h with
    | O, _ :: r => df :: r
    | S i', x :: r => x :: replace_nth i' df r
    | _, [] => []
    end.

Definition load (r : ref) : M DataFrame :=
    fun h => match nth_error h r with
             | Some df => (h, Ok df)
             | None => (h, Raise KeyError)
             end.

Definition store (r : ref) (df : DataFrame) : M unit :=
    fun h => (replace_nth r df h, Ok tt).

Definition alloc (df : DataFrame) : M ref :=
    fun h => ((h ++ [df])%list, Ok (List.length h)).

  (** [df.drop_duplicates(inplace=True)], [df.dropna(inplace=True)],
      [df.rename(columns={old: new}, inplace=True)], [df[c]], [df[c] = vals] *)
Definition drop_duplicates_inplace (r : ref) : M unit :=
    df <~ load r ;; df' <~ lift (drop_duplicates df) ;; store r df'.

Definition dropna_inplace (r : ref) : M unit :=
    df <~ load r ;; store r (dropna df).

Definition rename_inplace (r : ref) (old new : string) : M unit :=
    df <~ load r ;; store r (rename_column old new df).

Definition getitem (r : ref) (c : string) : M (list value) :=
    df <~ load r ;; lift (get_column c df).

Definition setitem (r : ref) (c : string) (vals : list value) : M unit :=
    df <~ load r ;; df' <~ lift (set_column c vals df) ;; store r df'.

Definition contains_column (c : string) (r : ref) : M bool :=
    df <~ load r ;; ret (has_column c df).

Definition clean_customers (customers : ref) : M ref :=
    _ <~ drop_duplicates_inplace customers ;;
    _ <~ dropna_inplace customers ;;
    ret customers.

Section CleanOrders.
Variable to_datetime : list value -> result (list value).

Definition clean_orders (orders : ref) : M ref :=
      has_id <~ contains_column "id" orders ;;
      _ <~ (if has_id : bool then rename_inplace orders "id" "order_id" else ret tt) ;;
      _ <~ drop_duplicates_inplace orders ;;
      _ <~ dropna_inplace orders ;;
      ordered_at <~ getitem orders "ordered_at" ;;
      parsed <~ lift (to_datetime ordered_at) ;;
      _ <~ setitem orders "ordered_at" parsed ;;
      ret orders.
End CleanOrders.

Definition clean_tickets (tickets : ref) : M ref :=
    df <~ load tickets ;;
    tickets <~ alloc (applymap _safe_serialize df) ;;
    has_tags <~ contains_column "tags" tickets ;;
    _ <~ (if has_tags : bool then
            tags <~ getitem tickets "tags" ;;
            setitem tickets "tags" (astype_str tags)
          else ret tt) ;;
    _ <~ drop_duplicates_inplace tickets ;;
    _ <~ dropna_inplace tickets ;;
    ret tickets.

Definition create_average_order_value (orders : ref) : M ref :=
    subtotal <~ getitem orders "subtotal" ;;
    avg_order_value <~ lift (series_mean subtotal) ;;
    alloc (mkDataFrame ["average_order_value"] [[avg_order_value]]).

Definition create_tickets_per_order (orders tickets : ref) : M ref :=
    o <~ load orders ;;
    t <~ load tickets ;;
    merged <~ lift (merge o t "order_id") ;;
    order_tickets <~ alloc merged ;;
    ot <~ load order_tickets ;;
    counts <~ lift (groupby_count "order_id" "ticket_id" ot) ;;
    tickets_per_order <~ alloc counts ;;
    _ <~ rename_inplace tickets_per_order "ticket_id" "number_of_tickets" ;;
    ret tickets_per_order.

Definition create_total_revenue (orders : ref) : M ref :=
    subtotal <~ getitem orders "subtotal" ;;
    total_revenue <~ lift (series_sum subtotal) ;;
    alloc (mkDataFrame ["total_revenue"] [[total_revenue]]).

End InPlace.

(** ** Vocabulary of the properties *)

(** No cell of the frame is a list or a dict. *)
Definition no_nested (df : DataFrame) : Prop :=
  Forall (fun r => forallb hashable r = true) (rows df).

(** No two rows of the frame are equal. *)
Definition no_duplicate_rows (df : DataFrame) : Prop := NoDup (rows df).

(** No cell of the frame is missing. *)
Definition no_nulls (df : DataFrame) : Prop :=
  Forall (fun r => Forall (fun v => isna v = false) r) (rows df).

(** The column is there and holds datetime entries only. *)
Definition datetime_column (c : string) (df : DataFrame) : Prop :=
  exists col, get_column c df = Ok col /\ Forall (fun v => is_datetime v = true) col.

(** What [clean_orders] holds when it reaches the date parsing: the table
    after the rename, the deduplication and the null drop. *)
Definition orders_before_parsing (orders : DataFrame) : result DataFrame :=
  let orders :=
    if has_column "id" orders then rename_column "id" "order_id" orders
    else orders in
  orders <- drop_duplicates orders ;;
  Ok (dropna orders).

(** Every object of [h] is still in [h'], at its place and unchanged. *)
Definition heap_extends (h h' : InPlace.heap) : Prop :=
  exists extra, h' = (h ++ extra)%list.

(** Whatever table the caller passes, the object it passed holds the same
    table after the call. *)
Definition leaves_argument_unchanged (node : InPlace.ref -> InPlace.M InPlace.ref) : Prop :=
  forall (h : InPlace.heap) (r : InPlace.ref) (df : DataFrame),
    nth_error h r = Some df -> nth_error (fst (node r h)) r = Some df.

(** The row [clean_tickets] compares and keeps for the raw row [r]: every
    cell serialized and, when [tags] names the column at [i], that cell
    turned into its [str]. *)
Definition prepared_row (tags : option nat) (r : list value) : list value :=
  let r := map _safe_serialize r in
  match tags with
  | Some i => set_cell i (VStr (py_str (cell i r))) r
  | None => r
  end.

(** *** Nested values

    Two values have the same structure when they are equal up to the order
    in which their dicts, at any depth, list their keys. *)
Unset Elimination Schemes.
Inductive value_equiv : value -> value -> Prop :=
| equiv_same (v : value) : value_equiv v v
| equiv_list (l1 l2 : list value) :
    Forall2 value_equiv l1 l2 -> value_equiv (VList l1) (VList l2)
| equiv_dict (d1 d2 d2' : list (string * value)) :
    Forall2 (fun a b => fst a = fst b /\ value_equiv (snd a) (snd b)) d1 d2' ->
    Permutation d2' d2 ->
    value_equiv (VDict d1) (VDict d2).
Set Elimination Schemes.

(** [json.dumps] can encode the value: no [Timestamp] and no [NaT] in it. *)
Fixpoint json_serializable (v : value) : bool :=
  match v with
  | VTimestamp _ | VNaT => false
  | VList l => forallb json_serializable l
  | VDict d => forallb (fun kv => json_serializable (snd kv)) d
  | _ => true
  end.

Fixpoint distinct (l : list string) : bool :=
  match l with
  | [] => true
  | x :: r => negb (existsb (String.eqb x) r) && distinct r
  end.

(** The keys of every dict in the value are distinct, as in Python. *)
Fixpoint distinct_keys (v : value) : bool :=
  match v with
  | VList l => forallb distinct_keys l
  | VDict d => distinct (map fst d) && forallb (fun kv => distinct_keys (snd kv)) d
  | _ => true
  end.

(** The value with the items of every dict put in key order. *)
Fixpoint canon (v : value) : value :=
  match v with
  | VList l => VList (map canon l)
  | VDict d => VDict (sort_items (map (fun kv => (fst kv, canon (snd kv))) d))
  | _ => v
  end.

(** The keys of every dict in the value come in strictly increasing order. *)
Fixpoint increasing (l : list string) : bool :=
  match l with
  | x :: r => match r with
              | y :: _ => String.ltb x y && increasing r
              | [] => true
              end
  | [] => true
  end.

Fixpoint keys_sorted (v : value) : bool :=
  match v with
  | VList l => forallb keys_sorted l
  | VDict d => increasing (map fst d) && forallb (fun kv => keys_sorted (snd kv)) d
  | _ => true
  end.

(** The JSON text of a value with the items of each dict in the order the
    dict lists them: [json.dumps] without [sort_keys]. *)
Fixpoint json_render (v : value) : result string :=
  match v with
  | VStr s => Ok (json_string s)
  | VNone => Ok "null"
  | VBool b => Ok (if b then "true" else "false")
  | VInt z => Ok (int_str z)
  | VFloat f => Ok (json_float f)
  | VList l =>
      items <- mapM json_render l ;;
      Ok ("[" ++ join ", " items ++ "]")
  | VDict d =>
      items <- json_items (map (fun kv => (fst kv, json_render (snd kv))) d) ;;
      Ok ("{" ++ join ", " items ++ "}")
  | VTimestamp _ | VNaT => Raise TypeError
  end.

(** Where a value ends in what [json.dumps] writes: at the end of the text
    or before a comma or a closing bracket. *)
Definition at_delimiter (rest : string) : bool :=
  match rest with
  | EmptyString => true
  | String c _ => Ascii.eqb c "," || Ascii.eqb c "]" || Ascii.eqb c "}"
  end.

Definition float_same (f g : spec_float) : bool :=
  match f, g with
  | S754_zero s, S754_zero t => Bool.eqb s t
  | S754_infinity s, S754_infinity t => Bool.eqb s t
  | S754_nan, S754_nan => true
  | S754_finite s m e, S754_finite t n d => Bool.eqb s t && Pos.eqb m n && (e =? d)
  | _, _ => false
  end.

(** The text [repr] prints for the float reads back as the float.  Python
    guarantees it of every float; here it is checked on the float at hand. *)
Definition float_readable (f : spec_float) : bool :=
  match f with
  | S754_nan | S754_infinity _ => true
  | _ => match scan_number (float_repr f) with
         | Some (VFloat g, EmptyString) => float_same f g
         | _ => false
         end
  end.

Fixpoint floats_readable (v : value) : bool :=
  match v with
  | VFloat f => float_readable f
  | VList l => forallb floats_readable l
  | VDict d => forallb (fun kv => floats_readable (snd kv)) d
  | _ => true
  end.

(** The text starts like a JSON value: it is not empty and its first
    character is neither white space nor a closing bracket. *)
Definition value_start (s : string) : bool :=
  match s with
  | String c _ => negb (is_ws c) && negb (Ascii.eqb c "]")
  | EmptyString => false
  end.

(** [scan_once] reads the text of [v] back as [v], whatever follows the
    value's end. *)
Definition parses_back (v : value) : Prop :=
  forall (s : string) (fuel : nat) (rest : string),
    json_render v = Ok s ->
    (String.length s < fuel)%nat ->
    at_delimiter rest = true ->
    scan_once fuel (s ++ rest) = Ok (v, rest).

(** A key that is a string, an int or a timestamp: on such keys the
    equality [merge] and [groupby] use is plain equality. *)
Definition plain_key (v : value) : bool :=
  match v with
  | VStr _ | VInt _ | VTimestamp _ => true
  | _ => false
  end.

(** The place of column [i] once column [ri] is taken out. *)
Definition shift (ri i : nat) : nat := if (i <? ri)%nat then i else pred i.

(** The number of rows whose cell at [i] is [k]. *)
Definition rows_with (i : nat) (k : value) (rs : list (list value)) : Z :=
  Z.of_nat (List.length (filter (fun r => cell_eqb (cell i r) k) rs)).

(** [l1] is [l2] with some entries left out, the rest in their order. *)
Inductive subsequence {A : Type} : list A -> list A -> Prop :=
| sub_nil : subsequence [] []
| sub_keep (x : A) (l1 l2 : list A) : subsequence l1 l2 -> subsequence (x :: l1) (x :: l2)
| sub_drop (x : A) (l1 l2 : list A) : subsequence l1 l2 -> subsequence l1 (x :: l2).

(** No row equals an earlier one as [drop_duplicates] compares them
    ([1], [1.0] and [True] are equal cells, and so are two missing ones). *)
Definition no_equal_rows (rs : list (list value)) : Prop :=
  ForallOrdPairs (fun earlier later => row_eqb later earlier = false) rs.

(** The number of rows whose cell at [i] is [k] and whose cell at [j] is
    not missing. *)
Definition counted_rows (i j : nat) (k : value) (rs : list (list value)) : Z :=
  Z.of_nat (List.length
              (filter (fun r => cell_eqb (cell i r) k && negb (isna (cell j r))) rs)).

(** The sum of the integers a column holds. *)
Definition int_of (v : value) : Z :=
  match v with VInt n => n | _ => 0 end.

Definition column_total (i : nat) (rs : list (list value)) : Z :=
  fold_right Z.add 0 (map (fun r => int_of (cell i r)) rs).

(** The text holds printable ASCII characters only (codes 32 to 126): no
    line break, no control character, nothing above 127. *)
Fixpoint printable_ascii (s : string) : bool :=
  match s with
  | EmptyString => true
  | String c r =>
      let n := N_of_ascii c in
      ((32 <=? n) && (n <? 127))%N && printable_ascii r
  end.

(** Join keys of one kind: all strings, all ints or all timestamps, as the
    [order_id] columns of two tables that can be merged are. *)
Definition is_int (v : value) : bool :=
  match v with VInt _ => true | _ => false end.

Definition is_timestamp (v : value) : bool :=
  match v with VTimestamp _ => true | _ => false end.

Definition one_kind (ks : list value) : Prop :=
  Forall (fun k => is_str k = true) ks
  \/ Forall (fun k => is_int k = true) ks
  \/ Forall (fun k => is_timestamp k = true) ks.

(** ** Example tables *)

Definition orders_2024 : DataFrame :=
  mkDataFrame ["id"; "ordered_at"; "subtotal"]
    [[VStr "ORD-001"; VStr "2024-01-01"; VInt 100];
     [VStr "ORD-002"; VStr "2024-01-02"; VInt 150];
     [VStr "ORD-001"; VStr "2024-01-01"; VInt 100]].

Definition cleaned_orders_2024 : DataFrame :=
  mkDataFrame ["order_id"; "ordered_at"; "subtotal"]
    [[VStr "ORD-001"; VTimestamp (mkTimestamp 2024 1 1 0 0 0 0); VInt 100];
     [VStr "ORD-002"; VTimestamp (mkTimestamp 2024 1 2 0 0 0 0); VInt 150]].

Definition orders_bad_date : DataFrame :=
  mkDataFrame ["id"; "ordered_at"; "tax_paid"]
    [[VStr "ORD-001"; VStr "2024-01-01"; VInt 10];
     [VStr "ORD-002"; VStr "not a date"; VInt 15]].


Definition orders_blank_dates : DataFrame :=
  mkDataFrame ["id"; "ordered_at"; "subtotal"]
    [[VStr "ORD-001"; VStr ""; VInt 100];
     [VStr "ORD-001"; VStr "NaT"; VInt 100]].

Definition tickets_null_tags : DataFrame :=
  mkDataFrame ["ticket_id"; "order_id"; "tags"]
    [[VStr "TCK-001"; VStr "ORD-001"; VList [VStr "refund"]];
     [VStr "TCK-002"; VStr "ORD-002"; VNone]].

(** ** Example values *)

Definition new_year : Timestamp := mkTimestamp 2024 1 1 0 0 0 0.

Definition tags_ab : value := VDict [("b", VInt 1); ("a", VList [VStr "x"; VNone])].
Definition tags_ba : value := VDict [("a", VList [VStr "x"; VNone]); ("b", VInt 1)].

Definition stamped_ab : value := VDict [("a", VTimestamp new_year); ("b", VInt 1)].
Definition stamped_ba : value := VDict [("b", VInt 1); ("a", VTimestamp new_year)].

Definition tickets_reordered_tags : DataFrame :=
  mkDataFrame ["ticket_id"; "status"; "tags"]
    [[VStr "TCK-001"; VStr "open"; tags_ab];
     [VStr "TCK-002"; VStr "open"; VList [VStr "refund"]];
     [VStr "TCK-001"; VStr "open"; tags_ba]].

Definition tickets_stamped_tags : DataFrame :=
  mkDataFrame ["ticket_id"; "tags"]
    [[VStr "TCK-001"; stamped_ab];
     [VStr "TCK-001"; stamped_ba]].

Definition tagged_order : value :=
  VDict [("tags", VList [VStr "order"; VStr "delivery"]);
         ("priority", VStr "high");
         ("weight", VFloat (S754_finite false 6755399441055744 (-52)));
         ("count", VInt (-3))].


Definition orders_three : DataFrame :=
  mkDataFrame ["order_id"; "customer"; "subtotal"]
    [[VStr "ORD-001"; VInt 1; VInt 100];
     [VStr "ORD-002"; VInt 2; VInt 150];
     [VStr "ORD-003"; VInt 3; VInt 200]].

Definition tickets_three : DataFrame :=
  mkDataFrame ["ticket_id"; "order_id"; "status"]
    [[VStr "TCK-001"; VStr "ORD-001"; VStr "resolved"];
     [VStr "TCK-002"; VStr "ORD-001"; VStr "resolved"];
     [VStr "TCK-003"; VStr "ORD-002"; VStr "open"]].

Definition orders_repeated_id : DataFrame :=
  mkDataFrame ["order_id"; "subtotal"]
    [[VStr "ORD-001"; VInt 100];
     [VStr "ORD-001"; VInt 120]].

Definition tickets_one : DataFrame :=
  mkDataFrame ["ticket_id"; "order_id"]
    [[VStr "TCK-001"; VStr "ORD-001"]].

Definition customers_repeated : DataFrame :=
  mkDataFrame ["id"; "name"]
    [[VInt 1; VStr "Alice"]; [VInt 2; VStr "Bob"]; [VInt 1; VStr "Alice"]].

Definition customers_cleaned : DataFrame :=
  mkDataFrame ["id"; "name"] [[VInt 1; VStr "Alice"]; [VInt 2; VStr "Bob"]].

Definition cleaned_tickets_null_tags : DataFrame :=
  mkDataFrame ["ticket_id"; "order_id"; "tags"]
    [[VStr "TCK-001"; VStr "ORD-001";
      VStr (String "[" (String dquote ("refund" ++ String dquote "]")))];
     [VStr "TCK-002"; VStr "ORD-002"; VStr "None"]].

Definition tickets_null_id : DataFrame :=
  mkDataFrame ["ticket_id"; "order_id"]
    [[VStr "TCK-001"; VStr "ORD-001"];
     [VNone; VStr "ORD-001"];
     [VNone; VStr "ORD-002"]].
(** * Properties *)

(** ** Cells and rows *)

Lemma SFeqb_refl (f : spec_float) : is_nan f = false -> SFeqb f f = true.
Proof.
  destruct f as [s | s | | s m e]; simpl; try discriminate; intros _;
    unfold SFeqb; simpl.
  - reflexivity.
  - now destruct s.
  - rewrite Z.compare_refl.
    assert (H : PosDef.Pos.compare_cont Eq m m = Eq) by apply Pos.compare_cont_refl.
    rewrite H. now destruct s.
Qed.

Lemma Timestamp_eqb_refl (t : Timestamp) : Timestamp_eqb t t = true.
Proof. unfold Timestamp_eqb. now rewrite !Z.eqb_refl. Qed.

Lemma py_eqb_refl (v : value) :
  hashable v = true -> isna v = false -> py_eqb v v = true.
Proof.
  destruct v; simpl; try discriminate; intros _ Hna.
  - now destruct b.
  - apply Z.eqb_refl.
  - now apply SFeqb_refl.
  - apply String.eqb_refl.
  - apply Timestamp_eqb_refl.
Qed.

Lemma cell_eqb_refl (v : value) : hashable v = true -> cell_eqb v v = true.
Proof.
  intros Hh. unfold cell_eqb. destruct (isna v) eqn:Hna; [reflexivity|].
  now apply py_eqb_refl.
Qed.

Lemma row_eqb_refl (r : list value) :
  forallb hashable r = true -> row_eqb r r = true.
Proof.
  induction r as [|v r IH]; simpl; [reflexivity|].
  intros H. apply andb_true_iff in H as [Hv Hr].
  now rewrite cell_eqb_refl, IH.
Qed.

(** ** [drop_duplicates] and [dropna] *)

Lemma dedup_incl (seen rs : list (list value)) r :
  In r (dedup seen rs) -> In r rs.
Proof.
  revert seen. induction rs as [|x rs IH]; simpl; intros seen H; [assumption|].
  destruct (existsb (row_eqb x) seen).
  - right. eapply IH; eassumption.
  - destruct H as [H | H]; [now left | right; eapply IH; eassumption].
Qed.

Lemma dedup_not_seen (seen rs : list (list value)) r :
  forallb hashable r = true -> In r (dedup seen rs) -> ~ In r seen.
Proof.
  intros Hh. revert seen. induction rs as [|x rs IH]; simpl; intros seen H; [contradiction|].
  destruct (existsb (row_eqb x) seen) eqn:E.
  - now apply IH.
  - destruct H as [H | H].
    + subst x. intros Hin.
      assert (existsb (row_eqb r) seen = true)
        by (apply existsb_exists; exists r; split; [assumption | now apply row_eqb_refl]).
      congruence.
    + intros Hin. apply (IH (x :: seen) H). now right.
Qed.

Lemma dedup_NoDup (seen rs : list (list value)) :
  Forall (fun r => forallb hashable r = true) rs -> NoDup (dedup seen rs).
Proof.
  intros Hh. revert seen. induction Hh as [|x rs Hx Hrs IH]; simpl; intros seen.
  - constructor.
  - destruct (existsb (row_eqb x) seen); [apply IH|].
    constructor; [|apply IH].
    intros Hin. apply (dedup_not_seen (x :: seen) rs x Hx Hin). now left.
Qed.

Lemma forallb_Forall {A} (f : A -> bool) (l : list A) :
  forallb f l = true <-> Forall (fun x => f x = true) l.
Proof. rewrite forallb_forall, Forall_forall. reflexivity. Qed.

Lemma NoDup_filter {A} (f : A -> bool) (l : list A) : NoDup l -> NoDup (filter f l).
Proof.
  induction 1 as [|x l Hx Hl IH]; simpl; [constructor|].
  destruct (f x); [|assumption].
  constructor; [|assumption]. intros Hin. apply filter_In in Hin. tauto.
Qed.

Lemma drop_duplicates_columns df df' :
  drop_duplicates df = Ok df' -> columns df' = columns df.
Proof.
  unfold drop_duplicates. destruct (frame_empty df); [intros [= <-]; reflexivity|].
  destruct (forallb _ _); [intros [= <-]; reflexivity | discriminate].
Qed.

Lemma drop_duplicates_incl df df' r :
  drop_duplicates df = Ok df' -> In r (rows df') -> In r (rows df).
Proof.
  unfold drop_duplicates. destruct (frame_empty df); [intros [= <-]; trivial|].
  destruct (forallb _ _); [intros [= <-]; simpl; apply dedup_incl | discriminate].
Qed.

Lemma dropna_no_nulls df : no_nulls (dropna df).
Proof.
  unfold no_nulls, dropna; simpl. apply Forall_forall. intros r Hr.
  apply filter_In in Hr as [_ Hr]. apply negb_true_iff in Hr.
  apply Forall_forall. intros v Hv.
  destruct (isna v) eqn:E; [|reflexivity].
  assert (row_has_na r = true) by (apply existsb_exists; eauto). congruence.
Qed.

Lemma dropna_incl df r : In r (rows (dropna df)) -> In r (rows df).
Proof. unfold dropna; simpl. intros H. now apply filter_In in H. Qed.
Lemma has_column_index c df :
  has_column c df = true <-> exists i, index_of c (columns df) = Some i.
Proof.
  unfold has_column. induction (columns df) as [|c' cs IH]; simpl.
  - split; [discriminate | intros [i H]; discriminate].
  - destruct (String.eqb c c'); simpl.
    + split; eauto.
    + rewrite IH. split; intros [i H].
      * rewrite H. eauto.
      * destruct (index_of c cs); [eauto | discriminate].
Qed.

Lemma has_column_false_index c df :
  has_column c df = false <-> index_of c (columns df) = None.
Proof.
  destruct (has_column c df) eqn:E.
  - apply has_column_index in E as [i E]. rewrite E. split; discriminate.
  - split; [intros _ | reflexivity].
    destruct (index_of c (columns df)) eqn:E'; [|reflexivity].
    assert (has_column c df = true) by (apply has_column_index; eauto). congruence.
Qed.

Lemma index_of_lt c cs i : index_of c cs = Some i -> (i < List.length cs)%nat.
Proof.
  revert i. induction cs as [|c' cs IH]; simpl; intros i; [discriminate|].
  destruct (String.eqb c c'); [intros [= <-]; lia|].
  destruct (index_of c cs); [intros [= <-] | discriminate].
  specialize (IH _ eq_refl). lia.
Qed.

(** ** Reporting on an empty table *)

(** C9. On an orders table with a [subtotal] column and no row,
    [create_average_order_value] returns one row and one column
    [average_order_value] holding NaN, and [create_total_revenue] returns one
    row and one column [total_revenue] holding 0; neither raises. *)
Theorem empty_orders_mean_nan_sum_zero (orders : DataFrame) :
  has_column "subtotal" orders = true ->
  rows orders = [] ->
  create_average_order_value orders
    = Ok (mkDataFrame ["average_order_value"] [[VFloat S754_nan]])
  /\ create_total_revenue orders
    = Ok (mkDataFrame ["total_revenue"] [[VInt 0]]).
Proof.
  intros Hcol Hrows. apply has_column_index in Hcol as [i Hi].
  unfold create_average_order_value, create_total_revenue, get_column.
  rewrite Hi, Hrows. simpl. split; reflexivity.
Qed.

Lemma empty_orders_mean_nan_sum_zero_witness :
  create_average_order_value (mkDataFrame ["order_id"; "subtotal"] [])
    = Ok (mkDataFrame ["average_order_value"] [[VFloat S754_nan]])
  /\ create_total_revenue (mkDataFrame ["order_id"; "subtotal"] [])
    = Ok (mkDataFrame ["total_revenue"] [[VInt 0]]).
Proof.
  apply (empty_orders_mean_nan_sum_zero (mkDataFrame ["order_id"; "subtotal"] []));
    reflexivity.
Defined.
(** ** [clean_orders] *)

Lemma has_column_rename_old old new df :
  old <> new -> has_column old (rename_column old new df) = false.
Proof.
  intros Hne. unfold has_column, rename_column; simpl.
  induction (columns df) as [|c cs IH]; simpl; [reflexivity|].
  rewrite IH, orb_false_r.
  destruct (String.eqb c old) eqn:E.
  - now apply String.eqb_neq.
  - rewrite String.eqb_sym. exact E.
Qed.

Lemma has_column_rename_new old new df :
  has_column old df = true \/ has_column new df = true ->
  has_column new (rename_column old new df) = true.
Proof.
  unfold has_column, rename_column; simpl.
  induction (columns df) as [|c cs IH]; simpl.
  - intros [H | H]; discriminate.
  - intros H. destruct (String.eqb c old) eqn:E.
    + now rewrite String.eqb_refl.
    + rewrite String.eqb_sym in E. rewrite E in H. simpl in H.
      destruct (String.eqb new c); [reflexivity|]. simpl in *. now apply IH.
Qed.

Lemma drop_duplicates_wf df df' :
  wf_frame df -> drop_duplicates df = Ok df' -> wf_frame df'.
Proof.
  intros Hwf H. unfold wf_frame in *.
  rewrite (drop_duplicates_columns _ _ H).
  apply Forall_forall. intros r Hr.
  rewrite Forall_forall in Hwf. apply Hwf. eapply drop_duplicates_incl; eassumption.
Qed.

Lemma dropna_wf df : wf_frame df -> wf_frame (dropna df).
Proof.
  unfold wf_frame. intros Hwf. apply Forall_forall. intros r Hr.
  rewrite Forall_forall in Hwf. apply Hwf. now apply dropna_incl.
Qed.

Lemma rename_column_wf old new df : wf_frame df -> wf_frame (rename_column old new df).
Proof. unfold wf_frame, rename_column; simpl. now rewrite length_map. Qed.

Lemma cell_set_cell i v r : (i < List.length r)%nat -> cell i (set_cell i v r) = v.
Proof.
  unfold cell. revert r. induction i as [|i IH]; intros [|x r]; simpl; try lia; trivial.
  intros H. apply IH. lia.
Qed.

Lemma map_cell_set_cells i vals rs :
  List.length vals = List.length rs ->
  Forall (fun r => (i < List.length r)%nat) rs ->
  map (cell i) (set_cells i vals rs) = vals.
Proof.
  revert rs. induction vals as [|v vals IH]; intros [|r rs]; simpl; try discriminate; trivial.
  intros [= Hlen] Hrs. inversion Hrs; subst.
  now rewrite cell_set_cell, IH.
Qed.

Lemma set_column_existing c vals df df' i :
  index_of c (columns df) = Some i ->
  set_column c vals df = Ok df' ->
  columns df' = columns df
  /\ rows df' = set_cells i vals (rows df)
  /\ List.length vals = List.length (rows df).
Proof.
  unfold set_column. intros Hi.
  destruct (Nat.eqb_spec (List.length vals) (List.length (rows df))); simpl; [|discriminate].
  rewrite Hi. intros [= <-]. simpl. auto.
Qed.

Lemma get_set_column c vals df df' :
  wf_frame df ->
  has_column c df = true ->
  set_column c vals df = Ok df' ->
  get_column c df' = Ok vals.
Proof.
  intros Hwf Hc Hset. apply has_column_index in Hc as [i Hi].
  destruct (set_column_existing _ _ _ _ _ Hi Hset) as (Hcols & Hrows & Hlen).
  unfold get_column. rewrite Hcols, Hi, Hrows. f_equal.
  apply map_cell_set_cells; [assumption|].
  eapply Forall_impl; [|exact Hwf]. simpl. intros r ->. eapply index_of_lt; eassumption.
Qed.

Lemma get_column_has c df col : get_column c df = Ok col -> has_column c df = true.
Proof.
  unfold get_column. destruct (index_of c (columns df)) eqn:E; [|discriminate].
  intros _. apply has_column_index. eauto.
Qed.

Lemma has_column_columns c df df' :
  columns df' = columns df -> has_column c df' = has_column c df.
Proof. unfold has_column. now intros ->. Qed.

Lemma clean_orders_steps to_datetime orders :
  clean_orders to_datetime orders =
  (kept <- orders_before_parsing orders ;;
   ordered_at <- get_column "ordered_at" kept ;;
   parsed <- to_datetime ordered_at ;;
   set_column "ordered_at" parsed kept).
Proof.
  unfold clean_orders, orders_before_parsing.
  destruct (drop_duplicates _); reflexivity.
Qed.

Lemma orders_before_parsing_columns orders kept :
  orders_before_parsing orders = Ok kept ->
  columns kept =
  columns (if has_column "id" orders then rename_column "id" "order_id" orders else orders).
Proof.
  unfold orders_before_parsing.
  destruct (drop_duplicates _) as [d|] eqn:E; simpl; [|discriminate].
  intros [= <-]. simpl. eapply drop_duplicates_columns; eassumption.
Qed.

Lemma orders_before_parsing_wf orders kept :
  wf_frame orders -> orders_before_parsing orders = Ok kept -> wf_frame kept.
Proof.
  unfold orders_before_parsing. intros Hwf.
  destruct (drop_duplicates _) as [d|] eqn:E; simpl; [|discriminate].
  intros [= <-]. apply dropna_wf. eapply drop_duplicates_wf; [|eassumption].
  destruct (has_column "id" orders); [now apply rename_column_wf | assumption].
Qed.

(** C7, amended.  Whenever [clean_orders] returns a table: it has no column
    [id]; it has a column [order_id] provided the input had a column [id] or
    [order_id]; and its [ordered_at] column holds what [to_datetime] made,
    datetime entries. *)
Theorem clean_orders_columns
    (to_datetime : list value -> result (list value)) (orders out : DataFrame) :
  (forall l l', to_datetime l = Ok l' -> Forall (fun v => is_datetime v = true) l') ->
  wf_frame orders ->
  clean_orders to_datetime orders = Ok out ->
  has_column "id" out = false
  /\ (has_column "id" orders || has_column "order_id" orders = true ->
      has_column "order_id" out = true)
  /\ datetime_column "ordered_at" out.
Proof.
  intros Hdt Hwf Hrun. rewrite clean_orders_steps in Hrun.
  destruct (orders_before_parsing orders) as [kept|] eqn:Hkept; simpl in Hrun; [|discriminate].
  destruct (get_column "ordered_at" kept) as [col|] eqn:Hcol; simpl in Hrun; [|discriminate].
  destruct (to_datetime col) as [parsed|] eqn:Hparsed; simpl in Hrun; [|discriminate].
  pose proof (get_column_has _ _ _ Hcol) as Hhas.
  pose proof (orders_before_parsing_wf _ _ Hwf Hkept) as Hwf'.
  pose proof (orders_before_parsing_columns _ _ Hkept) as Hcols.
  assert (Hout : columns out = columns kept).
  { apply has_column_index in Hhas as [i Hi].
    now destruct (set_column_existing _ _ _ _ _ Hi Hrun). }
  split; [|split].
  - rewrite (has_column_columns _ _ _ Hout), (has_column_columns _ _ _ Hcols).
    destruct (has_column "id" orders) eqn:Hid; [|assumption].
    apply has_column_rename_old. discriminate.
  - intros Hin.
    rewrite (has_column_columns _ _ _ Hout), (has_column_columns _ _ _ Hcols).
    destruct (has_column "id" orders) eqn:Hid.
    + apply has_column_rename_new. now left.
    + exact Hin.
  - exists parsed. split; [|eauto].
    eapply get_set_column; eassumption.
Qed.

Lemma mapM_Forall {A B} (f : A -> result B) (P : B -> Prop) l l' :
  (forall x y, f x = Ok y -> P y) -> mapM f l = Ok l' -> Forall P l'.
Proof.
  intros Hf. revert l'. induction l as [|x l IH]; simpl; intros l'.
  - intros [= <-]. constructor.
  - destruct (f x) as [y|] eqn:E; simpl; [|discriminate].
    destruct (mapM f l) as [ys|]; simpl; [|discriminate].
    intros [= <-]. constructor; eauto.
Qed.

Lemma iso_to_datetime_is_datetime l l' :
  iso_to_datetime l = Ok l' -> Forall (fun v => is_datetime v = true) l'.
Proof.
  apply mapM_Forall. intros x y. destruct x; simpl; try discriminate;
    try (intros [= <-]; reflexivity).
  destruct (_ || _); [intros [= <-]; reflexivity|].
  destruct (parse_iso_date s); [intros [= <-]; reflexivity | discriminate].
Qed.

Lemma clean_orders_columns_witness :
  has_column "id" cleaned_orders_2024 = false
  /\ (has_column "id" orders_2024 || has_column "order_id" orders_2024 = true ->
      has_column "order_id" cleaned_orders_2024 = true)
  /\ datetime_column "ordered_at" cleaned_orders_2024.
Proof.
  apply (clean_orders_columns iso_to_datetime orders_2024 cleaned_orders_2024).
  - exact iso_to_datetime_is_datetime.
  - repeat constructor.
  - reflexivity.
Defined.

(** C7 as stated fails: a table with neither [id] nor [order_id] is cleaned
    into a table without [order_id]. *)
Lemma clean_orders_without_id_has_no_order_id :
  clean_orders iso_to_datetime
    (mkDataFrame ["ordered_at"; "subtotal"] [[VStr "2024-01-01"; VInt 100]])
  = Ok (mkDataFrame ["ordered_at"; "subtotal"]
          [[VTimestamp (mkTimestamp 2024 1 1 0 0 0 0); VInt 100]])
  /\ has_column "order_id"
       (mkDataFrame ["ordered_at"; "subtotal"]
          [[VTimestamp (mkTimestamp 2024 1 1 0 0 0 0); VInt 100]]) = false.
Proof. split; reflexivity. Qed.

(** C6, amended.  When an [ordered_at] entry of a row that is still in the
    table after the rename, the deduplication and the null drop cannot be
    read, [clean_orders] raises and returns no table. *)
Theorem clean_orders_unreadable_date_raises
    (to_datetime : list value -> result (list value))
    (orders kept : DataFrame) (col : list value) (v : value) :
  (forall l x, In x l -> is_ok (to_datetime [x]) = false -> is_ok (to_datetime l) = false) ->
  orders_before_parsing orders = Ok kept ->
  get_column "ordered_at" kept = Ok col ->
  In v col ->
  is_ok (to_datetime [v]) = false ->
  exists e, clean_orders to_datetime orders = Raise e.
Proof.
  intros Hall Hkept Hcol Hin Hbad.
  rewrite clean_orders_steps, Hkept; simpl. rewrite Hcol; simpl.
  specialize (Hall col v Hin Hbad).
  destruct (to_datetime col) as [parsed|e]; [discriminate|].
  exists e. reflexivity.
Qed.

Lemma mapM_fails {A B} (f : A -> result B) l x :
  In x l -> is_ok (f x) = false -> is_ok (mapM f l) = false.
Proof.
  induction l as [|y l IH]; simpl; [contradiction|].
  intros [-> | Hin] Hx.
  - destruct (f x); [discriminate | reflexivity].
  - destruct (f y); simpl; [|reflexivity].
    specialize (IH Hin Hx). destruct (mapM f l); [discriminate | reflexivity].
Qed.

Lemma iso_to_datetime_fails l x :
  In x l -> is_ok (iso_to_datetime [x]) = false -> is_ok (iso_to_datetime l) = false.
Proof.
  intros Hin Hx. eapply mapM_fails; [eassumption|].
  unfold iso_to_datetime in Hx. simpl in Hx.
  destruct (iso_datetime_scalar x); [discriminate | reflexivity].
Qed.

Lemma clean_orders_unreadable_date_raises_witness :
  exists e, clean_orders iso_to_datetime orders_bad_date = Raise e.
Proof.
  apply (clean_orders_unreadable_date_raises iso_to_datetime orders_bad_date
           (mkDataFrame ["order_id"; "ordered_at"; "tax_paid"] (rows orders_bad_date))
           [VStr "2024-01-01"; VStr "not a date"] (VStr "not a date")).
  - exact iso_to_datetime_fails.
  - reflexivity.
  - reflexivity.
  - simpl. auto.
  - reflexivity.
Defined.

(** C6 as stated fails: the unreadable date sits in a row that the null drop
    removes, and [clean_orders] returns the remaining (here empty) table. *)
Lemma clean_orders_drops_unreadable_date_with_null :
  get_column "ordered_at"
    (mkDataFrame ["id"; "ordered_at"; "tax_paid"]
       [[VStr "ORD-001"; VStr "not a date"; VNone]])
  = Ok [VStr "not a date"]
  /\ is_ok (iso_to_datetime [VStr "not a date"]) = false
  /\ clean_orders iso_to_datetime
       (mkDataFrame ["id"; "ordered_at"; "tax_paid"]
          [[VStr "ORD-001"; VStr "not a date"; VNone]])
     = Ok (mkDataFrame ["order_id"; "ordered_at"; "tax_paid"] []).
Proof. repeat split; reflexivity. Qed.
(** ** The nodes on shared tables *)

Lemma load_at h r df : nth_error h r = Some df -> InPlace.load r h = (h, Ok df).
Proof. unfold InPlace.load. now intros ->. Qed.

Lemma nth_error_last (h : InPlace.heap) (df : DataFrame) :
  nth_error (h ++ [df])%list (List.length h) = Some df.
Proof. rewrite nth_error_app2, Nat.sub_diag; [reflexivity | lia]. Qed.

Lemma replace_nth_last (h : InPlace.heap) (x y : DataFrame) :
  InPlace.replace_nth (List.length h) y (h ++ [x])%list = (h ++ [y])%list.
Proof. induction h as [|z h IH]; simpl; [reflexivity | now rewrite IH]. Qed.

Lemma replace_nth_twice (h : InPlace.heap) r (x y : DataFrame) :
  InPlace.replace_nth r y (InPlace.replace_nth r x h) = InPlace.replace_nth r y h.
Proof.
  revert r. induction h as [|z h IH]; intros [|r]; simpl; trivial. now rewrite IH.
Qed.

Lemma nth_error_replace_nth (h : InPlace.heap) r (x y : DataFrame) :
  nth_error h r = Some x -> nth_error (InPlace.replace_nth r y h) r = Some y.
Proof.
  revert r. induction h as [|z h IH]; intros [|r]; simpl; try discriminate; trivial.
  apply IH.
Qed.

Lemma drop_duplicates_inplace_at h r df :
  nth_error h r = Some df ->
  InPlace.drop_duplicates_inplace r h =
  match drop_duplicates df with
  | Ok df' => (InPlace.replace_nth r df' h, Ok tt)
  | Raise e => (h, Raise e)
  end.
Proof.
  intros H. unfold InPlace.drop_duplicates_inplace, InPlace.bindM, InPlace.lift, InPlace.store.
  rewrite (load_at _ _ _ H). now destruct (drop_duplicates df).
Qed.

Lemma dropna_inplace_at h r df :
  nth_error h r = Some df ->
  InPlace.dropna_inplace r h = (InPlace.replace_nth r (dropna df) h, Ok tt).
Proof.
  intros H. unfold InPlace.dropna_inplace, InPlace.bindM, InPlace.store. now rewrite (load_at _ _ _ H).
Qed.

Lemma rename_inplace_at h r df old new :
  nth_error h r = Some df ->
  InPlace.rename_inplace r old new h = (InPlace.replace_nth r (rename_column old new df) h, Ok tt).
Proof.
  intros H. unfold InPlace.rename_inplace, InPlace.bindM, InPlace.store. now rewrite (load_at _ _ _ H).
Qed.

Lemma getitem_at h r df c :
  nth_error h r = Some df -> InPlace.getitem r c h = (h, get_column c df).
Proof.
  intros H. unfold InPlace.getitem, InPlace.bindM, InPlace.lift. now rewrite (load_at _ _ _ H).
Qed.

Lemma setitem_at h r df c vals :
  nth_error h r = Some df ->
  InPlace.setitem r c vals h =
  match set_column c vals df with
  | Ok df' => (InPlace.replace_nth r df' h, Ok tt)
  | Raise e => (h, Raise e)
  end.
Proof.
  intros H. unfold InPlace.setitem, InPlace.bindM, InPlace.lift, InPlace.store.
  rewrite (load_at _ _ _ H). now destruct (set_column c vals df).
Qed.

Lemma contains_column_at h r df c :
  nth_error h r = Some df -> InPlace.contains_column c r h = (h, Ok (has_column c df)).
Proof.
  intros H. unfold InPlace.contains_column, InPlace.bindM, InPlace.ret. now rewrite (load_at _ _ _ H).
Qed.

(** [clean_customers] overwrites the caller's table with the cleaned one and
    returns the caller's reference. *)
Lemma clean_customers_inplace h customers df :
  nth_error h customers = Some df ->
  InPlace.clean_customers customers h =
  match clean_customers df with
  | Ok cleaned => (InPlace.replace_nth customers cleaned h, Ok customers)
  | Raise e => (h, Raise e)
  end.
Proof.
  intros H. unfold InPlace.clean_customers, clean_customers, InPlace.bindM, InPlace.ret.
  rewrite (drop_duplicates_inplace_at _ _ _ H).
  destruct (drop_duplicates df) as [d|e]; simpl; [|reflexivity].
  rewrite (dropna_inplace_at _ _ d) by (eapply nth_error_replace_nth; eassumption).
  now rewrite replace_nth_twice.
Qed.

Lemma clean_orders_inplace to_datetime h orders df cleaned :
  nth_error h orders = Some df ->
  clean_orders to_datetime df = Ok cleaned ->
  InPlace.clean_orders to_datetime orders h = (InPlace.replace_nth orders cleaned h, Ok orders).
Proof.
  intros H Hrun. unfold InPlace.clean_orders, InPlace.bindM.
  rewrite (contains_column_at _ _ _ _ H). cbv beta iota.
  unfold clean_orders in Hrun.
  set (df1 := if has_column "id" df then rename_column "id" "order_id" df else df) in Hrun.
  assert (Hstep1 :
    (if has_column "id" df then InPlace.rename_inplace orders "id" "order_id" else InPlace.ret tt) h
    = (InPlace.replace_nth orders df1 h, Ok tt)).
  { subst df1. destruct (has_column "id" df).
    - now apply rename_inplace_at.
    - unfold InPlace.ret. f_equal. clear Hrun. revert orders H.
      induction h as [|z h IH]; intros [|r]; simpl; try discriminate.
      + now intros [= ->].
      + intros H. f_equal. now apply IH. }
  rewrite Hstep1.
  assert (H1 : nth_error (InPlace.replace_nth orders df1 h) orders = Some df1)
    by (eapply nth_error_replace_nth; eassumption).
  rewrite (drop_duplicates_inplace_at _ _ _ H1).
  destruct (drop_duplicates df1) as [df2|] eqn:E2; simpl in Hrun; [|discriminate].
  rewrite replace_nth_twice.
  assert (H2 : nth_error (InPlace.replace_nth orders df2 h) orders = Some df2)
    by (eapply nth_error_replace_nth; eassumption).
  rewrite (dropna_inplace_at _ _ _ H2), replace_nth_twice.
  assert (H3 : nth_error (InPlace.replace_nth orders (dropna df2) h) orders = Some (dropna df2))
    by (eapply nth_error_replace_nth; eassumption).
  rewrite (getitem_at _ _ _ _ H3).
  destruct (get_column "ordered_at" (dropna df2)) as [col|]; simpl in Hrun; [|discriminate].
  destruct (to_datetime col) as [parsed|]; simpl in Hrun; [|discriminate].
  unfold InPlace.lift. cbv beta iota.
  rewrite (setitem_at _ _ _ _ _ H3), Hrun.
  now rewrite replace_nth_twice.
Qed.

Lemma bindM_ok {A B} (m : InPlace.M A) (k : A -> InPlace.M B) h h' a :
  m h = (h', Ok a) -> InPlace.bindM m k h = k a h'.
Proof. unfold InPlace.bindM. now intros ->. Qed.

Lemma bindM_raise {A B} (m : InPlace.M A) (k : A -> InPlace.M B) h h' e :
  m h = (h', Raise e) -> InPlace.bindM m k h = (h', Raise e).
Proof. unfold InPlace.bindM. now intros ->. Qed.

(** [clean_tickets] works on the new table [applymap] made. *)
Lemma clean_tickets_inplace h tickets df :
  nth_error h tickets = Some df ->
  exists work,
    InPlace.clean_tickets tickets h =
    match clean_tickets df with
    | Ok cleaned => ((h ++ [cleaned])%list, Ok (List.length h))
    | Raise e => ((h ++ [work])%list, Raise e)
    end.
Proof.
  intros H. unfold InPlace.clean_tickets, clean_tickets.
  rewrite (bindM_ok _ _ _ _ _ (load_at _ _ _ H)).
  set (df1 := applymap _safe_serialize df).
  rewrite (bindM_ok _ _ h (h ++ [df1])%list (List.length h)) by reflexivity.
  rewrite (bindM_ok _ _ _ _ _ (contains_column_at _ _ _ _ (nth_error_last h df1))).
  assert (Hstep :
    exists work,
      (if has_column "tags" df1
       then InPlace.bindM (InPlace.getitem (List.length h) "tags")
              (fun tags => InPlace.setitem (List.length h) "tags" (astype_str tags))
       else InPlace.ret tt) (h ++ [df1])%list
      = match (if has_column "tags" df1
               then tags <- get_column "tags" df1 ;; set_column "tags" (astype_str tags) df1
               else Ok df1) with
        | Ok df2 => ((h ++ [df2])%list, Ok tt)
        | Raise e => ((h ++ [work])%list, Raise e)
        end).
  { destruct (has_column "tags" df1); [|exists df1; reflexivity].
    unfold InPlace.bindM.
    rewrite (getitem_at _ _ _ _ (nth_error_last h df1)).
    destruct (get_column "tags" df1) as [tags|]; simpl; [|exists df1; reflexivity].
    rewrite (setitem_at _ _ _ _ _ (nth_error_last h df1)).
    destruct (set_column "tags" (astype_str tags) df1); [|exists df1; reflexivity].
    exists df1. now rewrite replace_nth_last. }
  destruct Hstep as [work Hstep].
  destruct (if has_column "tags" df1 then _ else Ok df1) as [df2|e].
  - rewrite (bindM_ok _ _ _ _ _ Hstep).
    pose proof (drop_duplicates_inplace_at _ _ _ (nth_error_last h df2)) as Hdd.
    simpl. destruct (drop_duplicates df2) as [df3|e].
    + rewrite (bindM_ok _ _ _ _ _ Hdd), replace_nth_last.
      rewrite (bindM_ok _ _ _ _ _ (dropna_inplace_at _ _ _ (nth_error_last h df3))).
      rewrite replace_nth_last. exists df3. reflexivity.
    + rewrite (bindM_raise _ _ _ _ _ Hdd). exists df2. reflexivity.
  - rewrite (bindM_raise _ _ _ _ _ Hstep). exists work. reflexivity.
Qed.

Lemma heap_extends_refl h : heap_extends h h.
Proof. exists []. now rewrite app_nil_r. Qed.

Lemma heap_extends_app h x : heap_extends h (h ++ x)%list.
Proof. now exists x. Qed.

Lemma clean_tickets_extends h tickets :
  heap_extends h (fst (InPlace.clean_tickets tickets h)).
Proof.
  destruct (nth_error h tickets) as [df|] eqn:E.
  - destruct (clean_tickets_inplace _ _ _ E) as [work ->].
    destruct (clean_tickets df); apply heap_extends_app.
  - unfold InPlace.clean_tickets, InPlace.bindM, InPlace.load. rewrite E. apply heap_extends_refl.
Qed.

Lemma create_average_order_value_extends h orders :
  heap_extends h (fst (InPlace.create_average_order_value orders h)).
Proof.
  unfold InPlace.create_average_order_value, InPlace.bindM, InPlace.getitem, InPlace.load, InPlace.lift, InPlace.alloc, InPlace.bindM.
  destruct (nth_error h orders) as [df|]; simpl; [|apply heap_extends_refl].
  destruct (get_column "subtotal" df); simpl; [|apply heap_extends_refl].
  destruct (series_mean a); simpl; [apply heap_extends_app | apply heap_extends_refl].
Qed.

Lemma create_total_revenue_extends h orders :
  heap_extends h (fst (InPlace.create_total_revenue orders h)).
Proof.
  unfold InPlace.create_total_revenue, InPlace.bindM, InPlace.getitem, InPlace.load, InPlace.lift, InPlace.alloc, InPlace.bindM.
  destruct (nth_error h orders) as [df|]; simpl; [|apply heap_extends_refl].
  destruct (get_column "subtotal" df); simpl; [|apply heap_extends_refl].
  destruct (series_sum a); simpl; [apply heap_extends_app | apply heap_extends_refl].
Qed.

Lemma create_tickets_per_order_inplace h orders tickets o t :
  nth_error h orders = Some o ->
  nth_error h tickets = Some t ->
  exists extra,
    InPlace.create_tickets_per_order orders tickets h =
    match create_tickets_per_order o t with
    | Ok out => (((h ++ extra) ++ [out])%list, Ok (List.length (h ++ extra)%list))
    | Raise e => ((h ++ extra)%list, Raise e)
    end.
Proof.
  intros Ho Ht. unfold InPlace.create_tickets_per_order, create_tickets_per_order.
  rewrite (bindM_ok _ _ _ _ _ (load_at _ _ _ Ho)), (bindM_ok _ _ _ _ _ (load_at _ _ _ Ht)).
  destruct (merge o t "order_id") as [m|e]; simpl.
  - rewrite (bindM_ok _ _ h h m) by reflexivity.
    rewrite (bindM_ok _ _ h (h ++ [m])%list (List.length h)) by reflexivity.
    rewrite (bindM_ok _ _ _ _ _ (load_at _ _ _ (nth_error_last h m))).
    exists [m].
    destruct (groupby_count "order_id" "ticket_id" m) as [c|e]; simpl.
    + rewrite (bindM_ok _ _ (h ++ [m])%list (h ++ [m])%list c) by reflexivity.
      rewrite (bindM_ok _ _ (h ++ [m])%list ((h ++ [m]) ++ [c])%list
                 (List.length (h ++ [m])%list)) by reflexivity.
      rewrite (bindM_ok _ _ _ _ _
                 (rename_inplace_at _ _ _ _ _ (nth_error_last (h ++ [m])%list c))).
      now rewrite replace_nth_last.
    + now rewrite (bindM_raise _ _ (h ++ [m])%list (h ++ [m])%list e).
  - exists []. rewrite app_nil_r. now rewrite (bindM_raise _ _ h h e).
Qed.

Lemma create_tickets_per_order_extends h orders tickets :
  heap_extends h (fst (InPlace.create_tickets_per_order orders tickets h)).
Proof.
  destruct (nth_error h orders) as [o|] eqn:Eo.
  - destruct (nth_error h tickets) as [t|] eqn:Et.
    + destruct (create_tickets_per_order_inplace _ _ _ _ _ Eo Et) as [extra ->].
      destruct (create_tickets_per_order o t); simpl;
        [rewrite <- app_assoc|]; apply heap_extends_app.
    + unfold InPlace.create_tickets_per_order, InPlace.bindM, InPlace.load. rewrite Eo, Et.
      apply heap_extends_refl.
  - unfold InPlace.create_tickets_per_order, InPlace.bindM, InPlace.load. rewrite Eo.
    apply heap_extends_refl.
Qed.

(** C5, amended.  [clean_tickets] and the three reporting nodes leave every
    table that existed before the call as it was, the caller's included:
    they work on tables they make.  [clean_customers] and [clean_orders] make
    no copy: when they succeed, the table the caller passed has been
    overwritten with the cleaned one, and the reference they return is the
    caller's. *)
Theorem nodes_effect_on_callers_tables :
  (forall h tickets, heap_extends h (fst (InPlace.clean_tickets tickets h)))
  /\ (forall h orders, heap_extends h (fst (InPlace.create_average_order_value orders h)))
  /\ (forall h orders tickets,
        heap_extends h (fst (InPlace.create_tickets_per_order orders tickets h)))
  /\ (forall h orders, heap_extends h (fst (InPlace.create_total_revenue orders h)))
  /\ (forall h customers df cleaned,
        nth_error h customers = Some df ->
        clean_customers df = Ok cleaned ->
        InPlace.clean_customers customers h
        = (InPlace.replace_nth customers cleaned h, Ok customers))
  /\ (forall to_datetime h orders df cleaned,
        nth_error h orders = Some df ->
        clean_orders to_datetime df = Ok cleaned ->
        InPlace.clean_orders to_datetime orders h
        = (InPlace.replace_nth orders cleaned h, Ok orders)).
Proof.
  repeat split.
  - apply clean_tickets_extends.
  - apply create_average_order_value_extends.
  - apply create_tickets_per_order_extends.
  - apply create_total_revenue_extends.
  - intros h customers df cleaned H Hrun.
    rewrite (clean_customers_inplace _ _ _ H), Hrun. reflexivity.
  - intros. eapply clean_orders_inplace; eassumption.
Qed.

(** The amended claim on a caller's customers table with a repeated row. *)
Lemma nodes_effect_on_callers_tables_witness :
  InPlace.clean_customers 0%nat [customers_repeated]
  = (InPlace.replace_nth 0%nat customers_cleaned [customers_repeated], Ok 0%nat).
Proof.
  apply (proj1 (proj2 (proj2 (proj2 (proj2 nodes_effect_on_callers_tables))))
           [customers_repeated] 0%nat customers_repeated customers_cleaned);
    reflexivity.
Defined.

(** C5 as stated fails: after [clean_customers] the caller's table with a
    repeated row has lost the repetition. *)
Lemma clean_customers_mutates_argument :
  ~ leaves_argument_unchanged InPlace.clean_customers.
Proof.
  intros H.
  specialize (H [mkDataFrame ["id"] [[VInt 1]; [VInt 1]]] O
                (mkDataFrame ["id"] [[VInt 1]; [VInt 1]]) eq_refl).
  discriminate H.
Qed.
(** ** [clean_tickets] *)

Lemma _safe_serialize_hashable v : hashable (_safe_serialize v) = true.
Proof.
  unfold _safe_serialize. destruct (is_nested v) eqn:E.
  - now destruct (json_dumps v).
  - unfold hashable. now rewrite E.
Qed.


Lemma set_cell_hashable i v r :
  hashable v = true -> forallb hashable r = true -> forallb hashable (set_cell i v r) = true.
Proof.
  intros Hv. revert i. induction r as [|x r IH]; intros [|i]; simpl; trivial.
  - intros H. apply andb_true_iff in H as [_ H]. now rewrite Hv.
  - intros H. apply andb_true_iff in H as [Hx H]. now rewrite Hx, IH.
Qed.

Lemma prepared_row_hashable tags r : forallb hashable (prepared_row tags r) = true.
Proof.
  assert (H : forallb hashable (map _safe_serialize r) = true).
  { apply forallb_forall. intros x Hx. apply in_map_iff in Hx as (y & <- & _).
    apply _safe_serialize_hashable. }
  unfold prepared_row. destruct tags; [|assumption]. now apply set_cell_hashable.
Qed.

Lemma set_cells_map i (f : value -> value) rs :
  set_cells i (map (fun r => f (cell i r)) rs) rs
  = map (fun r => set_cell i (f (cell i r)) r) rs.
Proof. induction rs as [|r rs IH]; simpl; [reflexivity | now rewrite IH]. Qed.

(** The table [clean_tickets] hands to [drop_duplicates]. *)
Lemma clean_tickets_steps tickets :
  clean_tickets tickets =
  (deduped <- drop_duplicates
                (mkDataFrame (columns tickets)
                   (map (prepared_row (index_of "tags" (columns tickets))) (rows tickets))) ;;
   Ok (dropna deduped)).
Proof.
  unfold clean_tickets.
  set (df1 := applymap _safe_serialize tickets).
  assert (Hprep :
    (if has_column "tags" df1
     then tags <- get_column "tags" df1 ;; set_column "tags" (astype_str tags) df1
     else Ok df1)
    = Ok (mkDataFrame (columns tickets)
            (map (prepared_row (index_of "tags" (columns tickets))) (rows tickets)))).
  { destruct (has_column "tags" df1) eqn:Ht.
    - apply has_column_index in Ht as [i Hi].
      change (columns df1) with (columns tickets) in Hi.
      unfold get_column, set_column.
      change (columns df1) with (columns tickets).
      change (rows df1) with (map (map _safe_serialize) (rows tickets)).
      rewrite Hi. simpl.
      unfold astype_str. rewrite !length_map, Nat.eqb_refl. simpl.
      rewrite map_map.
      rewrite (set_cells_map i (fun v => VStr (py_str v))), map_map. reflexivity.
    - apply has_column_false_index in Ht.
      change (columns df1) with (columns tickets) in Ht. rewrite Ht.
      unfold df1, applymap. simpl. rewrite <- (map_id (rows tickets)) at 2.
      rewrite map_map. reflexivity. }
  rewrite Hprep. reflexivity.
Qed.

Lemma dedup_represents seen rs r :
  forallb hashable r = true -> In r rs ->
  exists r', (In r' seen \/ In r' (dedup seen rs)) /\ row_eqb r r' = true.
Proof.
  intros Hh. revert seen. induction rs as [|x rs IH]; simpl; intros seen Hin; [contradiction|].
  destruct Hin as [-> | Hin].
  - destruct (existsb (row_eqb r) seen) eqn:E.
    + apply existsb_exists in E as (r' & Hr' & He). exists r'. auto.
    + exists r. split; [right; now left | now apply row_eqb_refl].
  - destruct (existsb (row_eqb x) seen).
    + now apply IH.
    + destruct (IH (x :: seen) Hin) as (r' & [[-> | Hs] | Hd] & He);
        exists r'; simpl; auto.
Qed.

Lemma cell_eqb_isna a b : cell_eqb a b = true -> isna a = isna b.
Proof.
  unfold cell_eqb. destruct (isna a); [now intros -> |].
  destruct (isna b); [discriminate | reflexivity].
Qed.

Lemma row_eqb_has_na r r' : row_eqb r r' = true -> row_has_na r' = row_has_na r.
Proof.
  revert r'. induction r as [|a r IH]; intros [|b r']; simpl; try discriminate; trivial.
  intros H. apply andb_true_iff in H as [Hab Hr].
  unfold row_has_na in *. now rewrite (cell_eqb_isna _ _ Hab), (IH _ Hr).
Qed.



Lemma length_set_cell i v r : List.length (set_cell i v r) = List.length r.
Proof. revert i. induction r as [|x r IH]; intros [|i]; simpl; auto. Qed.

Lemma length_prepared_row tags r : List.length (prepared_row tags r) = List.length r.
Proof.
  unfold prepared_row. destruct tags; [rewrite length_set_cell|]; apply length_map.
Qed.

Lemma cell_set_cell_other i j v r : i <> j -> cell j (set_cell i v r) = cell j r.
Proof.
  unfold cell. revert i j. induction r as [|x r IH]; intros [|i] [|j] H; simpl; trivial.
  - congruence.
  - apply IH. congruence.
Qed.

Lemma cell_map f i r : (i < List.length r)%nat -> cell i (map f r) = f (cell i r).
Proof.
  unfold cell. revert i. induction r as [|x r IH]; intros [|i]; simpl; try lia; trivial.
  intros H. apply IH. lia.
Qed.


Lemma clean_tickets_facts (tickets : DataFrame) :
  exists out,
    clean_tickets tickets = Ok out
    /\ columns out = columns tickets
    /\ (columns tickets <> [] -> no_duplicate_rows out)
    /\ no_nulls out
    /\ no_nested out
    /\ (forall r', In r' (rows out) ->
        exists r, In r (rows tickets)
                  /\ r' = prepared_row (index_of "tags" (columns tickets)) r).
Proof.
  rewrite clean_tickets_steps.
  set (tags := index_of "tags" (columns tickets)).
  set (prep := mkDataFrame (columns tickets) (map (prepared_row tags) (rows tickets))).
  assert (Hh : Forall (fun r => forallb hashable r = true) (rows prep)).
  { apply Forall_forall. intros r Hr. simpl in Hr.
    apply in_map_iff in Hr as (x & <- & _). apply prepared_row_hashable. }
  destruct (drop_duplicates prep) as [d|e] eqn:Hd.
  2:{ exfalso. unfold drop_duplicates in Hd. destruct (frame_empty prep); [discriminate|].
      apply forallb_Forall in Hh. rewrite Hh in Hd. discriminate. }
  exists (dropna d). simpl. split; [reflexivity|].
  assert (Hin : forall r, In r (rows d) -> In r (rows prep))
    by (intros r; eapply drop_duplicates_incl; eassumption).
  split; [|split; [|split; [|split]]].
  - apply (drop_duplicates_columns _ _ Hd).
  - intros Hcols. unfold no_duplicate_rows, dropna. simpl. apply NoDup_filter.
    unfold drop_duplicates in Hd. destruct (frame_empty prep) eqn:He.
    + injection Hd as <-. unfold frame_empty in He. simpl in *.
      destruct (columns tickets) as [|c cs]; [congruence|].
      destruct (map (prepared_row tags) (rows tickets)); [constructor | discriminate].
    + destruct (forallb _ _); [|discriminate]. injection Hd as <-. simpl.
      now apply dedup_NoDup.
  - apply dropna_no_nulls.
  - unfold no_nested. apply Forall_forall. intros r Hr.
    apply dropna_incl in Hr. rewrite Forall_forall in Hh. auto.
  - intros r' Hr'. apply dropna_incl, Hin in Hr'. simpl in Hr'.
    apply in_map_iff in Hr' as (r & <- & Hr). eauto.
Qed.




(** The cleaned form of the example: the row with no tags is there, its
    [tags] reading ['None']. *)
Example clean_tickets_null_tags_run :
  clean_tickets tickets_null_tags
  = Ok (mkDataFrame ["ticket_id"; "order_id"; "tags"]
          [[VStr "TCK-001"; VStr "ORD-001"; VStr (String "[" (String dquote ("refund" ++ String dquote "]")))];
           [VStr "TCK-002"; VStr "ORD-002"; VStr "None"]]).
Proof. reflexivity. Qed.

(** ** [clean_customers] *)

(** X1.  The cleaned customers table, when there is one, has no missing cell and,
    if the table has a column at all, no repeated row.  There is one unless
    the table has rows and holds a list or a dict. *)
Theorem clean_customers_invariants (customers : DataFrame) :
  (forall out, clean_customers customers = Ok out ->
     columns out = columns customers
     /\ (columns customers <> [] -> no_duplicate_rows out)
     /\ no_nulls out
     /\ (forall r, In r (rows out) -> In r (rows customers)))
  /\ (frame_empty customers = true \/ forallb (forallb hashable) (rows customers) = true ->
      exists out, clean_customers customers = Ok out).
Proof.
  unfold clean_customers. split.
  - intros out. destruct (drop_duplicates customers) as [d|] eqn:Hd; simpl; [|discriminate].
    intros [= <-]. split; [|split; [|split]].
    + apply (drop_duplicates_columns _ _ Hd).
    + intros Hcols. unfold no_duplicate_rows, dropna. simpl. apply NoDup_filter.
      unfold drop_duplicates in Hd. destruct (frame_empty customers) eqn:He.
      * injection Hd as <-. unfold frame_empty in He.
        destruct (columns customers); [congruence|].
        destruct (rows customers); [constructor | discriminate].
      * destruct (forallb _ _) eqn:Hh; [|discriminate]. injection Hd as <-. simpl.
        apply dedup_NoDup. apply forallb_Forall in Hh. exact Hh.
    + apply dropna_no_nulls.
    + intros r Hr. apply dropna_incl in Hr. eapply drop_duplicates_incl; eassumption.
  - intros H. unfold drop_duplicates.
    destruct (frame_empty customers); simpl; [eauto|].
    destruct H as [H | H]; [discriminate|]. rewrite H. simpl. eauto.
Qed.

(** ** [clean_orders] parses after it has cleaned *)

(** C1 fails on [clean_orders]: two rows that differ only in how they spell
    a missing date are both kept by [drop_duplicates] and [dropna]; parsed,
    they are equal rows, each with a missing [ordered_at]. *)
Theorem clean_orders_returns_duplicates_and_nulls :
  clean_orders iso_to_datetime orders_blank_dates
  = Ok (mkDataFrame ["order_id"; "ordered_at"; "subtotal"]
          [[VStr "ORD-001"; VNaT; VInt 100];
           [VStr "ORD-001"; VNaT; VInt 100]])
  /\ ~ no_duplicate_rows
         (mkDataFrame ["order_id"; "ordered_at"; "subtotal"]
            [[VStr "ORD-001"; VNaT; VInt 100];
             [VStr "ORD-001"; VNaT; VInt 100]])
  /\ ~ no_nulls
         (mkDataFrame ["order_id"; "ordered_at"; "subtotal"]
            [[VStr "ORD-001"; VNaT; VInt 100];
             [VStr "ORD-001"; VNaT; VInt 100]]).
Proof.
  split; [reflexivity|]. split.
  - unfold no_duplicate_rows. simpl. intros H. inversion H as [|x l Hx _]; subst.
    apply Hx. now left.
  - unfold no_nulls. simpl. intros H. inversion H as [|x l Hx _]; subst.
    inversion Hx as [|y l' _ Hy]; subst. inversion Hy as [|z l'' Hz _]; subst.
    discriminate Hz.
Qed.
(** ** Key order *)

Lemma string_lt_trans a b c :
  String.compare a b = Lt -> String.compare b c = Lt -> String.compare a c = Lt.
Proof.
  intros H1 H2.
  apply OrderedTypeEx.String_as_OT.cmp_lt.
  apply OrderedTypeEx.String_as_OT.cmp_lt in H1, H2.
  eapply OrderedTypeEx.String_as_OT.lt_trans; eassumption.
Qed.

Lemma string_compare_refl a : String.compare a a = Eq.
Proof.
  destruct (String.compare a a) eqn:E; trivial.
  - pose proof (String.compare_antisym a a) as H. rewrite E in H. discriminate.
  - pose proof (String.compare_antisym a a) as H. rewrite E in H. discriminate.
Qed.

Lemma string_leb_trans a b c :
  String.leb a b = true -> String.leb b c = true -> String.leb a c = true.
Proof.
  unfold String.leb. intros H1 H2.
  destruct (String.compare a b) eqn:E1; try discriminate;
    destruct (String.compare b c) eqn:E2; try discriminate.
  - apply String.compare_eq_iff in E1, E2. subst. now rewrite string_compare_refl.
  - apply String.compare_eq_iff in E1. subst. now rewrite E2.
  - apply String.compare_eq_iff in E2. subst. now rewrite E1.
  - now rewrite (string_lt_trans _ _ _ E1 E2).
Qed.

Lemma string_leb_false a b : String.leb a b = false -> String.leb b a = true.
Proof.
  intros H. destruct (String.leb_total a b) as [H' | H']; congruence.
Qed.

Lemma string_ltb_leb a b : String.ltb a b = true <-> String.leb a b = true /\ a <> b.
Proof.
  unfold String.ltb, String.leb. destruct (String.compare a b) eqn:E.
  - apply String.compare_eq_iff in E. split; [discriminate | intros [_ H]; congruence].
  - split; [|reflexivity]. intros _. split; [reflexivity|].
    intros ->. rewrite string_compare_refl in E. discriminate.
  - split; [discriminate | intros [H _]; discriminate].
Qed.

Section SortItems.
  Context {A : Type}.
  Implicit Types (x y : string * A) (l : list (string * A)).

Inductive items_sorted : list (string * A) -> Prop :=
| sorted_nil : items_sorted []
| sorted_cons x l :
    Forall (fun y => String.leb (fst x) (fst y) = true) l ->
    items_sorted l -> items_sorted (x :: l).

Lemma insert_item_perm x l : Permutation (x :: l) (insert_item x l).
Proof.
  induction l as [|y l IH]; simpl; [reflexivity|].
  destruct (String.leb (fst x) (fst y)); [reflexivity|].
  rewrite perm_swap. now apply perm_skip.
Qed.

Lemma sort_items_perm l : Permutation l (sort_items l).
Proof.
  induction l as [|x l IH]; simpl; [reflexivity|].
  rewrite <- insert_item_perm. now apply perm_skip.
Qed.

Lemma insert_item_sorted x l : items_sorted l -> items_sorted (insert_item x l).
Proof.
  induction 1 as [|y l Hy Hl IH]; simpl.
  - repeat constructor.
  - destruct (String.leb (fst x) (fst y)) eqn:E.
    + constructor; [|now constructor].
      constructor; [assumption|].
      eapply Forall_impl; [|exact Hy]. simpl. intros z Hz.
      eapply string_leb_trans; eassumption.
    + constructor; [|assumption].
      eapply Permutation_Forall; [apply insert_item_perm|].
      constructor; [now apply string_leb_false | assumption].
Qed.

Lemma sort_items_sorted l : items_sorted (sort_items l).
Proof.
  induction l as [|x l IH]; simpl; [constructor | now apply insert_item_sorted].
Qed.

(** On a sorted list, inserting two items with different keys gives the
    same list in either order. *)
Lemma insert_item_comm x y l :
  fst x <> fst y -> items_sorted l ->
  insert_item x (insert_item y l) = insert_item y (insert_item x l).
Proof.
  intros Hne. induction 1 as [|z l Hz Hl IH]; simpl.
  - destruct (String.leb (fst x) (fst y)) eqn:Exy;
      destruct (String.leb (fst y) (fst x)) eqn:Eyx; trivial.
    + exfalso. apply Hne. now apply String.leb_antisym.
    + apply string_leb_false in Exy. congruence.
  - destruct (String.leb (fst y) (fst z)) eqn:Eyz;
      destruct (String.leb (fst x) (fst z)) eqn:Exz; simpl;
      rewrite ?Eyz, ?Exz.
    + destruct (String.leb (fst x) (fst y)) eqn:Exy;
        destruct (String.leb (fst y) (fst x)) eqn:Eyx; simpl; rewrite ?Eyz, ?Exz; trivial.
      * exfalso. apply Hne. now apply String.leb_antisym.
      * apply string_leb_false in Exy. congruence.
    + assert (Exy : String.leb (fst x) (fst y) = false).
      { destruct (String.leb (fst x) (fst y)) eqn:E; trivial.
        rewrite (string_leb_trans _ _ _ E Eyz) in Exz. discriminate. }
      rewrite Exy. simpl. now rewrite ?Exz.
    + assert (Eyx : String.leb (fst y) (fst x) = false).
      { destruct (String.leb (fst y) (fst x)) eqn:E; trivial.
        rewrite (string_leb_trans _ _ _ E Exz) in Eyz. discriminate. }
      rewrite Eyx. simpl. now rewrite ?Eyz.
    + now rewrite IH.
Qed.

Lemma sort_items_permutation l l' :
  Permutation l l' -> NoDup (map fst l) -> sort_items l = sort_items l'.
Proof.
  induction 1 as [| x l l' Hp IH | x y l | l l' l'' H1 IH1 H2 IH2]; intros Hnd; simpl.
  - reflexivity.
  - inversion Hnd; subst. now rewrite IH.
  - apply insert_item_comm; [|apply sort_items_sorted].
    simpl in Hnd. inversion Hnd as [|? ? Hy _]; subst.
    intros Heq. apply Hy. left. now symmetry.
  - rewrite IH1 by assumption. apply IH2.
    eapply Permutation_NoDup; [|exact Hnd]. now apply Permutation_map.
Qed.
End SortItems.

Lemma sort_items_map {A B} (f : A -> B) (l : list (string * A)) :
  sort_items (map (fun kv => (fst kv, f (snd kv))) l)
  = map (fun kv => (fst kv, f (snd kv))) (sort_items l).
Proof.
  induction l as [|x l IH]; simpl; [reflexivity|]. rewrite IH.
  generalize (sort_items l) as s. intros s.
  induction s as [|y s IHs]; simpl; [reflexivity|].
  destruct (String.leb (fst x) (fst y)); simpl; [reflexivity | now rewrite IHs].
Qed.

Lemma distinct_NoDup l : distinct l = true <-> NoDup l.
Proof.
  induction l as [|x l IH]; simpl.
  - split; [constructor | reflexivity].
  - rewrite andb_true_iff, negb_true_iff, IH. split.
    + intros [Hx Hl]. constructor; [|assumption].
      intros Hin. assert (existsb (String.eqb x) l = true); [|congruence].
      apply existsb_exists. exists x. split; [assumption | apply String.eqb_refl].
    + intros H. inversion H as [|? ? Hx Hl]; subst. split; [|assumption].
      destruct (existsb (String.eqb x) l) eqn:E; trivial.
      apply existsb_exists in E as (y & Hy & He). apply String.eqb_eq in He. now subst.
Qed.

Lemma sorted_increasing {A} (l : list (string * A)) :
  items_sorted l -> NoDup (map fst l) -> increasing (map fst l) = true.
Proof.
  induction 1 as [|x l Hx Hl IH]; simpl; [reflexivity|]. intros Hnd.
  inversion Hnd as [|? ? Hnx Hndl]; subst.
  destruct l as [|y l]; [reflexivity|]. simpl in *.
  rewrite IH by assumption. rewrite andb_true_r.
  apply string_ltb_leb. inversion Hx; subst. split; [assumption|].
  intros Heq. apply Hnx. now left.
Qed.
(** ** The canonical text of a nested value *)

Lemma dumps_list_encs (l : list value) :
  (fix encs (l : list value) : result (list string) :=
     match l with
     | [] => Ok []
     | x :: r => s <- json_dumps x ;; rest <- encs r ;; Ok (s :: rest)
     end) l = mapM json_dumps l.
Proof. induction l as [|x l IH]; simpl; [reflexivity | now rewrite IH]. Qed.

Lemma dumps_dict_encs (d : list (string * value)) :
  (fix encs (d : list (string * value)) : list (string * result string) :=
     match d with
     | [] => []
     | (k, x) :: r => (k, json_dumps x) :: encs r
     end) d = map (fun kv => (fst kv, json_dumps (snd kv))) d.
Proof. induction d as [|[k x] d IH]; simpl; [reflexivity | now rewrite IH]. Qed.

Lemma json_dumps_list l :
  json_dumps (VList l) =
  (items <- mapM json_dumps l ;; Ok ("[" ++ join ", " items ++ "]")).
Proof. simpl. now rewrite dumps_list_encs. Qed.

Lemma json_dumps_dict d :
  json_dumps (VDict d) =
  (items <- json_items (sort_items (map (fun kv => (fst kv, json_dumps (snd kv))) d)) ;;
   Ok ("{" ++ join ", " items ++ "}")).
Proof. simpl. now rewrite dumps_dict_encs. Qed.

Lemma mapM_ext_in {A B} (f g : A -> result B) l :
  Forall (fun x => f x = g x) l -> mapM f l = mapM g l.
Proof. induction 1 as [|x l Hx _ IH]; simpl; [reflexivity | now rewrite Hx, IH]. Qed.

Lemma mapM_map {A B C} (f : B -> result C) (g : A -> B) l :
  mapM f (map g l) = mapM (fun x => f (g x)) l.
Proof. induction l as [|x l IH]; simpl; [reflexivity | now rewrite IH]. Qed.

(** [json.dumps(x, sort_keys=True)] prints the canonical form of [x] as it
    stands. *)
Lemma json_dumps_render (v : value) : json_dumps v = json_render (canon v).
Proof.
  induction v as [| | b | z | f | s | t | l IH | d IH] using value_ind; try reflexivity.
  - rewrite json_dumps_list. simpl. rewrite mapM_map.
    now rewrite (mapM_ext_in _ _ _ IH).
  - rewrite json_dumps_dict. simpl.
    rewrite <- (sort_items_map json_render), map_map. simpl.
    do 3 f_equal. apply map_ext_in. intros kv Hkv.
    rewrite Forall_forall in IH. now rewrite (IH kv Hkv).
Qed.

Lemma value_equiv_nested v1 v2 : value_equiv v1 v2 -> is_nested v2 = is_nested v1.
Proof. now destruct 1. Qed.

Lemma Forall2_keys (d1 d2 : list (string * value)) (R : value -> value -> Prop) :
  Forall2 (fun a b => fst a = fst b /\ R (snd a) (snd b)) d1 d2 ->
  map fst d1 = map fst d2.
Proof. induction 1 as [|a b d1 d2 [H _] _ IH]; simpl; [reflexivity | now rewrite H, IH]. Qed.

Lemma canon_equiv (v1 : value) :
  forall v2, value_equiv v1 v2 -> distinct_keys v1 = true -> canon v1 = canon v2.
Proof.
  induction v1 as [| | b | z | f | s | t | l IH | d IH] using value_ind;
    intros v2 He Hd; inversion He; subst; try reflexivity.
  - simpl. f_equal. simpl in Hd. apply forallb_Forall in Hd.
    match goal with H : Forall2 value_equiv _ _ |- _ => rename H into H2 end.
    clear He. induction H2 as [|x y l l' Hxy _ IHl]; simpl; [reflexivity|].
    inversion IH; subst. inversion Hd; subst. f_equal; auto.
  - simpl. f_equal. simpl in Hd. apply andb_true_iff in Hd as [Hk Hd].
    apply forallb_Forall in Hd. apply distinct_NoDup in Hk.
    match goal with H : Forall2 _ d _ |- _ => rename H into H2 end.
    match goal with H : Permutation _ _ |- _ => rename H into Hp end.
    assert (Hmap : map (fun kv => (fst kv, canon (snd kv))) d
                   = map (fun kv => (fst kv, canon (snd kv))) d2').
    { clear Hp Hk He. induction H2 as [|x y l l' [Hk Hxy] _ IHl]; simpl; [reflexivity|].
      inversion IH; subst. inversion Hd; subst. rewrite Hk. f_equal; auto.
      f_equal. auto. }
    rewrite Hmap. apply sort_items_permutation.
    + now apply Permutation_map.
    + rewrite <- Hmap, map_map. simpl. exact Hk.
Qed.

Lemma forallb_map {A B} (f : B -> bool) (g : A -> B) l :
  forallb f (map g l) = forallb (fun x => f (g x)) l.
Proof. induction l as [|x l IH]; simpl; [reflexivity | now rewrite IH]. Qed.

Lemma forallb_perm {A} (f : A -> bool) l l' :
  Permutation l l' -> forallb f l = forallb f l'.
Proof.
  induction 1; simpl; try congruence.
  - now rewrite !andb_assoc, (andb_comm (f y)).
Qed.

Lemma canon_keys_sorted (v : value) :
  distinct_keys v = true -> keys_sorted (canon v) = true.
Proof.
  induction v as [| | b | z | f | s | t | l IH | d IH] using value_ind;
    try reflexivity; simpl; intros Hd.
  - apply forallb_Forall in Hd. rewrite forallb_map. apply forallb_forall.
    intros x Hx. rewrite Forall_forall in IH, Hd. auto.
  - apply andb_true_iff in Hd as [Hk Hd]. apply distinct_NoDup in Hk.
    set (items := map (fun kv => (fst kv, canon (snd kv))) d).
    assert (Hkeys : map fst items = map fst d)
      by (unfold items; now rewrite map_map).
    apply andb_true_iff. split.
    + apply sorted_increasing; [apply sort_items_sorted|].
      eapply Permutation_NoDup.
      * apply Permutation_map, sort_items_perm.
      * now rewrite Hkeys.
    + rewrite <- (forallb_perm _ _ _ (sort_items_perm items)).
      unfold items. rewrite forallb_map. simpl.
      apply forallb_forall. intros kv Hkv.
      rewrite Forall_forall in IH. apply IH; [assumption|].
      rewrite forallb_forall in Hd. now apply Hd.
Qed.

Lemma canon_serializable (v : value) :
  json_serializable (canon v) = json_serializable v.
Proof.
  induction v as [| | b | z | f | s | t | l IH | d IH] using value_ind;
    try reflexivity; simpl.
  - rewrite forallb_map. induction IH as [|x l Hx _ IHl]; simpl; [reflexivity|].
    now rewrite Hx, IHl.
  - rewrite <- (forallb_perm _ _ _ (sort_items_perm _)), forallb_map. simpl.
    induction IH as [|x l Hx _ IHl]; simpl; [reflexivity|].
    now rewrite Hx, IHl.
Qed.

Lemma json_render_serializable (v : value) :
  json_serializable v = true -> exists s, json_render v = Ok s.
Proof.
  induction v as [| | b | z | f | s | t | l IH | d IH] using value_ind;
    simpl; try discriminate; eauto; intros Hs.
  - assert (H : exists items, mapM json_render l = Ok items).
    { apply forallb_Forall in Hs.
      induction IH as [|x l Hx _ IHl]; simpl; [eauto|].
      inversion Hs; subst. destruct (Hx H1) as [s ->]. destruct (IHl H2) as [r ->].
      simpl. eauto. }
    destruct H as [items ->]. simpl. eauto.
  - assert (H : exists items,
               json_items (map (fun kv => (fst kv, json_render (snd kv))) d) = Ok items).
    { apply forallb_Forall in Hs.
      induction IH as [|x l Hx _ IHl]; simpl; [eauto|].
      inversion Hs; subst. destruct (Hx H1) as [s ->]. destruct (IHl H2) as [r ->].
      simpl. destruct x. simpl. eauto. }
    destruct H as [items ->]. simpl. eauto.
Qed.

Lemma json_dumps_serializable (v : value) :
  json_serializable v = true -> exists s, json_dumps v = Ok s.
Proof.
  intros H. rewrite json_dumps_render. apply json_render_serializable.
  now rewrite canon_serializable.
Qed.

Lemma safe_serialize_same (v1 v2 : value) :
  value_equiv v1 v2 ->
  is_nested v1 = true ->
  distinct_keys v1 = true ->
  json_serializable v1 = true ->
  exists s,
    _safe_serialize v1 = VStr s
    /\ _safe_serialize v2 = VStr s
    /\ json_render (canon v1) = Ok s
    /\ canon v2 = canon v1.
Proof.
  intros He Hn Hd Hs.
  destruct (json_dumps_serializable v1 Hs) as [s Hs1].
  assert (Hc : canon v1 = canon v2) by now apply canon_equiv.
  assert (Hs2 : json_dumps v2 = Ok s)
    by now rewrite json_dumps_render, <- Hc, <- json_dumps_render.
  exists s. unfold _safe_serialize.
  rewrite (value_equiv_nested _ _ He), Hn, Hs1, Hs2.
  repeat split; trivial.
  - now rewrite <- json_dumps_render.
  - now symmetry.
Qed.

(** C2, amended.  Two nested values of the same structure up to key order,
    which [json.dumps] can encode, are serialized to the same string: the
    JSON text of their common canonical form, whose keys are sorted at every
    level.  A value that is neither a list nor a dict is returned as it is. *)
Theorem safe_serialize_canonical :
  (forall v1 v2 : value,
      value_equiv v1 v2 ->
      is_nested v1 = true ->
      distinct_keys v1 = true ->
      json_serializable v1 = true ->
      exists s,
        _safe_serialize v1 = VStr s
        /\ _safe_serialize v2 = VStr s
        /\ json_render (canon v1) = Ok s
        /\ keys_sorted (canon v1) = true
        /\ canon v2 = canon v1)
  /\ (forall v : value, is_nested v = false -> _safe_serialize v = v).
Proof.
  split.
  - intros v1 v2 He Hn Hd Hs.
    destruct (safe_serialize_same v1 v2 He Hn Hd Hs) as (s & H1 & H2 & H3 & H4).
    exists s. repeat split; trivial. now apply canon_keys_sorted.
  - intros v Hn. unfold _safe_serialize. now rewrite Hn.
Qed.
Lemma tags_ab_equiv_ba : value_equiv tags_ab tags_ba.
Proof.
  apply (equiv_dict _ _ [("b", VInt 1); ("a", VList [VStr "x"; VNone])]).
  - repeat constructor.
  - apply perm_swap.
Qed.

Lemma stamped_ab_equiv_ba : value_equiv stamped_ab stamped_ba.
Proof.
  apply (equiv_dict _ _ [("a", VTimestamp new_year); ("b", VInt 1)]).
  - repeat constructor.
  - apply perm_swap.
Qed.

Lemma safe_serialize_canonical_witness :
  exists s,
    _safe_serialize tags_ab = VStr s
    /\ _safe_serialize tags_ba = VStr s
    /\ json_render (canon tags_ab) = Ok s
    /\ keys_sorted (canon tags_ab) = true
    /\ canon tags_ba = canon tags_ab.
Proof.
  apply (proj1 safe_serialize_canonical tags_ab tags_ba).
  - exact tags_ab_equiv_ba.
  - reflexivity.
  - reflexivity.
  - reflexivity.
Defined.

(** C2 as stated fails: a dict holding a [Timestamp] is not JSON
    serializable, the fallback prints it in insertion order, and the same
    dict with its keys in the other order prints differently. *)
Lemma safe_serialize_fallback_keeps_key_order :
  value_equiv stamped_ab stamped_ba
  /\ is_nested stamped_ab = true
  /\ _safe_serialize stamped_ab = VStr "{'a': Timestamp('2024-01-01 00:00:00'), 'b': 1}"
  /\ _safe_serialize stamped_ba = VStr "{'b': 1, 'a': Timestamp('2024-01-01 00:00:00')}"
  /\ _safe_serialize stamped_ab <> _safe_serialize stamped_ba.
Proof.
  split; [exact stamped_ab_equiv_ba|].
  repeat split; try reflexivity. discriminate.
Qed.
Lemma cells_ext (r1 r2 : list value) :
  List.length r1 = List.length r2 ->
  (forall j, (j < List.length r1)%nat -> cell j r1 = cell j r2) ->
  r1 = r2.
Proof. intros Hlen H. apply (nth_ext r1 r2 VNone VNone Hlen). exact H. Qed.

(** A raw row whose prepared form has no missing cell is represented in the
    cleaned table: by itself, or by the earlier row it repeats. *)
Lemma clean_tickets_represents (tickets out : DataFrame) (r : list value) :
  clean_tickets tickets = Ok out ->
  columns tickets <> [] ->
  In r (rows tickets) ->
  row_has_na (prepared_row (index_of "tags" (columns tickets)) r) = false ->
  exists r', In r' (rows out)
             /\ row_eqb (prepared_row (index_of "tags" (columns tickets)) r) r' = true.
Proof.
  rewrite clean_tickets_steps. intros Hrun Hcols Hin Hna.
  set (tags := index_of "tags" (columns tickets)) in *.
  unfold drop_duplicates in Hrun.
  assert (He : frame_empty
                 (mkDataFrame (columns tickets) (map (prepared_row tags) (rows tickets)))
               = false).
  { unfold frame_empty. simpl. destruct (columns tickets); [congruence|].
    destruct (rows tickets); [contradiction | reflexivity]. }
  rewrite He in Hrun. simpl in Hrun.
  destruct (forallb _ _); simpl in Hrun; [|discriminate].
  injection Hrun as <-.
  destruct (dedup_represents [] (map (prepared_row tags) (rows tickets))
              (prepared_row tags r)) as (r' & [[] | Hr'] & Heq).
  { apply prepared_row_hashable. }
  { now apply in_map. }
  exists r'. split; [|assumption].
  unfold dropna. simpl. apply filter_In. split; [assumption|].
  now rewrite (row_eqb_has_na _ _ Heq), Hna.
Qed.

(** C3, amended.  When two raw rows agree in every column but [tags], and
    their [tags] are nested values of the same structure up to key order
    that [json.dumps] can encode, [clean_tickets] compares them as one and
    the same row.  Its output has no repeated row, so it holds that row at
    most once; it holds it (or the earlier row it repeats) unless the row
    has a missing cell; and none of its cells is a list or a dict. *)
Theorem clean_tickets_collapses_reordered_tags
    (tickets : DataFrame) (r1 r2 : list value) (i : nat) :
  index_of "tags" (columns tickets) = Some i ->
  In r1 (rows tickets) -> In r2 (rows tickets) ->
  List.length r1 = List.length r2 ->
  (i < List.length r1)%nat ->
  (forall j, j <> i -> cell j r1 = cell j r2) ->
  value_equiv (cell i r1) (cell i r2) ->
  is_nested (cell i r1) = true ->
  distinct_keys (cell i r1) = true ->
  json_serializable (cell i r1) = true ->
  exists out,
    clean_tickets tickets = Ok out
    /\ prepared_row (Some i) r1 = prepared_row (Some i) r2
    /\ no_duplicate_rows out
    /\ (row_has_na (prepared_row (Some i) r1) = false ->
        exists r', In r' (rows out) /\ row_eqb (prepared_row (Some i) r1) r' = true)
    /\ no_nested out.
Proof.
  intros Hi Hin1 Hin2 Hlen Hlt Hother He Hn Hd Hs.
  destruct (clean_tickets_facts tickets) as (out & Hrun & _ & Hnd & _ & Hnn & _).
  assert (Hcols : columns tickets <> []).
  { intros Hc. rewrite Hc in Hi. discriminate. }
  exists out. split; [assumption|].
  assert (Hser : map _safe_serialize r1 = map _safe_serialize r2).
  { apply cells_ext; [now rewrite !length_map|].
    intros j Hj. rewrite length_map in Hj.
    rewrite !cell_map by lia.
    destruct (Nat.eq_dec j i) as [-> | Hne]; [|now rewrite Hother].
    destruct (safe_serialize_same _ _ He Hn Hd Hs) as (s & H1 & H2 & _).
    now rewrite H1, H2. }
  split; [|split; [|split]].
  - unfold prepared_row. now rewrite Hser.
  - now apply Hnd.
  - intros Hna. rewrite <- Hi in *. eapply clean_tickets_represents; eassumption.
  - assumption.
Qed.

Lemma clean_tickets_collapses_reordered_tags_witness :
  exists out,
    clean_tickets tickets_reordered_tags = Ok out
    /\ prepared_row (Some 2%nat) [VStr "TCK-001"; VStr "open"; tags_ab]
       = prepared_row (Some 2%nat) [VStr "TCK-001"; VStr "open"; tags_ba]
    /\ no_duplicate_rows out
    /\ (row_has_na (prepared_row (Some 2%nat) [VStr "TCK-001"; VStr "open"; tags_ab]) = false ->
        exists r', In r' (rows out)
                   /\ row_eqb (prepared_row (Some 2%nat) [VStr "TCK-001"; VStr "open"; tags_ab]) r'
                      = true)
    /\ no_nested out.
Proof.
  apply (clean_tickets_collapses_reordered_tags tickets_reordered_tags
           [VStr "TCK-001"; VStr "open"; tags_ab]
           [VStr "TCK-001"; VStr "open"; tags_ba] 2%nat).
  - reflexivity.
  - simpl. auto.
  - simpl. auto.
  - reflexivity.
  - simpl. lia.
  - intros [|[|[|j]]] Hj; try reflexivity. congruence.
  - exact tags_ab_equiv_ba.
  - reflexivity.
  - reflexivity.
  - reflexivity.
Defined.

(** The two reordered rows of the example come out as one. *)
Example clean_tickets_reordered_tags_run :
  exists s,
    clean_tickets tickets_reordered_tags
    = Ok (mkDataFrame ["ticket_id"; "status"; "tags"]
            [[VStr "TCK-001"; VStr "open"; VStr s];
             [VStr "TCK-002"; VStr "open"; _safe_serialize (VList [VStr "refund"])]]).
Proof. eexists. reflexivity. Qed.

(** C3 as stated fails: [tags] that hold a [Timestamp] go through the
    fallback, which prints the keys in insertion order, and the two rows stay
    two. *)
Lemma clean_tickets_keeps_reordered_stamped_tags :
  value_equiv stamped_ab stamped_ba
  /\ clean_tickets tickets_stamped_tags
     = Ok (mkDataFrame ["ticket_id"; "tags"]
             [[VStr "TCK-001"; VStr "{'a': Timestamp('2024-01-01 00:00:00'), 'b': 1}"];
              [VStr "TCK-001"; VStr "{'b': 1, 'a': Timestamp('2024-01-01 00:00:00')}"]]).
Proof. split; [exact stamped_ab_equiv_ba | reflexivity]. Qed.
(** ** Reading back what [json.dumps] wrote *)

Lemma string_app_assoc (a b c : string) : (a ++ b) ++ c = a ++ (b ++ c).
Proof. induction a as [|x a IH]; simpl; [reflexivity | now rewrite IH]. Qed.

Lemma string_app_nil_r (a : string) : a ++ "" = a.
Proof. induction a as [|x a IH]; simpl; [reflexivity | now rewrite IH]. Qed.

Lemma string_length_app (a b : string) :
  String.length (a ++ b) = (String.length a + String.length b)%nat.
Proof. induction a as [|x a IH]; simpl; [reflexivity | now rewrite IH]. Qed.

(** *** Strings *)

Lemma scanstring_escape_char (c : ascii) (t s rest : string) :
  scanstring t = Ok (s, rest) ->
  scanstring (json_escape_char c ++ t) = Ok (String c s, rest).
Proof.
  intros H.
  destruct c as [[] [] [] [] [] [] [] []];
    cbn -[scanstring]; simpl; rewrite H; reflexivity.
Qed.

Lemma scanstring_escape (s rest : string) :
  scanstring (json_escape s ++ String dquote rest) = Ok (s, rest).
Proof.
  induction s as [|c s IH]; simpl; [reflexivity|].
  rewrite string_app_assoc. now apply scanstring_escape_char.
Qed.

Lemma scan_once_string (fuel : nat) (s rest : string) :
  scan_once (S fuel) (json_string s ++ rest) = Ok (VStr s, rest).
Proof.
  unfold json_string. simpl. rewrite string_app_assoc. simpl.
  now rewrite scanstring_escape.
Qed.
(** *** Numbers *)

Lemma at_delimiter_cases (rest : string) :
  at_delimiter rest = true ->
  rest = "" \/ exists c r, rest = String c r
                           /\ (c = "," \/ c = "]" \/ c = "}")%char.
Proof.
  destruct rest as [|c r]; simpl; [auto|]. intros H. right. exists c, r. split; trivial.
  apply orb_true_iff in H as [H | H]; [apply orb_true_iff in H as [H | H]|];
    apply Ascii.eqb_eq in H; auto.
Qed.

Ltac delimiter rest H :=
  destruct (at_delimiter_cases rest H) as [-> | (? & ? & -> & [-> | [-> | ->]])].

Lemma span_digits_app (a ds r rest : string) :
  span_digits a = (ds, r) -> at_delimiter rest = true ->
  span_digits (a ++ rest) = (ds, r ++ rest).
Proof.
  intros H Hd. revert ds r H. induction a as [|c a IH]; simpl; intros ds r H.
  - injection H as <- <-. now delimiter rest Hd.
  - destruct (is_digit c).
    + destruct (span_digits a) as [ds' r'] eqn:E. injection H as <- <-.
      now rewrite (IH _ _ eq_refl).
    + now injection H as <- <-.
Qed.

Lemma scan_sign_app (s r rest : string) (neg : bool) :
  scan_sign s = (neg, r) -> at_delimiter rest = true ->
  scan_sign (s ++ rest) = (neg, r ++ rest).
Proof.
  intros H Hd. destruct s as [|c s]; simpl in *.
  - injection H as <- <-. now delimiter rest Hd.
  - destruct (Ascii.eqb c "-"); now injection H as <- <-.
Qed.

Lemma scan_int_app (s ip r rest : string) :
  scan_int s = Some (ip, r) -> at_delimiter rest = true ->
  scan_int (s ++ rest) = Some (ip, r ++ rest).
Proof.
  intros H Hd. destruct s as [|c s]; simpl in *; [discriminate|].
  destruct (Ascii.eqb c "0"); [now injection H as <- <-|].
  destruct (is_digit c); [|discriminate].
  destruct (span_digits s) as [ds r'] eqn:E. injection H as <- <-.
  now rewrite (span_digits_app _ _ _ _ E Hd).
Qed.

Lemma scan_frac_app (s r rest : string) (frac : option string) :
  scan_frac s = (frac, r) -> at_delimiter rest = true ->
  scan_frac (s ++ rest) = (frac, r ++ rest).
Proof.
  intros H Hd. destruct s as [|c s]; simpl in *.
  - injection H as <- <-. now delimiter rest Hd.
  - destruct (Ascii.eqb c "."); [|now injection H as <- <-].
    destruct (span_digits s) as [fd r'] eqn:E.
    rewrite (span_digits_app _ _ _ _ E Hd).
    destruct fd; now injection H as <- <-.
Qed.

Lemma scan_exp_sign_app (s r rest : string) (neg : bool) :
  scan_exp_sign s = (neg, r) -> at_delimiter rest = true ->
  scan_exp_sign (s ++ rest) = (neg, r ++ rest).
Proof.
  intros H Hd. destruct s as [|c s]; simpl in *.
  - injection H as <- <-. now delimiter rest Hd.
  - destruct (Ascii.eqb c "-"); [now injection H as <- <-|].
    destruct (Ascii.eqb c "+"); now injection H as <- <-.
Qed.

Lemma scan_exp_app (s r rest : string) (expo : option Z) :
  scan_exp s = (expo, r) -> at_delimiter rest = true ->
  scan_exp (s ++ rest) = (expo, r ++ rest).
Proof.
  intros H Hd. destruct s as [|c s]; cbn [scan_exp append] in *.
  - injection H as <- <-. now delimiter rest Hd.
  - destruct (Ascii.eqb c "e" || Ascii.eqb c "E"); [|now injection H as <- <-].
    destruct (scan_exp_sign s) as [eneg r1] eqn:E1.
    rewrite (scan_exp_sign_app _ _ _ _ E1 Hd).
    destruct (span_digits r1) as [ed r'] eqn:E.
    rewrite (span_digits_app _ _ _ _ E Hd).
    destruct ed; now injection H as <- <-.
Qed.

(** A number read from a text is read the same, with the same text left,
    when a delimiter and more follow. *)
Lemma scan_number_app (s r rest : string) (v : value) :
  scan_number s = Some (v, r) -> at_delimiter rest = true ->
  scan_number (s ++ rest) = Some (v, r ++ rest).
Proof.
  unfold scan_number. intros H Hd.
  destruct (scan_sign s) as [neg s1] eqn:E1.
  rewrite (scan_sign_app _ _ _ _ E1 Hd).
  destruct (scan_int s1) as [[ip s2]|] eqn:E2; [|discriminate].
  rewrite (scan_int_app _ _ _ _ E2 Hd).
  destruct (scan_frac s2) as [frac s3] eqn:E3.
  rewrite (scan_frac_app _ _ _ _ E3 Hd).
  destruct (scan_exp s3) as [expo s4] eqn:E4.
  rewrite (scan_exp_app _ _ _ _ E4 Hd).
  destruct frac, expo; cbv beta iota zeta in H |- *; now injection H as <- <-.
Qed.

Lemma scan_number_starts (s : string) (p : value * string) :
  scan_number s = Some p ->
  exists c r, s = String c r /\ (Ascii.eqb c "-" || is_digit c = true).
Proof.
  unfold scan_number. destruct s as [|c s]; simpl; [discriminate|].
  destruct (Ascii.eqb c "-") eqn:E.
  { intros _. exists c, s. now rewrite E. }
  simpl. destruct (Ascii.eqb c "0") eqn:E0.
  - apply Ascii.eqb_eq in E0. subst. intros _. now exists "0"%char, s.
  - destruct (is_digit c) eqn:Ed; [|simpl; discriminate].
    intros _. exists c, s. now rewrite E, Ed.
Qed.

(** A text that starts a number starts nothing else [scan_once] looks for
    before numbers. *)
Lemma scan_once_number (fuel : nat) (s r : string) (v : value) :
  scan_number s = Some (v, r) -> scan_once (S fuel) s = Ok (v, r).
Proof.
  intros H. destruct (scan_number_starts _ _ H) as (c & t & -> & Hc).
  cbn [scan_once]. rewrite H.
  destruct c as [[] [] [] [] [] [] [] []]; try discriminate Hc; reflexivity.
Qed.

Lemma span_digits_uint (u : Decimal.uint) :
  span_digits (DecimalString.NilEmpty.string_of_uint u)
  = (DecimalString.NilEmpty.string_of_uint u, "").
Proof. induction u; simpl; try rewrite IHu; reflexivity. Qed.

Lemma nzhead_head (u : Decimal.uint) :
  match Decimal.nzhead u with Decimal.D0 _ => False | _ => True end.
Proof. induction u; simpl; trivial. Qed.

Lemma to_uint_head (p : positive) :
  match Pos.to_uint p with Decimal.Nil | Decimal.D0 _ => False | _ => True end.
Proof.
  pose proof (DecimalPos.Unsigned.to_of (Pos.to_uint p)) as H.
  rewrite DecimalPos.Unsigned.of_to in H. simpl in H.
  pose proof (DecimalPos.Unsigned.to_uint_nonnil p) as Hn.
  pose proof (DecimalPos.Unsigned.to_uint_nonzero p) as Hz.
  pose proof (nzhead_head (Pos.to_uint p)) as Hh.
  unfold Decimal.unorm in H.
  destruct (Decimal.nzhead (Pos.to_uint p)) eqn:E; rewrite H in *; try congruence; trivial.
Qed.

Lemma Z_of_digits_pos (p : positive) :
  Z_of_digits (DecimalString.NilEmpty.string_of_uint (Pos.to_uint p)) = Z.pos p.
Proof.
  unfold Z_of_digits. rewrite DecimalString.NilEmpty.usu.
  unfold Z.of_uint. now rewrite DecimalPos.Unsigned.of_to.
Qed.

Lemma scan_number_digits (p : positive) (neg : bool) :
  scan_number ((if neg then "-" else "")
               ++ DecimalString.NilEmpty.string_of_uint (Pos.to_uint p))
  = Some (VInt (if neg then Z.neg p else Z.pos p), "").
Proof.
  pose proof (to_uint_head p) as Hh. pose proof (Z_of_digits_pos p) as Hz.
  assert (Hs : scan_sign ((if neg then "-" else "")
                          ++ DecimalString.NilEmpty.string_of_uint (Pos.to_uint p))
               = (neg, DecimalString.NilEmpty.string_of_uint (Pos.to_uint p))).
  { destruct neg; [reflexivity|]. simpl.
    destruct (Pos.to_uint p); try contradiction; reflexivity. }
  unfold scan_number. rewrite Hs.
  assert (Hi : scan_int (DecimalString.NilEmpty.string_of_uint (Pos.to_uint p))
               = Some (DecimalString.NilEmpty.string_of_uint (Pos.to_uint p), "")).
  { destruct (Pos.to_uint p) as [|u|u|u|u|u|u|u|u|u|u]; try contradiction;
      simpl; now rewrite span_digits_uint. }
  rewrite Hi. simpl. rewrite Hz. now destruct neg.
Qed.

Lemma int_str_signed (p : positive) (neg : bool) :
  int_str (if neg then Z.neg p else Z.pos p)
  = (if neg then "-" else "") ++ DecimalString.NilEmpty.string_of_uint (Pos.to_uint p).
Proof.
  pose proof (DecimalPos.Unsigned.to_uint_nonnil p) as Hn.
  unfold int_str. destruct neg; simpl;
    unfold DecimalString.NilZero.string_of_uint;
    destruct (Pos.to_uint p); congruence.
Qed.

Lemma scan_number_int (z : Z) : scan_number (int_str z) = Some (VInt z, "").
Proof.
  destruct z as [|p|p]; [reflexivity | |].
  - rewrite (int_str_signed p false). apply (scan_number_digits p false).
  - rewrite (int_str_signed p true). apply (scan_number_digits p true).
Qed.

Lemma float_same_eq (f g : spec_float) : float_same f g = true -> f = g.
Proof.
  destruct f as [s|s| |s m e], g as [t|t| |t n d]; simpl; try discriminate; trivial.
  - intros H. apply Bool.eqb_prop in H. now subst.
  - intros H. apply Bool.eqb_prop in H. now subst.
  - intros H. apply andb_true_iff in H as [H He]. apply andb_true_iff in H as [Hs Hm].
    apply Bool.eqb_prop in Hs. apply Pos.eqb_eq in Hm. apply Z.eqb_eq in He. now subst.
Qed.

Lemma scan_once_float (fuel : nat) (f : spec_float) (rest : string) :
  float_readable f = true -> at_delimiter rest = true ->
  scan_once (S fuel) (json_float f ++ rest) = Ok (VFloat f, rest).
Proof.
  intros Hf Hd. destruct f as [s|s| |s m e].
  - unfold float_readable in Hf.
    destruct (scan_number (float_repr (S754_zero s))) as [[[] []]|] eqn:E; try discriminate.
    apply float_same_eq in Hf. subst.
    apply scan_once_number. apply (scan_number_app _ _ _ _ E Hd).
  - destruct s; reflexivity.
  - reflexivity.
  - unfold float_readable in Hf.
    destruct (scan_number (float_repr (S754_finite s m e))) as [[[] []]|] eqn:E;
      try discriminate.
    apply float_same_eq in Hf. subst.
    apply scan_once_number. apply (scan_number_app _ _ _ _ E Hd).
Qed.

Lemma scan_once_int (fuel : nat) (z : Z) (rest : string) :
  at_delimiter rest = true ->
  scan_once (S fuel) (int_str z ++ rest) = Ok (VInt z, rest).
Proof.
  intros Hd. apply scan_once_number.
  apply (scan_number_app _ _ _ _ (scan_number_int z) Hd).
Qed.
(** *** Lists and dicts *)

Lemma skip_ws_start (s : string) : value_start s = true -> skip_ws s = s.
Proof.
  destruct s as [|c s]; simpl; [discriminate|].
  intros H. apply andb_true_iff in H as [H _]. apply negb_true_iff in H. now rewrite H.
Qed.

Lemma value_start_app (s t : string) : value_start s = true -> value_start (s ++ t) = true.
Proof. destruct s; [discriminate | trivial]. Qed.

Lemma number_start (s : string) (p : value * string) :
  scan_number s = Some p -> value_start s = true.
Proof.
  intros H. destruct (scan_number_starts _ _ H) as (c & r & -> & Hc).
  destruct c as [[] [] [] [] [] [] [] []]; try discriminate Hc; reflexivity.
Qed.

Lemma json_render_start (v : value) (s : string) :
  floats_readable v = true -> json_render v = Ok s -> value_start s = true.
Proof.
  destruct v as [| | b | z | f | t | t | l | d]; simpl; intros Hf; try discriminate.
  - now intros [= <-].
  - intros [= <-]. now destruct b.
  - intros [= <-]. eapply number_start, scan_number_int.
  - intros [= <-]. destruct f as [sg|sg| |sg m e]; simpl in *.
    + destruct (scan_number _) eqn:E; [|discriminate]. eapply number_start, E.
    + now destruct sg.
    + reflexivity.
    + destruct (scan_number _) eqn:E; [|discriminate]. eapply number_start, E.
  - now intros [= <-].
  - destruct (mapM json_render l); simpl; [|discriminate]. now intros [= <-].
  - destruct (json_items _); simpl; [|discriminate]. now intros [= <-].
Qed.

Lemma join_cons (sep x : string) (l : list string) :
  join sep (x :: l) = x ++ match l with [] => "" | _ => sep ++ join sep l end.
Proof. destruct l; simpl; [now rewrite string_app_nil_r | reflexivity]. Qed.

Lemma array_items_last (fuel : nat) (s r : string) (acc : list value) (v : value) :
  scan_once fuel s = Ok (v, String "]" r) ->
  array_items (S fuel) s acc = Ok (List.rev (v :: acc), r).
Proof. intros H. cbn [array_items]. rewrite H. reflexivity. Qed.

Lemma array_items_more (fuel : nat) (s r : string) (acc : list value) (v : value) :
  scan_once fuel s = Ok (v, String "," (String " " r)) ->
  value_start r = true ->
  array_items (S fuel) s acc = array_items fuel r (v :: acc).
Proof.
  intros H Hr. cbn [array_items]. rewrite H. cbn [bind fst snd].
  change (skip_ws (String "," (String " " r))) with (String "," (String " " r)).
  cbv beta iota.
  change (Ascii.eqb "," "]") with false. change (Ascii.eqb "," ",") with true.
  cbv beta iota.
  change (skip_ws (String " " r)) with (skip_ws r).
  now rewrite (skip_ws_start _ Hr).
Qed.

Lemma array_items_render (l : list value) :
  Forall parses_back l ->
  Forall (fun v => floats_readable v = true) l ->
  forall (items : list string) (acc : list value) (fuel : nat) (rest : string),
    mapM json_render l = Ok items ->
    l <> [] ->
    (String.length (join ", " items) + 1 < fuel)%nat ->
    array_items fuel (join ", " items ++ String "]" rest) acc
    = Ok ((List.rev acc ++ l)%list, rest).
Proof.
  induction 1 as [|x l Hx Hl IH]; intros Hf items acc fuel rest Hm Hne Hlen; [congruence|].
  inversion Hf as [|? ? Hfx Hfl]; subst.
  simpl in Hm. destruct (json_render x) as [sx|] eqn:Ex; simpl in Hm; [|discriminate].
  destruct (mapM json_render l) as [items'|] eqn:El; simpl in Hm; [|discriminate].
  injection Hm as <-.
  destruct fuel as [|fuel]; [lia|].
  rewrite join_cons in Hlen |- *. rewrite string_length_app in Hlen.
  rewrite string_app_assoc.
  destruct l as [|y l].
  - simpl in El. injection El as <-.
    change ("" ++ String "]" rest) with (String "]" rest).
    apply array_items_last. apply (Hx sx fuel _ Ex); [simpl in *; lia | reflexivity].
  - assert (Hst : exists sy items'', items' = sy :: items''
                                     /\ value_start (join ", " items') = true).
    { simpl in El. destruct (json_render y) as [sy|] eqn:Ey; simpl in El; [|discriminate].
      destruct (mapM json_render l); simpl in El; [|discriminate]. injection El as <-.
      eexists _, _. split; [reflexivity|]. rewrite join_cons. apply value_start_app.
      inversion Hfl; subst. eapply json_render_start; eassumption. }
    destruct Hst as (sy & items'' & -> & Hst).
    specialize (IH Hfl (sy :: items'') (x :: acc) fuel rest eq_refl).
    remember (join ", " (sy :: items'')) as J eqn:HJ.
    rewrite string_length_app in Hlen.
    change ((", " ++ J) ++ String "]" rest)
      with (String "," (String " " (J ++ String "]" rest))).
    rewrite (array_items_more fuel _ (J ++ String "]" rest) acc x).
    + rewrite IH by (try discriminate; simpl in *; lia).
      simpl. now rewrite <- app_assoc.
    + apply (Hx sx fuel _ Ex); [simpl in *; lia | reflexivity].
    + now apply value_start_app.
Qed.

Lemma object_items_last (fuel : nat) (s t r : string) (acc : list (string * value))
    (k : string) (v : value) :
  scanstring s = Ok (k, String ":" (String " " t)) ->
  value_start t = true ->
  scan_once fuel t = Ok (v, String "}" r) ->
  object_items (S fuel) s acc = Ok (List.rev ((k, v) :: acc), r).
Proof.
  intros Hk Ht Hv. cbn [object_items]. rewrite Hk. cbn [bind fst snd].
  change (skip_ws (String ":" (String " " t))) with (String ":" (String " " t)).
  cbv beta iota.
  change (skip_ws (String " " t)) with (skip_ws t).
  rewrite (skip_ws_start _ Ht), Hv. reflexivity.
Qed.

Lemma object_items_more (fuel : nat) (s t r : string) (acc : list (string * value))
    (k : string) (v : value) :
  scanstring s = Ok (k, String ":" (String " " t)) ->
  value_start t = true ->
  scan_once fuel t = Ok (v, String "," (String " " (String dquote r))) ->
  object_items (S fuel) s acc = object_items fuel r ((k, v) :: acc).
Proof.
  intros Hk Ht Hv. cbn [object_items]. rewrite Hk. cbn [bind fst snd].
  change (skip_ws (String ":" (String " " t))) with (String ":" (String " " t)).
  cbv beta iota.
  change (skip_ws (String " " t)) with (skip_ws t).
  rewrite (skip_ws_start _ Ht), Hv. reflexivity.
Qed.

Lemma json_string_app (k t : string) :
  json_string k ++ t = String dquote (json_escape k ++ String dquote t).
Proof. unfold json_string. simpl. now rewrite string_app_assoc. Qed.

Lemma length_json_string (k : string) : (1 < String.length (json_string k))%nat.
Proof. unfold json_string. simpl. rewrite string_length_app. simpl. lia. Qed.

Lemma object_items_render (d : list (string * value)) :
  Forall (fun kv => parses_back (snd kv)) d ->
  Forall (fun kv => floats_readable (snd kv) = true) d ->
  forall (items : list string) (acc : list (string * value)) (fuel : nat) (rest : string),
    json_items (map (fun kv => (fst kv, json_render (snd kv))) d) = Ok items ->
    d <> [] ->
    (String.length (join ", " items) + 1 < fuel)%nat ->
    exists body,
      join ", " items = String dquote body
      /\ object_items fuel (body ++ String "}" rest) acc
         = Ok ((List.rev acc ++ d)%list, rest).
Proof.
  induction 1 as [|[k x] d Hx Hd IH]; intros Hf items acc fuel rest Hm Hne Hlen; [congruence|].
  inversion Hf as [|? ? Hfx Hfd]; subst. simpl in Hx, Hfx.
  simpl in Hm. destruct (json_render x) as [sx|] eqn:Ex; simpl in Hm; [|discriminate].
  destruct (json_items _) as [items'|] eqn:Ed; simpl in Hm; [|discriminate].
  injection Hm as <-.
  destruct fuel as [|fuel]; [lia|].
  pose proof (json_render_start _ _ Hfx Ex) as Hsx.
  pose proof (length_json_string k) as Hk.
  assert (Hitem : (String.length sx + 4 <= String.length (json_string k ++ ": " ++ sx))%nat).
  { rewrite !string_length_app. change (String.length ": ") with 2%nat. lia. }
  rewrite join_cons in Hlen. rewrite (string_length_app (json_string k ++ ": " ++ sx)) in Hlen.
  remember (String.length (json_string k ++ ": " ++ sx)) as n eqn:En. clear En.
  assert (Hjoin : forall tail,
             (json_string k ++ ": " ++ sx) ++ tail
             = String dquote (json_escape k
                                ++ String dquote (String ":" (String " " (sx ++ tail))))).
  { intros tail. rewrite !string_app_assoc, json_string_app. reflexivity. }
  rewrite join_cons, Hjoin.
  eexists. split; [reflexivity|].
  rewrite !string_app_assoc. cbn [append]. rewrite !string_app_assoc.
  destruct d as [|[k' y] d].
  - simpl in Ed. injection Ed as <-.
    change ("" ++ String "}" rest) with (String "}" rest).
    eapply object_items_last.
    + apply scanstring_escape.
    + now apply value_start_app.
    + apply (Hx sx fuel _ Ex); [lia | reflexivity].
  - assert (Hi : items' <> []).
    { simpl in Ed. destruct (json_render y); simpl in Ed; [|discriminate].
      destruct (json_items _); simpl in Ed; [|discriminate]. now injection Ed as <-. }
    destruct (IH Hfd items' ((k, x) :: acc) fuel rest eq_refl) as (body & HJ & Hrun).
    { discriminate. }
    { destruct items'; [congruence|]. rewrite string_length_app in Hlen.
      change (String.length ", ") with 2%nat in Hlen. lia. }
    destruct items' as [|sy items'']; [congruence|].
    rewrite HJ in *.
    change ((", " ++ String dquote body) ++ String "}" rest)
      with (String "," (String " " (String dquote (body ++ String "}" rest)))).
    rewrite (object_items_more fuel _
               (sx ++ String "," (String " " (String dquote (body ++ String "}" rest))))
               (body ++ String "}" rest) acc k x).
    + rewrite Hrun. simpl. now rewrite <- app_assoc.
    + apply scanstring_escape.
    + now apply value_start_app.
    + apply (Hx sx fuel _ Ex); [lia | reflexivity].
Qed.
Lemma dict_set_fresh (k : string) (v : value) (d : list (string * value)) :
  ~ In k (map fst d) -> dict_set k v d = (d ++ [(k, v)])%list.
Proof.
  induction d as [|[k' v'] d IH]; simpl; intros Hk; [reflexivity|].
  destruct (String.eqb_spec k k') as [-> | Hne]; [tauto|].
  rewrite IH by tauto. reflexivity.
Qed.

Lemma dict_of_pairs_app (pairs acc : list (string * value)) :
  NoDup (map fst (acc ++ pairs)%list) ->
  fold_left (fun d kv => dict_set (fst kv) (snd kv) d) pairs acc = (acc ++ pairs)%list.
Proof.
  revert acc. induction pairs as [|[k v] pairs IH]; simpl; intros acc Hnd.
  - now rewrite app_nil_r.
  - rewrite dict_set_fresh.
    + rewrite IH; rewrite <- app_assoc; [reflexivity | exact Hnd].
    + rewrite map_app in Hnd. simpl in Hnd. apply NoDup_remove_2 in Hnd.
      intros Hin. apply Hnd. apply in_or_app. now left.
Qed.

Lemma dict_of_pairs_distinct (d : list (string * value)) :
  distinct (map fst d) = true -> dict_of_pairs d = d.
Proof.
  intros H. apply distinct_NoDup in H. unfold dict_of_pairs.
  now rewrite dict_of_pairs_app.
Qed.

(** [scan_once] reads the JSON text of a value back as that value, when the
    dicts in it have distinct keys and its floats print readably. *)
Lemma render_parses_back (v : value) :
  floats_readable v = true -> distinct_keys v = true -> parses_back v.
Proof.
  induction v as [| | b | z | f | t | t | l IH | d IH] using value_ind;
    intros Hf Hd s fuel rest Hs Hlen Hrest; simpl in Hs; try discriminate;
    (destruct fuel as [|fuel]; [lia|]).
  - injection Hs as <-. reflexivity.
  - injection Hs as <-. now destruct b.
  - injection Hs as <-. now apply scan_once_int.
  - injection Hs as <-. now apply scan_once_float.
  - injection Hs as <-. apply scan_once_string.
  - destruct (mapM json_render l) as [items|] eqn:El; simpl in Hs; [|discriminate].
    injection Hs as <-. simpl in Hf, Hd.
    apply forallb_Forall in Hf, Hd.
    assert (Hpb : Forall parses_back l).
    { apply Forall_forall. intros x Hx. rewrite Forall_forall in IH, Hf, Hd. auto. }
    destruct l as [|x l].
    + simpl in El. injection El as <-. reflexivity.
    + assert (Hst : value_start (join ", " items) = true).
      { simpl in El. destruct (json_render x) as [sx|] eqn:Ex; simpl in El; [|discriminate].
        destruct (mapM json_render l); simpl in El; [|discriminate]. injection El as <-.
        rewrite join_cons. apply value_start_app.
        inversion Hf; subst. eapply json_render_start; eassumption. }
      pose proof (array_items_render (x :: l) Hpb Hf items [] fuel rest El) as Hrun.
      remember (join ", " items) as J eqn:EJ.
      cbn [append]. rewrite string_app_assoc. cbn [append].
      assert (HJ : exists c r, J ++ String "]" rest = String c r
                               /\ is_ws c = false /\ Ascii.eqb c "]" = false).
      { destruct J as [|c r]; [discriminate|]. simpl in Hst.
        apply andb_true_iff in Hst as [H1 H2]. apply negb_true_iff in H1, H2.
        exists c, (r ++ String "]" rest). auto. }
      destruct HJ as (c & r & HJ & Hc1 & Hc2).
      cbn [scan_once]. change (Ascii.eqb "[" dquote) with false.
      change (Ascii.eqb "[" "{") with false. change (Ascii.eqb "[" "[") with true.
      cbv beta iota. rewrite HJ. cbn [skip_ws]. rewrite Hc1, Hc2.
      rewrite <- HJ, Hrun; [reflexivity | discriminate |].
      simpl in Hlen. rewrite string_length_app in Hlen. simpl in Hlen. lia.
  - destruct (json_items _) as [items|] eqn:El; simpl in Hs; [|discriminate].
    injection Hs as <-. simpl in Hf, Hd.
    apply andb_true_iff in Hd as [Hk Hd].
    apply forallb_Forall in Hf, Hd.
    assert (Hpb : Forall (fun kv => parses_back (snd kv)) d).
    { apply Forall_forall. intros x Hx. rewrite Forall_forall in IH, Hf, Hd. auto. }
    destruct d as [|kv d].
    + simpl in El. injection El as <-. reflexivity.
    + destruct (object_items_render (kv :: d) Hpb Hf items [] fuel rest El)
        as (body & HJ & Hrun).
      { discriminate. }
      { simpl in Hlen. rewrite string_length_app in Hlen. simpl in Hlen. lia. }
      rewrite HJ. cbn [append]. rewrite string_app_assoc. cbn [append].
      cbn [scan_once]. change (Ascii.eqb "{" dquote) with false.
      change (Ascii.eqb "{" "{") with true. cbv beta iota.
      change (skip_ws (String dquote ?t)) with (String dquote t).
      cbv beta iota. change (Ascii.eqb dquote "}") with false.
      change (Ascii.eqb dquote dquote) with true. cbv beta iota.
      rewrite Hrun. simpl. now rewrite dict_of_pairs_distinct.
Qed.
Lemma json_loads_render (v : value) (s : string) :
  floats_readable v = true -> distinct_keys v = true ->
  json_render v = Ok s -> json_loads s = Ok v.
Proof.
  intros Hf Hd Hs. unfold json_loads.
  rewrite (skip_ws_start _ (json_render_start _ _ Hf Hs)).
  pose proof (render_parses_back v Hf Hd s (S (String.length s)) "" Hs) as H.
  rewrite string_app_nil_r in H. rewrite H by (lia || reflexivity). reflexivity.
Qed.

Lemma canon_floats_readable (v : value) :
  floats_readable (canon v) = floats_readable v.
Proof.
  induction v as [| | b | z | f | s | t | l IH | d IH] using value_ind;
    try reflexivity; simpl.
  - rewrite forallb_map. induction IH as [|x l Hx _ IHl]; simpl; [reflexivity|].
    now rewrite Hx, IHl.
  - rewrite <- (forallb_perm _ _ _ (sort_items_perm _)), forallb_map. simpl.
    induction IH as [|x l Hx _ IHl]; simpl; [reflexivity|].
    now rewrite Hx, IHl.
Qed.

Lemma increasing_distinct (l : list string) : increasing l = true -> distinct l = true.
Proof.
  intros H. apply distinct_NoDup.
  assert (Hall : forall x r, increasing (x :: r) = true ->
                             Forall (fun y => String.ltb x y = true) r).
  { intros x r. revert x. induction r as [|y r IHr]; intros x Hx; [constructor|].
    simpl in Hx. apply andb_true_iff in Hx as [Hxy Hr].
    constructor; [assumption|].
    eapply Forall_impl; [|apply (IHr y Hr)]. simpl. intros z Hz.
    unfold String.ltb in *. destruct (String.compare x y) eqn:E1; try discriminate.
    destruct (String.compare y z) eqn:E2; try discriminate.
    now rewrite (string_lt_trans _ _ _ E1 E2). }
  induction l as [|x l IH]; [constructor|].
  constructor.
  - intros Hin. specialize (Hall x l H). rewrite Forall_forall in Hall.
    specialize (Hall x Hin). unfold String.ltb in Hall.
    now rewrite string_compare_refl in Hall.
  - apply IH. destruct l; [reflexivity|]. simpl in H.
    now apply andb_true_iff in H as [_ H].
Qed.

Lemma keys_sorted_distinct (v : value) : keys_sorted v = true -> distinct_keys v = true.
Proof.
  induction v as [| | b | z | f | s | t | l IH | d IH] using value_ind;
    try reflexivity; simpl; intros H.
  - apply forallb_forall. intros x Hx. rewrite Forall_forall in IH.
    rewrite forallb_forall in H. auto.
  - apply andb_true_iff in H as [Hk H]. apply andb_true_iff. split.
    + now apply increasing_distinct.
    + apply forallb_forall. intros x Hx. rewrite Forall_forall in IH.
      rewrite forallb_forall in H. auto.
Qed.



(** The float of the example is 1.5, and the text is the dict in key order. *)
Example tagged_order_text :
  json_dumps tagged_order
  = Ok ("{" ++ json_string "count" ++ ": -3, "
            ++ json_string "priority" ++ ": " ++ json_string "high" ++ ", "
            ++ json_string "tags" ++ ": [" ++ json_string "order" ++ ", "
            ++ json_string "delivery" ++ "], "
            ++ json_string "weight" ++ ": 1.5}").
Proof. reflexivity. Qed.

(** ** [create_tickets_per_order] *)

Lemma Timestamp_eqb_eq (a b : Timestamp) : Timestamp_eqb a b = true <-> a = b.
Proof.
  split; [|intros ->; apply Timestamp_eqb_refl].
  destruct a, b. unfold Timestamp_eqb. simpl. intros H.
  repeat (apply andb_true_iff in H as [H ?]).
  repeat match goal with H : (_ =? _) = true |- _ => apply Z.eqb_eq in H end.
  now subst.
Qed.

Lemma cell_eqb_plain (a b : value) :
  plain_key a = true -> plain_key b = true -> (cell_eqb a b = true <-> a = b).
Proof.
  destruct a, b; simpl; try discriminate; intros _ _; unfold cell_eqb; simpl.
  - rewrite Z.eqb_eq. split; congruence.
  - split; discriminate.
  - split; discriminate.
  - split; discriminate.
  - rewrite String.eqb_eq. split; congruence.
  - split; discriminate.
  - split; discriminate.
  - split; discriminate.
  - rewrite Timestamp_eqb_eq. split; congruence.
Qed.

Lemma plain_key_hashable v : plain_key v = true -> hashable v = true.
Proof. now destruct v. Qed.

Lemma plain_key_notna v : plain_key v = true -> isna v = false.
Proof. now destruct v. Qed.

(** *** Column labels of the merged table *)

Lemma index_of_app_r (c : string) (l1 l2 : list string) :
  ~ In c l1 ->
  index_of c (l1 ++ l2)%list
  = match index_of c l2 with Some j => Some (List.length l1 + j)%nat | None => None end.
Proof.
  induction l1 as [|x l1 IH]; simpl; intros Hc.
  - now destruct (index_of c l2).
  - destruct (String.eqb_spec c x) as [-> | Hne]; [tauto|].
    rewrite IH by tauto. now destruct (index_of c l2).
Qed.

Lemma index_of_app_l (c : string) (l1 l2 : list string) (i : nat) :
  index_of c l1 = Some i -> index_of c (l1 ++ l2)%list = Some i.
Proof.
  revert i. induction l1 as [|x l1 IH]; simpl; intros i; [discriminate|].
  destruct (String.eqb c x); [trivial|].
  destruct (index_of c l1); [|discriminate]. intros [= <-]. now rewrite (IH _ eq_refl).
Qed.

Lemma index_of_map (f : string -> string) (c : string) (l : list string) :
  (forall x, In x l -> (f x = c <-> x = c)) ->
  index_of c (map f l) = index_of c l.
Proof.
  induction l as [|x l IH]; simpl; intros H; [reflexivity|].
  rewrite IH by auto.
  destruct (String.eqb_spec c x) as [-> | Hne].
  - rewrite (proj2 (H x (or_introl eq_refl)) eq_refl). now rewrite String.eqb_refl.
  - destruct (String.eqb_spec c (f x)) as [Heq | _]; [|reflexivity].
    exfalso. apply Hne. symmetry. apply (H x); auto.
Qed.

Lemma index_of_In (c : string) (l : list string) :
  In c l <-> exists i, index_of c l = Some i.
Proof.
  induction l as [|x l IH]; simpl.
  - split; [tauto | intros [i H]; discriminate].
  - destruct (String.eqb_spec c x) as [-> | Hne].
    + split; eauto.
    + rewrite IH. split.
      * intros [H | [i H]]; [congruence|]. rewrite H. eauto.
      * intros [i H]. right. destruct (index_of c l); [eauto | discriminate].
Qed.

Lemma suffix_x_not_order_id (c : string) : c ++ "_x" <> "order_id".
Proof.
  intros H.
  repeat (destruct c as [|? c];
          [discriminate H | first [discriminate H | injection H as _ H]]).
Qed.

Lemma suffix_x_not_ticket_id (c : string) : c ++ "_x" <> "ticket_id".
Proof.
  intros H.
  repeat (destruct c as [|? c];
          [discriminate H | first [discriminate H | injection H as _ H]]).
Qed.

Lemma suffix_y_not_ticket_id (c : string) : c ++ "_y" <> "ticket_id".
Proof.
  intros H.
  repeat (destruct c as [|? c];
          [discriminate H | first [discriminate H | injection H as _ H]]).
Qed.
Lemma merge_columns_key (ri oi : nat) (lcols rcols : list string) :
  index_of "order_id" lcols = Some oi ->
  index_of "order_id" (merge_columns "order_id" ri lcols rcols) = Some oi.
Proof.
  intros H. unfold merge_columns. apply index_of_app_l.
  rewrite index_of_map; [assumption|].
  intros x _. destruct (String.eqb_spec x "order_id") as [-> | Hne]; simpl; [tauto|].
  destruct (existsb _ _); [|tauto].
  split; [intros Hx; now apply suffix_x_not_order_id in Hx | tauto].
Qed.

Lemma merge_columns_ticket_id (ri j : nat) (lcols rcols : list string) :
  ~ In "ticket_id" lcols ->
  index_of "ticket_id" (remove_nth ri rcols) = Some j ->
  index_of "ticket_id" (merge_columns "order_id" ri lcols rcols)
  = Some (List.length lcols + j)%nat.
Proof.
  intros Hl Hr. unfold merge_columns. rewrite index_of_app_r.
  - rewrite index_of_map, Hr, length_map; [reflexivity|].
    intros x _. destruct (existsb (String.eqb x) lcols) eqn:E; [|tauto].
    split; [intros Hx; now apply suffix_y_not_ticket_id in Hx|].
    intros ->. exfalso. apply Hl. apply existsb_exists in E as (y & Hy & He).
    apply String.eqb_eq in He. now subst.
  - intros Hin. apply in_map_iff in Hin as (x & Hx & Hin).
    destruct (_ && _) in Hx.
    + now apply suffix_x_not_ticket_id in Hx.
    + now subst.
Qed.

Lemma index_of_remove_nth (c k : string) (l : list string) (i ri : nat) :
  index_of c l = Some i -> index_of k l = Some ri -> c <> k ->
  index_of c (remove_nth ri l) = Some (shift ri i) /\ i <> ri.
Proof.
  intros Hc Hk Hne. revert i ri Hc Hk. induction l as [|x l IH]; simpl; intros i ri; [discriminate|].
  destruct (String.eqb_spec c x) as [-> | Hcx], (String.eqb_spec k x) as [-> | Hkx].
  - congruence.
  - intros [= <-]. destruct (index_of k l); [|discriminate]. intros [= <-].
    simpl. rewrite String.eqb_refl. split; [reflexivity | discriminate].
  - destruct (index_of c l) as [i'|] eqn:Ei; [|discriminate].
    intros [= <-] [= <-]. simpl. split; [|discriminate].
    unfold shift. simpl. exact Ei.
  - destruct (index_of c l) as [i'|] eqn:Ei; [|discriminate].
    destruct (index_of k l) as [ri'|] eqn:Er; [|discriminate].
    intros [= <-] [= <-]. destruct (IH i' ri' eq_refl eq_refl) as [H1 H2].
    simpl. destruct (String.eqb_spec c x); [congruence|]. rewrite H1.
    split; [|congruence]. f_equal. unfold shift.
    change (S i' <? S ri')%nat with (i' <? ri')%nat.
    destruct (Nat.ltb_spec i' ri'); [reflexivity|]. simpl. lia.
Qed.

Lemma cell_remove_nth (r : list value) (i ri : nat) :
  i <> ri -> cell (shift ri i) (remove_nth ri r) = cell i r.
Proof.
  unfold cell. revert i ri. induction r as [|x r IH]; intros i ri Hne.
  - assert (Hnil : remove_nth ri (@nil value) = []) by now destruct ri.
    rewrite Hnil. now destruct (shift ri i), i.
  - destruct ri as [|ri].
    + destruct i as [|i]; [congruence|]. reflexivity.
    + destruct i as [|i]; [reflexivity|].
      simpl remove_nth. unfold shift.
      change (S i <? S ri)%nat with (i <? ri)%nat.
      assert (Hi : i <> ri) by congruence. specialize (IH i ri Hi). unfold shift in IH.
      destruct (Nat.ltb_spec i ri).
      * simpl. exact IH.
      * simpl pred in *. destruct i as [|i]; [lia|]. simpl in *. exact IH.
Qed.

Lemma cell_app_l (i : nat) (l r : list value) :
  (i < List.length l)%nat -> cell i (l ++ r)%list = cell i l.
Proof. intros H. unfold cell. now apply app_nth1. Qed.

Lemma cell_app_r (j : nat) (l r : list value) :
  cell (List.length l + j) (l ++ r)%list = cell j r.
Proof.
  unfold cell. rewrite app_nth2 by lia. f_equal. lia.
Qed.
Lemma insert_sorted_perm (x : value) (l : list value) :
  Permutation (x :: l) (insert_sorted x l).
Proof.
  induction l as [|y l IH]; simpl; [reflexivity|].
  destruct (value_leb x y); [reflexivity|].
  rewrite perm_swap. now apply perm_skip.
Qed.

Lemma sort_values_perm (l : list value) : Permutation l (sort_values l).
Proof.
  induction l as [|x l IH]; simpl; [reflexivity|].
  rewrite <- insert_sorted_perm. now apply perm_skip.
Qed.

Lemma existsb_cell_eqb_plain (x : value) (seen : list value) :
  plain_key x = true -> Forall (fun y => plain_key y = true) seen ->
  (existsb (cell_eqb x) seen = true <-> In x seen).
Proof.
  intros Hx Hs. rewrite existsb_exists. rewrite Forall_forall in Hs. split.
  - intros (y & Hy & He). apply cell_eqb_plain in He; auto. now subst.
  - intros Hin. exists x. split; [assumption|]. apply cell_eqb_plain; auto.
Qed.

Lemma uniques_plain (l seen : list value) :
  Forall (fun y => plain_key y = true) l ->
  Forall (fun y => plain_key y = true) seen ->
  NoDup (uniques seen l)
  /\ (forall k, In k (uniques seen l) <-> In k l /\ ~ In k seen).
Proof.
  intros Hl. revert seen. induction Hl as [|x l Hx Hl IH]; intros seen Hs; simpl.
  - split; [constructor | tauto].
  - pose proof (existsb_cell_eqb_plain x seen Hx Hs) as Hex.
    destruct (existsb (cell_eqb x) seen) eqn:E.
    + destruct (IH seen Hs) as [Hnd Hin]. split; [assumption|].
      intros k. rewrite Hin. split; [tauto|].
      intros [[-> | Hk] Hn]; [|tauto]. exfalso. apply Hn. now apply Hex.
    + assert (Hnx : ~ In x seen) by (intros Hin; apply Hex in Hin; congruence).
      destruct (IH (x :: seen) (Forall_cons _ Hx Hs)) as [Hnd Hin]. split.
      * constructor; [|assumption]. rewrite Hin. simpl. tauto.
      * intros k. simpl. rewrite Hin. simpl. split.
        -- intros [<- | [Hk Hn]]; tauto.
        -- intros [[<- | Hk] Hn]; [tauto|].
           destruct (existsb (cell_eqb k) [x]) eqn:Ek.
           ++ left. simpl in Ek. rewrite orb_false_r in Ek.
              rewrite Forall_forall in Hl. apply cell_eqb_plain in Ek; auto.
           ++ right. split; [assumption|]. intros [-> | Hks]; [|tauto].
              simpl in Ek. rewrite orb_false_r in Ek.
              assert (cell_eqb k k = true) by (apply cell_eqb_plain; auto). congruence.
Qed.

Section MergedRows.
Variables (L R : list (list value)) (oi ti tid nl : nat).
Hypothesis HL : Forall (fun l => List.length l = nl) L.
Hypothesis Hoi : (oi < nl)%nat.
Hypothesis HkL : Forall (fun l => plain_key (cell oi l) = true) L.
Hypothesis HkR : Forall (fun r => plain_key (cell ti r) = true) R.
Hypothesis Htid : tid <> ti.
Hypothesis HnaR : Forall (fun r => isna (cell tid r) = false) R.

Local Abbreviation pairs := (pairs_of oi ti R).
Local Abbreviation M := (join_rows oi ti L R).
Local Abbreviation ci := (nl + shift ti tid)%nat.




Lemma filter_all {A} (f : A -> bool) (l : list A) :
  (forall x, In x l -> f x = true) -> filter f l = l.
Proof.
  induction l as [|x l IH]; simpl; intros H; [reflexivity|].
  rewrite (H x) by auto. f_equal. auto.
Qed.

Lemma filter_none {A} (f : A -> bool) (l : list A) :
  (forall x, In x l -> f x = false) -> filter f l = [].
Proof.
  induction l as [|x l IH]; simpl; intros H; [reflexivity|].
  rewrite (H x) by auto. auto.
Qed.





End MergedRows.



(** The tables of the reporting tests: two tickets for ORD-001, one for
    ORD-002, no row for ORD-003. *)
Example tickets_per_order_run :
  create_tickets_per_order orders_three tickets_three
  = Ok (mkDataFrame ["order_id"; "number_of_tickets"]
          [[VStr "ORD-001"; VInt 2]; [VStr "ORD-002"; VInt 1]]).
Proof. reflexivity. Qed.


(** A tickets table without a [ticket_id] column makes the node raise. *)
Example tickets_per_order_needs_ticket_id :
  create_tickets_per_order orders_three
    (mkDataFrame ["order_id"] [[VStr "ORD-001"]])
  = Raise KeyError.
Proof. reflexivity. Qed.
(** ** Deduplication and null drop, once more *)

Lemma dedup_fresh (seen rs : list (list value)) :
  Forall (fun r => existsb (row_eqb r) seen = false) (dedup seen rs).
Proof.
  revert seen. induction rs as [|r rs IH]; intros seen; simpl; [constructor|].
  destruct (existsb (row_eqb r) seen) eqn:E; [apply IH|].
  constructor; [assumption|].
  eapply Forall_impl; [|apply (IH (r :: seen))].
  intros a Ha. simpl in Ha. now apply orb_false_elim in Ha.
Qed.

Lemma dedup_no_equal_rows (seen rs : list (list value)) :
  no_equal_rows (dedup seen rs).
Proof.
  unfold no_equal_rows. revert seen.
  induction rs as [|r rs IH]; intros seen; simpl; [constructor|].
  destruct (existsb (row_eqb r) seen) eqn:E; [apply IH|].
  constructor; [|apply IH].
  eapply Forall_impl; [|apply (dedup_fresh (r :: seen) rs)].
  intros a Ha. simpl in Ha. now apply orb_false_elim in Ha.
Qed.

Lemma dedup_fixed (seen rs : list (list value)) :
  no_equal_rows rs ->
  Forall (fun r => existsb (row_eqb r) seen = false) rs ->
  dedup seen rs = rs.
Proof.
  unfold no_equal_rows. intros Hp. revert seen.
  induction Hp as [|r rs Hr Hp IH]; intros seen Hs; simpl; [reflexivity|].
  inversion Hs as [|? ? Hr' Hs']; subst. rewrite Hr'. f_equal.
  apply IH. rewrite Forall_forall in *. intros a Ha. simpl.
  rewrite (Hr a Ha), (Hs' a Ha). reflexivity.
Qed.

Lemma no_equal_rows_filter (f : list value -> bool) (rs : list (list value)) :
  no_equal_rows rs -> no_equal_rows (filter f rs).
Proof.
  unfold no_equal_rows. induction 1 as [|r rs Hr Hp IH]; simpl; [constructor|].
  destruct (f r); [|assumption]. constructor; [|assumption].
  rewrite Forall_forall in *. intros a Ha. apply filter_In in Ha as [Ha _]. auto.
Qed.

Lemma dedup_subsequence (seen rs : list (list value)) : subsequence (dedup seen rs) rs.
Proof.
  revert seen. induction rs as [|r rs IH]; intros seen; simpl; [constructor|].
  destruct (existsb (row_eqb r) seen); constructor; apply IH.
Qed.

Lemma filter_subsequence {A} (f : A -> bool) (l : list A) : subsequence (filter f l) l.
Proof.
  induction l as [|x l IH]; simpl; [constructor|].
  destruct (f x); constructor; assumption.
Qed.

Lemma subsequence_refl {A} (l : list A) : subsequence l l.
Proof. induction l; constructor; assumption. Qed.

Lemma subsequence_trans {A} (l1 l2 l3 : list A) :
  subsequence l1 l2 -> subsequence l2 l3 -> subsequence l1 l3.
Proof.
  intros H12 H23. revert l1 H12.
  induction H23 as [|x l2 l3 H23 IH|x l2 l3 H23 IH]; intros l1 H12.
  - assumption.
  - inversion H12; subst; constructor; auto.
  - constructor. auto.
Qed.

Lemma filter_idem {A} (f : A -> bool) (l : list A) : filter f (filter f l) = filter f l.
Proof.
  induction l as [|x l IH]; simpl; [reflexivity|].
  destruct (f x) eqn:E; simpl; [rewrite E; f_equal|]; assumption.
Qed.

Lemma dropna_idem (df : DataFrame) : dropna (dropna df) = dropna df.
Proof. unfold dropna. simpl. now rewrite filter_idem. Qed.

(** What [drop_duplicates] then [dropna] return is left as it is by a second
    [drop_duplicates]. *)
Lemma drop_duplicates_cleaned (df d : DataFrame) :
  drop_duplicates df = Ok d -> drop_duplicates (dropna d) = Ok (dropna d).
Proof.
  unfold drop_duplicates. destruct (frame_empty df) eqn:He.
  - intros [= <-].
    assert (Hd : frame_empty (dropna df) = true).
    { unfold frame_empty in *. simpl. destruct (columns df); [reflexivity|].
      destruct (rows df); [reflexivity | discriminate]. }
    now rewrite Hd.
  - destruct (forallb (forallb hashable) (rows df)) eqn:Hh; [|discriminate].
    intros [= <-]. destruct (frame_empty (dropna _)) eqn:Hd; [reflexivity|].
    unfold dropna at 1 2. simpl.
    assert (Hh' : forallb (forallb hashable)
                    (filter (fun r => negb (row_has_na r)) (dedup [] (rows df))) = true).
    { apply forallb_forall. intros r Hr. apply filter_In in Hr as [Hr _].
      apply dedup_incl in Hr. rewrite forallb_forall in Hh. auto. }
    rewrite Hh'. unfold dropna. simpl. do 2 f_equal.
    apply dedup_fixed.
    + apply no_equal_rows_filter, dedup_no_equal_rows.
    + apply Forall_forall. reflexivity.
Qed.

Lemma clean_twice (df d : DataFrame) :
  drop_duplicates df = Ok d ->
  (d' <- drop_duplicates (dropna d) ;; Ok (dropna d')) = Ok (dropna d).
Proof.
  intros H. rewrite (drop_duplicates_cleaned _ _ H). simpl. now rewrite dropna_idem.
Qed.

(** X3.  [clean_customers] is idempotent: cleaning a cleaned table changes
    nothing. *)
Theorem clean_customers_idempotent (customers out : DataFrame) :
  clean_customers customers = Ok out -> clean_customers out = Ok out.
Proof.
  unfold clean_customers.
  destruct (drop_duplicates customers) as [d|] eqn:Hd; simpl; [|discriminate].
  intros [= <-]. apply (clean_twice _ _ Hd).
Qed.

Lemma clean_customers_idempotent_witness :
  clean_customers customers_cleaned = Ok customers_cleaned.
Proof. apply (clean_customers_idempotent customers_repeated). reflexivity. Defined.


(** ** [clean_tickets], once more *)

Lemma _safe_serialize_scalar (v : value) : hashable v = true -> _safe_serialize v = v.
Proof. destruct v; simpl; try reflexivity; discriminate. Qed.

Lemma map_safe_serialize_hashable (r : list value) :
  forallb hashable r = true -> map _safe_serialize r = r.
Proof.
  induction r as [|v r IH]; simpl; [reflexivity|].
  intros H. apply andb_prop in H as [Hv Hr].
  now rewrite (_safe_serialize_scalar _ Hv), IH.
Qed.

Lemma set_cell_same (i : nat) (r : list value) : set_cell i (cell i r) r = r.
Proof.
  revert i. induction r as [|x r IH]; intros [|i]; simpl; try reflexivity.
  unfold cell in *. simpl. now rewrite IH.
Qed.

Lemma set_cell_out (i : nat) (v : value) (r : list value) :
  (List.length r <= i)%nat -> set_cell i v r = r.
Proof.
  revert i. induction r as [|x r IH]; intros [|i]; simpl; intros H; try reflexivity; try lia.
  rewrite IH by lia. reflexivity.
Qed.

Lemma prepared_row_idem (tags : option nat) (r : list value) :
  prepared_row tags (prepared_row tags r) = prepared_row tags r.
Proof.
  pose proof (prepared_row_hashable tags r) as Hh.
  unfold prepared_row at 1. rewrite (map_safe_serialize_hashable _ Hh).
  destruct tags as [i|]; [|reflexivity].
  destruct (Nat.lt_ge_cases i (List.length (map _safe_serialize r))) as [Hlt | Hge].
  - unfold prepared_row at 1. rewrite cell_set_cell by assumption. simpl.
    unfold prepared_row.
    set (v := VStr (py_str (cell i (map _safe_serialize r)))).
    rewrite <- (cell_set_cell i v (map _safe_serialize r) Hlt) at 1.
    apply set_cell_same.
  - apply set_cell_out. rewrite length_prepared_row. now rewrite length_map in Hge.
Qed.

(** X5.  [clean_tickets] is idempotent: cleaning a cleaned table changes nothing. *)
Theorem clean_tickets_idempotent (tickets out : DataFrame) :
  clean_tickets tickets = Ok out -> clean_tickets out = Ok out.
Proof.
  rewrite clean_tickets_steps.
  set (P := mkDataFrame (columns tickets)
              (map (prepared_row (index_of "tags" (columns tickets))) (rows tickets))).
  destruct (drop_duplicates P) as [d|] eqn:Hd; simpl; [|discriminate].
  intros [= <-]. rewrite clean_tickets_steps.
  assert (Hc : columns (dropna d) = columns tickets).
  { simpl. now rewrite (drop_duplicates_columns _ _ Hd). }
  rewrite Hc.
  assert (Hrows : map (prepared_row (index_of "tags" (columns tickets))) (rows (dropna d))
                  = rows (dropna d)).
  { rewrite <- (map_id (rows (dropna d))) at 2. apply map_ext_in.
    intros r Hr. apply dropna_incl in Hr. apply (drop_duplicates_incl _ _ _ Hd) in Hr.
    simpl in Hr. apply in_map_iff in Hr as (r0 & <- & _). apply prepared_row_idem. }
  rewrite Hrows, <- Hc.
  replace (mkDataFrame (columns (dropna d)) (rows (dropna d))) with (dropna d)
    by (destruct (dropna d); reflexivity).
  apply (clean_twice _ _ Hd).
Qed.

Lemma clean_tickets_idempotent_witness :
  clean_tickets cleaned_tickets_null_tags = Ok cleaned_tickets_null_tags.
Proof. apply (clean_tickets_idempotent tickets_null_tags). reflexivity. Defined.


(** ** Failed calls and the caller's table *)

Lemma replace_nth_self (h : InPlace.heap) (r : InPlace.ref) (df : DataFrame) :
  nth_error h r = Some df -> InPlace.replace_nth r df h = h.
Proof.
  revert r. induction h as [|z h IH]; intros [|r]; simpl; try discriminate.
  - now intros [= ->].
  - intros H. f_equal. now apply IH.
Qed.

(** [clean_orders] on the caller's table, step by step: where it stops and
    what the table holds then. *)
Lemma clean_orders_inplace_steps to_datetime h orders df :
  nth_error h orders = Some df ->
  let renamed := if has_column "id" df then rename_column "id" "order_id" df else df in
  InPlace.clean_orders to_datetime orders h =
  match drop_duplicates renamed with
  | Raise e => (InPlace.replace_nth orders renamed h, Raise e)
  | Ok deduped =>
      let kept := dropna deduped in
      match (col <- get_column "ordered_at" kept ;;
             parsed <- to_datetime col ;;
             set_column "ordered_at" parsed kept) with
      | Raise e => (InPlace.replace_nth orders kept h, Raise e)
      | Ok out => (InPlace.replace_nth orders out h, Ok orders)
      end
  end.
Proof.
  intros H renamed. unfold InPlace.clean_orders, InPlace.bindM.
  rewrite (contains_column_at _ _ _ _ H). cbv beta iota.
  assert (Hstep1 :
    (if has_column "id" df then InPlace.rename_inplace orders "id" "order_id" else InPlace.ret tt) h
    = (InPlace.replace_nth orders renamed h, Ok tt)).
  { subst renamed. destruct (has_column "id" df).
    - now apply rename_inplace_at.
    - unfold InPlace.ret. now rewrite replace_nth_self. }
  rewrite Hstep1.
  assert (H1 : nth_error (InPlace.replace_nth orders renamed h) orders = Some renamed)
    by (eapply nth_error_replace_nth; eassumption).
  rewrite (drop_duplicates_inplace_at _ _ _ H1).
  destruct (drop_duplicates renamed) as [df2|e] eqn:E2; [|reflexivity].
  rewrite replace_nth_twice.
  assert (H2 : nth_error (InPlace.replace_nth orders df2 h) orders = Some df2)
    by (eapply nth_error_replace_nth; eassumption).
  rewrite (dropna_inplace_at _ _ _ H2), replace_nth_twice.
  assert (H3 : nth_error (InPlace.replace_nth orders (dropna df2) h) orders = Some (dropna df2))
    by (eapply nth_error_replace_nth; eassumption).
  rewrite (getitem_at _ _ _ _ H3). cbv zeta.
  destruct (get_column "ordered_at" (dropna df2)) as [col|e]; simpl; [|reflexivity].
  destruct (to_datetime col) as [parsed|e]; simpl; [|reflexivity].
  rewrite (setitem_at _ _ _ _ _ H3).
  destruct (set_column "ordered_at" parsed (dropna df2)) as [out|e]; [|reflexivity].
  now rewrite replace_nth_twice.
Qed.

(** X7.  A failed [clean_orders] does not give the caller's table back as it
    was.  If [drop_duplicates] raised, the table is left with [id] renamed;
    if the failure came later (no [ordered_at] column, an unreadable date),
    it is left renamed, deduplicated and without its rows with missing
    cells. *)
Theorem clean_orders_failure_leaves_table_changed
    (to_datetime : list value -> result (list value))
    (h : InPlace.heap) (orders : InPlace.ref) (df : DataFrame) (e : exn) :
  nth_error h orders = Some df ->
  clean_orders to_datetime df = Raise e ->
  exists left,
    InPlace.clean_orders to_datetime orders h
    = (InPlace.replace_nth orders left h, Raise e)
    /\ (orders_before_parsing df = Ok left
        \/ (orders_before_parsing df = Raise e
            /\ left = if has_column "id" df then rename_column "id" "order_id" df else df)).
Proof.
  intros H Hrun. rewrite (clean_orders_inplace_steps _ _ _ _ H). cbv zeta.
  unfold clean_orders in Hrun. unfold orders_before_parsing.
  destruct (drop_duplicates _) as [d|e'] eqn:Hd; simpl in *.
  - rewrite Hrun. eexists. split; [reflexivity|]. now left.
  - injection Hrun as ->. eexists. split; [reflexivity|]. now right.
Qed.

Lemma clean_orders_failure_leaves_table_changed_witness :
  exists left,
    InPlace.clean_orders iso_to_datetime 0%nat [orders_bad_date]
    = (InPlace.replace_nth 0%nat left [orders_bad_date], Raise ValueError)
    /\ (orders_before_parsing orders_bad_date = Ok left
        \/ (orders_before_parsing orders_bad_date = Raise ValueError
            /\ left = if has_column "id" orders_bad_date
                      then rename_column "id" "order_id" orders_bad_date
                      else orders_bad_date)).
Proof.
  apply (clean_orders_failure_leaves_table_changed iso_to_datetime
           [orders_bad_date] 0%nat orders_bad_date ValueError); reflexivity.
Defined.

(** The table a failed [clean_orders] leaves behind, on an example: the
    caller's [id] column is now [order_id]. *)
Example clean_orders_failure_run :
  InPlace.clean_orders iso_to_datetime 0%nat [orders_bad_date]
  = ([mkDataFrame ["order_id"; "ordered_at"; "tax_paid"]
        [[VStr "ORD-001"; VStr "2024-01-01"; VInt 10];
         [VStr "ORD-002"; VStr "not a date"; VInt 15]]],
     Raise ValueError).
Proof. reflexivity. Qed.

(** X8.  A failed [clean_customers] leaves the caller's table as it was: the only
    step that can fail, [drop_duplicates], fails before it changes
    anything. *)
Theorem clean_customers_failure_leaves_table
    (h : InPlace.heap) (customers : InPlace.ref) (df : DataFrame) (e : exn) :
  nth_error h customers = Some df ->
  clean_customers df = Raise e ->
  InPlace.clean_customers customers h = (h, Raise e)
  /\ e = TypeError
  /\ exists r, In r (rows df) /\ forallb hashable r = false.
Proof.
  intros H Hrun. rewrite (clean_customers_inplace _ _ _ H), Hrun.
  split; [reflexivity|].
  unfold clean_customers, drop_duplicates in Hrun.
  destruct (frame_empty df); simpl in Hrun; [discriminate|].
  destruct (forallb (forallb hashable) (rows df)) eqn:Hh; simpl in Hrun; [discriminate|].
  split; [congruence|].
  clear -Hh. induction (rows df) as [|r rs IH]; simpl in Hh; [discriminate|].
  destruct (forallb hashable r) eqn:Hr.
  - destruct (IH Hh) as (r' & Hin & Hr'). exists r'. split; [now right | assumption].
  - exists r. split; [now left | assumption].
Qed.

Lemma clean_customers_failure_leaves_table_witness :
  InPlace.clean_customers 0%nat [mkDataFrame ["id"; "tags"] [[VInt 1; VList [VStr "vip"]]]]
  = ([mkDataFrame ["id"; "tags"] [[VInt 1; VList [VStr "vip"]]]], Raise TypeError)
  /\ TypeError = TypeError
  /\ exists r, In r (rows (mkDataFrame ["id"; "tags"] [[VInt 1; VList [VStr "vip"]]]))
               /\ forallb hashable r = false.
Proof.
  apply (clean_customers_failure_leaves_table
           [mkDataFrame ["id"; "tags"] [[VInt 1; VList [VStr "vip"]]]] 0%nat
           (mkDataFrame ["id"; "tags"] [[VInt 1; VList [VStr "vip"]]]) TypeError);
    reflexivity.
Defined.
(** ** The joined rows, in general *)

Lemma length_filter_map {A B} (f : B -> bool) (g : A -> B) (l : list A) :
  List.length (filter f (map g l)) = List.length (filter (fun x => f (g x)) l).
Proof.
  induction l as [|x l IH]; simpl; [reflexivity|].
  destruct (f (g x)); simpl; now rewrite IH.
Qed.

Lemma filter_filter {A} (f g : A -> bool) (l : list A) :
  filter f (filter g l) = filter (fun x => g x && f x) l.
Proof.
  induction l as [|x l IH]; simpl; [reflexivity|].
  destruct (g x); simpl; [destruct (f x); now rewrite IH | assumption].
Qed.

Lemma cell_eqb_plain_sym (a b : value) :
  plain_key a = true -> plain_key b = true -> cell_eqb a b = cell_eqb b a.
Proof.
  intros Ha Hb. destruct (cell_eqb a b) eqn:E.
  - apply cell_eqb_plain in E; auto. subst. symmetry. now apply cell_eqb_plain.
  - destruct (cell_eqb b a) eqn:E'; [|reflexivity].
    apply cell_eqb_plain in E'; auto. subst.
    assert (cell_eqb a a = true) by now apply cell_eqb_plain. congruence.
Qed.

Section JoinedCounts.
Variables (L R : list (list value)) (oi ti tid nl : nat).
Hypothesis HL : Forall (fun l => List.length l = nl) L.
Hypothesis Hoi : (oi < nl)%nat.
Hypothesis HkL : Forall (fun l => plain_key (cell oi l) = true) L.
Hypothesis HkR : Forall (fun r => plain_key (cell ti r) = true) R.
Hypothesis Htid : tid <> ti.

Local Abbreviation ci := (nl + shift ti tid)%nat.

Lemma joined_cell_key (l r : list value) :
  In l L -> cell oi (l ++ remove_nth ti r)%list = cell oi l.
Proof.
  intros Hl. apply cell_app_l. rewrite Forall_forall in HL. rewrite (HL l Hl). exact Hoi.
Qed.

Lemma joined_cell_ticket (l r : list value) :
  In l L -> cell ci (l ++ remove_nth ti r)%list = cell tid r.
Proof.
  intros Hl. rewrite Forall_forall in HL.
  rewrite <- (HL l Hl), cell_app_r, cell_remove_nth by assumption. reflexivity.
Qed.

Lemma joined_keys (k : value) :
  In k (map (cell oi) (join_rows oi ti L R))
  <-> In k (map (cell oi) L) /\ In k (map (cell ti) R).
Proof.
  rewrite Forall_forall in HkL, HkR. split.
  - intros Hk. apply in_map_iff in Hk as (m & <- & Hm).
    apply in_flat_map in Hm as (l & Hl & Hm).
    apply in_map_iff in Hm as (r & <- & Hr). apply filter_In in Hr as [Hr He].
    rewrite joined_cell_key by assumption.
    split; [now apply in_map|].
    apply cell_eqb_plain in He; auto. rewrite He. now apply in_map.
  - intros [Hl Hr]. apply in_map_iff in Hl as (l & <- & Hl).
    apply in_map_iff in Hr as (r & Hr & Hin).
    apply in_map_iff. exists (l ++ remove_nth ti r)%list. split.
    + now apply joined_cell_key.
    + apply in_flat_map. exists l. split; [assumption|].
      apply (in_map (fun r0 => (l ++ remove_nth ti r0)%list)).
      apply filter_In. split; [assumption|].
      apply cell_eqb_plain; auto.
Qed.

Lemma joined_keys_plain :
  Forall (fun k => plain_key k = true) (map (cell oi) (join_rows oi ti L R)).
Proof.
  apply Forall_forall. intros k Hk. apply joined_keys in Hk as [Hk _].
  apply in_map_iff in Hk as (l & <- & Hl). rewrite Forall_forall in HkL. auto.
Qed.

Lemma count_pairs_of (k : value) (l : list value) :
  In l L -> plain_key k = true ->
  List.length (filter (fun m => cell_eqb (cell oi m) k && negb (isna (cell ci m)))
                 (pairs_of oi ti R l))
  = if cell_eqb (cell oi l) k
    then List.length (filter (fun r => cell_eqb (cell ti r) k && negb (isna (cell tid r))) R)
    else O.
Proof.
  intros Hl Hk. unfold pairs_of. rewrite length_filter_map, filter_filter.
  rewrite Forall_forall in HkL, HkR.
  destruct (cell_eqb (cell oi l) k) eqn:E.
  - f_equal. apply filter_ext_in. intros r Hr.
    rewrite joined_cell_key, joined_cell_ticket, E by assumption. simpl.
    apply cell_eqb_plain in E; auto. rewrite E.
    now rewrite (cell_eqb_plain_sym k (cell ti r)) by auto.
  - rewrite filter_none; [reflexivity|]. intros r Hr.
    rewrite joined_cell_key, E by assumption. simpl. apply andb_false_r.
Qed.

Lemma count_joined (k : value) (L' : list (list value)) :
  incl L' L -> plain_key k = true ->
  List.length (filter (fun m => cell_eqb (cell oi m) k && negb (isna (cell ci m)))
                 (join_rows oi ti L' R))
  = (List.length (filter (fun l => cell_eqb (cell oi l) k) L')
     * List.length (filter (fun r => cell_eqb (cell ti r) k && negb (isna (cell tid r))) R))%nat.
Proof.
  intros Hincl Hk. induction L' as [|l L' IH]; simpl; [reflexivity|].
  assert (Hl : In l L) by (apply Hincl; now left).
  assert (Hincl' : incl L' L) by (intros x Hx; apply Hincl; now right).
  rewrite filter_app, length_app, count_pairs_of, (IH Hincl') by assumption.
  destruct (cell_eqb (cell oi l) k); simpl; lia.
Qed.

End JoinedCounts.

(** What [create_tickets_per_order] returns when the [order_id] cells of
    both tables are strings, ints or timestamps and [ticket_id] is a column
    of the tickets alone: one row per [order_id] of both tables, the keys
    sorted, each with the number of joined rows that have a [ticket_id]. *)
Lemma tickets_per_order_rows (orders tickets : DataFrame) (oi ti tid : nat) :
  index_of "order_id" (columns orders) = Some oi ->
  index_of "order_id" (columns tickets) = Some ti ->
  index_of "ticket_id" (columns tickets) = Some tid ->
  has_column "ticket_id" orders = false ->
  wf_frame orders ->
  Forall (fun l => plain_key (cell oi l) = true) (rows orders) ->
  Forall (fun r => plain_key (cell ti r) = true) (rows tickets) ->
  let keys := sort_values (uniques [] (map (cell oi)
                (join_rows oi ti (rows orders) (rows tickets)))) in
  create_tickets_per_order orders tickets
  = Ok (mkDataFrame ["order_id"; "number_of_tickets"]
          (map (fun k => [k; VInt (rows_with oi k (rows orders)
                                   * counted_rows ti tid k (rows tickets))]) keys))
  /\ NoDup keys
  /\ Forall (fun k => plain_key k = true) keys
  /\ (forall k, In k keys <->
                In k (map (cell oi) (rows orders)) /\ In k (map (cell ti) (rows tickets))).
Proof.
  intros Hoi Hti Htid Hno Hwf HkL HkR.
  set (L := rows orders) in *. set (R := rows tickets) in *.
  set (nl := List.length (columns orders)).
  assert (Hlt : (oi < nl)%nat) by (eapply index_of_lt; eassumption).
  assert (Hshift : index_of "ticket_id" (remove_nth ti (columns tickets))
                   = Some (shift ti tid) /\ tid <> ti).
  { eapply index_of_remove_nth; try eassumption. discriminate. }
  destruct Hshift as [Hshift Hne].
  assert (Hnot : ~ In "ticket_id" (columns orders)).
  { intros Hin. apply index_of_In in Hin. apply has_column_index in Hin. congruence. }
  pose proof (joined_keys L R oi ti nl Hwf Hlt HkL HkR) as Hkeys.
  pose proof (joined_keys_plain L R oi ti nl Hwf Hlt HkL HkR) as Hplain.
  set (M := join_rows oi ti L R) in *.
  set (ci := (nl + shift ti tid)%nat).
  assert (Hnotna : filter (fun k => negb (isna k)) (map (cell oi) M) = map (cell oi) M).
  { apply filter_all. intros k Hk. rewrite Forall_forall in Hplain.
    now rewrite (plain_key_notna _ (Hplain k Hk)). }
  destruct (uniques_plain (map (cell oi) M) [] Hplain (Forall_nil _)) as [Hund Huin].
  intros keys.
  assert (Hperm : Permutation (uniques [] (map (cell oi) M)) keys)
    by apply sort_values_perm.
  assert (Hkin : forall k, In k keys <-> In k (map (cell oi) L) /\ In k (map (cell ti) R)).
  { intros k. rewrite <- Hkeys. split.
    - intros Hk. apply (Permutation_in _ (Permutation_sym Hperm)) in Hk.
      now apply Huin in Hk.
    - intros Hk. apply (Permutation_in _ Hperm). apply Huin. tauto. }
  assert (Hkp : Forall (fun k => plain_key k = true) keys).
  { apply Forall_forall. intros k Hk. apply Hkin in Hk as [Hk _].
    apply in_map_iff in Hk as (l & <- & Hl). rewrite Forall_forall in HkL. auto. }
  split; [|split; [|split]].
  - unfold create_tickets_per_order, merge. rewrite Hoi, Hti.
    assert (H1 : forallb (fun r => hashable (cell oi r)) (rows orders) = true).
    { apply forallb_forall. intros r Hr. rewrite Forall_forall in HkL.
      apply plain_key_hashable. now apply HkL. }
    assert (H2 : forallb (fun r => hashable (cell ti r)) (rows tickets) = true).
    { apply forallb_forall. intros r Hr. rewrite Forall_forall in HkR.
      apply plain_key_hashable. now apply HkR. }
    rewrite H1, H2. simpl. unfold groupby_count. simpl.
    rewrite (merge_columns_key ti oi _ _ Hoi).
    rewrite (merge_columns_ticket_id ti _ _ _ Hnot Hshift).
    fold L R M nl ci.
    assert (H3 : forallb (fun r => hashable (cell oi r)) M = true).
    { apply forallb_forall. intros m Hm. apply plain_key_hashable.
      rewrite Forall_forall in Hplain. apply Hplain. now apply in_map. }
    rewrite H3, Hnotna. unfold rename_column. simpl. fold keys. do 2 f_equal.
    apply map_ext_in. intros k Hk. do 3 f_equal.
    unfold group_count, rows_with, counted_rows. rewrite <- Nat2Z.inj_mul. f_equal.
    apply (count_joined L R oi ti tid nl Hwf Hlt HkL HkR Hne k L (incl_refl _)).
    rewrite Forall_forall in Hkp. auto.
  - eapply Permutation_NoDup; eassumption.
  - exact Hkp.
  - exact Hkin.
Qed.
Lemma one_kind_plain (i j : nat) (L R : list (list value)) :
  one_kind (map (cell i) L ++ map (cell j) R)%list ->
  Forall (fun l => plain_key (cell i l) = true) L
  /\ Forall (fun r => plain_key (cell j r) = true) R.
Proof.
  intros H.
  assert (Hp : Forall (fun k => plain_key k = true) (map (cell i) L ++ map (cell j) R)%list).
  { destruct H as [H | [H | H]]; (eapply Forall_impl; [|exact H]);
      intros [] Hk; simpl in *; congruence. }
  apply Forall_app in Hp as [H1 H2]. rewrite Forall_map in H1, H2. now split.
Qed.

(** ** More on [create_tickets_per_order] *)

(** X9.  The count of [create_tickets_per_order], in general.  When the
    [order_id] cells of both tables are of one kind (all strings, all ints
    or all timestamps) and [ticket_id] is a column of the tickets alone, the
    output has one row for
    every [order_id] present in both tables, and its count is the number of
    order rows with that [order_id] times the number of ticket rows with
    that [order_id] and a [ticket_id] that is not missing.  An [order_id]
    whose tickets all miss their [ticket_id] gets a row with the count 0. *)
Theorem tickets_per_order_counts_joined_pairs
    (orders tickets : DataFrame) (oi ti tid : nat) :
  index_of "order_id" (columns orders) = Some oi ->
  index_of "order_id" (columns tickets) = Some ti ->
  index_of "ticket_id" (columns tickets) = Some tid ->
  has_column "ticket_id" orders = false ->
  wf_frame orders ->
  one_kind (map (cell oi) (rows orders) ++ map (cell ti) (rows tickets))%list ->
  exists out,
    create_tickets_per_order orders tickets = Ok out
    /\ columns out = ["order_id"; "number_of_tickets"]
    /\ (forall row,
          In row (rows out) <->
          exists k, In k (map (cell oi) (rows orders))
                    /\ In k (map (cell ti) (rows tickets))
                    /\ row = [k; VInt (rows_with oi k (rows orders)
                                       * counted_rows ti tid k (rows tickets))])
    /\ NoDup (map (cell 0) (rows out)).
Proof.
  intros Hoi Hti Htid Hno Hwf Hkind.
  destruct (one_kind_plain _ _ _ _ Hkind) as [HkL HkR].
  destruct (tickets_per_order_rows orders tickets oi ti tid Hoi Hti Htid Hno Hwf HkL HkR)
    as (Hrun & Hnd & _ & Hkin).
  eexists. split; [exact Hrun|]. simpl. split; [reflexivity|]. split.
  - intros row. rewrite in_map_iff. split.
    + intros (k & <- & Hk). apply Hkin in Hk as [H1 H2]. exists k. auto.
    + intros (k & H1 & H2 & ->). exists k. split; [reflexivity|]. apply Hkin. auto.
  - rewrite map_map. simpl. rewrite map_id. exact Hnd.
Qed.

Lemma tickets_per_order_counts_joined_pairs_witness :
  exists out,
    create_tickets_per_order orders_repeated_id tickets_null_id = Ok out
    /\ columns out = ["order_id"; "number_of_tickets"]
    /\ (forall row,
          In row (rows out) <->
          exists k, In k (map (cell 0) (rows orders_repeated_id))
                    /\ In k (map (cell 1) (rows tickets_null_id))
                    /\ row = [k; VInt (rows_with 0 k (rows orders_repeated_id)
                                       * counted_rows 1 0 k (rows tickets_null_id))])
    /\ NoDup (map (cell 0) (rows out)).
Proof.
  apply (tickets_per_order_counts_joined_pairs orders_repeated_id tickets_null_id 0 1 0).
  - reflexivity.
  - reflexivity.
  - reflexivity.
  - reflexivity.
  - repeat constructor.
  - left. repeat constructor.
Defined.

(** Two order rows and two ticket rows for ORD-001, one of them without a
    [ticket_id]: the count is 2 * 1. *)
Example tickets_per_order_null_ticket_run :
  create_tickets_per_order orders_repeated_id tickets_null_id
  = Ok (mkDataFrame ["order_id"; "number_of_tickets"] [[VStr "ORD-001"; VInt 2]])
  /\ create_tickets_per_order orders_three tickets_null_id
     = Ok (mkDataFrame ["order_id"; "number_of_tickets"]
             [[VStr "ORD-001"; VInt 1]; [VStr "ORD-002"; VInt 0]]).
Proof. split; reflexivity. Qed.
Lemma insert_sorted_strings (k : string) (S : list (string * unit)) :
  insert_sorted (VStr k) (map VStr (map fst S))
  = map VStr (map fst (insert_item (k, tt) S)).
Proof.
  induction S as [|[y u] S IH]; simpl; [reflexivity|].
  unfold value_leb. simpl.
  destruct (String.leb k y); simpl; [reflexivity|]. now rewrite IH.
Qed.

Lemma sort_values_strings (ks : list string) :
  sort_values (map VStr ks)
  = map VStr (map fst (sort_items (map (fun k => (k, tt)) ks))).
Proof.
  induction ks as [|k ks IH]; simpl; [reflexivity|].
  now rewrite IH, insert_sorted_strings.
Qed.

Lemma strings_of (l : list value) :
  Forall (fun v => is_str v = true) l -> exists ks, l = map VStr ks.
Proof.
  induction 1 as [|v l Hv _ [ks ->]]; [now exists []|].
  destruct v; try discriminate. now exists (s :: ks).
Qed.

Lemma is_str_plain (v : value) : is_str v = true -> plain_key v = true.
Proof. destruct v; simpl; auto. Qed.

(** X10.  [groupby] sorts its keys: when the [order_id] cells are strings, the
    rows of [create_tickets_per_order] come in strictly increasing order of
    [order_id]. *)
Theorem tickets_per_order_sorted
    (orders tickets : DataFrame) (oi ti tid : nat) :
  index_of "order_id" (columns orders) = Some oi ->
  index_of "order_id" (columns tickets) = Some ti ->
  index_of "ticket_id" (columns tickets) = Some tid ->
  has_column "ticket_id" orders = false ->
  wf_frame orders ->
  Forall (fun l => is_str (cell oi l) = true) (rows orders) ->
  Forall (fun r => is_str (cell ti r) = true) (rows tickets) ->
  exists out ids,
    create_tickets_per_order orders tickets = Ok out
    /\ map (cell 0) (rows out) = map VStr ids
    /\ increasing ids = true.
Proof.
  intros Hoi Hti Htid Hno Hwf HsL HsR.
  assert (HkL : Forall (fun l => plain_key (cell oi l) = true) (rows orders))
    by (eapply Forall_impl; [|exact HsL]; intros a; apply is_str_plain).
  assert (HkR : Forall (fun r => plain_key (cell ti r) = true) (rows tickets))
    by (eapply Forall_impl; [|exact HsR]; intros a; apply is_str_plain).
  destruct (tickets_per_order_rows orders tickets oi ti tid Hoi Hti Htid Hno Hwf HkL HkR)
    as (Hrun & Hnd & Hkp & Hkin).
  set (U := uniques [] (map (cell oi) (join_rows oi ti (rows orders) (rows tickets)))) in *.
  assert (HU : Forall (fun v => is_str v = true) U).
  { apply Forall_forall. intros k Hk.
    apply (Permutation_in _ (sort_values_perm U)) in Hk. apply Hkin in Hk as [Hk _].
    apply in_map_iff in Hk as (l & <- & Hl). rewrite Forall_forall in HsL. auto. }
  destruct (strings_of U HU) as [us Hus].
  rewrite Hus, sort_values_strings in Hrun, Hnd.
  set (S := sort_items (map (fun k => (k, tt)) us)) in *.
  eexists. exists (map fst S). split; [exact Hrun|]. simpl. split.
  - rewrite map_map. simpl. now rewrite map_id.
  - apply sorted_increasing; [apply sort_items_sorted|].
    eapply NoDup_map_inv. exact Hnd.
Qed.

Lemma tickets_per_order_sorted_witness :
  exists out ids,
    create_tickets_per_order orders_three
      (mkDataFrame ["ticket_id"; "order_id"]
         [[VStr "TCK-001"; VStr "ORD-003"]; [VStr "TCK-002"; VStr "ORD-001"]]) = Ok out
    /\ map (cell 0) (rows out) = map VStr ids
    /\ increasing ids = true.
Proof.
  apply (tickets_per_order_sorted orders_three
           (mkDataFrame ["ticket_id"; "order_id"]
              [[VStr "TCK-001"; VStr "ORD-003"]; [VStr "TCK-002"; VStr "ORD-001"]])
           0 1 0).
  - reflexivity.
  - reflexivity.
  - reflexivity.
  - reflexivity.
  - repeat constructor.
  - repeat constructor.
  - repeat constructor.
Defined.

(** *** Every ticket of a known order is counted once *)

Lemma count_one_key (x : value) (keys : list value) :
  plain_key x = true -> Forall (fun k => plain_key k = true) keys -> NoDup keys ->
  fold_right Z.add 0 (map (fun k => if cell_eqb x k then 1 else 0) keys)
  = if existsb (cell_eqb x) keys then 1 else 0.
Proof.
  intros Hx Hk Hnd. induction Hnd as [|k keys Hn Hnd IH]; simpl; [reflexivity|].
  inversion Hk as [|? ? Hk1 Hk2]; subst. rewrite (IH Hk2).
  destruct (cell_eqb x k) eqn:E; simpl; [|reflexivity].
  apply cell_eqb_plain in E; auto. subst k.
  destruct (existsb (cell_eqb x) keys) eqn:Ex; [|reflexivity].
  apply existsb_cell_eqb_plain in Ex; auto. contradiction.
Qed.

Lemma sum_rows_with (i : nat) (keys : list value) (rs : list (list value)) :
  Forall (fun r => plain_key (cell i r) = true) rs ->
  Forall (fun k => plain_key k = true) keys -> NoDup keys ->
  fold_right Z.add 0 (map (fun k => rows_with i k rs) keys)
  = Z.of_nat (List.length (filter (fun r => existsb (cell_eqb (cell i r)) keys) rs)).
Proof.
  intros Hr Hk Hnd. induction Hr as [|r rs Hr1 Hr2 IH].
  - unfold rows_with. simpl. induction keys; simpl; [reflexivity|].
    inversion Hk; inversion Hnd; subst. auto.
  - simpl.
    assert (Hsplit : fold_right Z.add 0 (map (fun k => rows_with i k (r :: rs)) keys)
                     = fold_right Z.add 0 (map (fun k => if cell_eqb (cell i r) k then 1 else 0) keys)
                       + fold_right Z.add 0 (map (fun k => rows_with i k rs) keys)).
    { clear. induction keys as [|k keys IHk]; simpl; [reflexivity|].
      rewrite IHk. unfold rows_with. simpl.
      destruct (cell_eqb (cell i r) k); simpl List.length; lia. }
    rewrite Hsplit, IH, count_one_key by assumption.
    destruct (existsb (cell_eqb (cell i r)) keys); simpl List.length; lia.
Qed.

Lemma rows_with_one (i : nat) (k : value) (rs : list (list value)) :
  Forall (fun r => plain_key (cell i r) = true) rs ->
  NoDup (map (cell i) rs) -> In k (map (cell i) rs) ->
  rows_with i k rs = 1.
Proof.
  unfold rows_with. intros Hp Hnd Hin.
  induction rs as [|r rs IH]; simpl in *; [contradiction|].
  inversion Hp as [|? ? Hp1 Hp2]; subst. inversion Hnd as [|? ? Hn Hnd']; subst.
  assert (Hk : plain_key k = true).
  { destruct Hin as [<- | Hin]; [assumption|].
    apply in_map_iff in Hin as (x & <- & Hx). rewrite Forall_forall in Hp2. auto. }
  destruct (cell_eqb (cell i r) k) eqn:E.
  - apply cell_eqb_plain in E; auto. subst k. simpl.
    rewrite filter_none; [reflexivity|]. intros x Hx.
    destruct (cell_eqb (cell i x) (cell i r)) eqn:E'; [|reflexivity].
    rewrite Forall_forall in Hp2. apply cell_eqb_plain in E'; auto.
    exfalso. apply Hn. rewrite <- E'. now apply in_map.
  - destruct Hin as [<- | Hin]; [|auto].
    assert (cell_eqb (cell i r) (cell i r) = true) by (apply cell_eqb_plain; auto).
    congruence.
Qed.

Lemma existsb_ext_in (x : value) (l1 l2 : list value) :
  plain_key x = true ->
  Forall (fun k => plain_key k = true) l1 -> Forall (fun k => plain_key k = true) l2 ->
  (In x l1 <-> In x l2) ->
  existsb (cell_eqb x) l1 = existsb (cell_eqb x) l2.
Proof.
  intros Hx H1 H2 Hiff.
  destruct (existsb (cell_eqb x) l1) eqn:E1, (existsb (cell_eqb x) l2) eqn:E2;
    try reflexivity.
  - apply existsb_cell_eqb_plain in E1; auto. apply Hiff in E1.
    apply existsb_cell_eqb_plain in E1; auto. congruence.
  - apply existsb_cell_eqb_plain in E2; auto. apply Hiff in E2.
    apply existsb_cell_eqb_plain in E2; auto. congruence.
Qed.

(** X11.  When the [order_id] cells are of one kind, those of the orders are
    pairwise distinct and no ticket misses its [ticket_id], every count is
    at least 1 and the counts
    add up to the number of ticket rows whose [order_id] is an order's:
    each such ticket is counted once, the other tickets nowhere. *)
Theorem tickets_per_order_accounts_for_tickets
    (orders tickets : DataFrame) (oi ti tid : nat) :
  index_of "order_id" (columns orders) = Some oi ->
  index_of "order_id" (columns tickets) = Some ti ->
  index_of "ticket_id" (columns tickets) = Some tid ->
  has_column "ticket_id" orders = false ->
  wf_frame orders ->
  one_kind (map (cell oi) (rows orders) ++ map (cell ti) (rows tickets))%list ->
  NoDup (map (cell oi) (rows orders)) ->
  Forall (fun r => isna (cell tid r) = false) (rows tickets) ->
  exists out,
    create_tickets_per_order orders tickets = Ok out
    /\ Forall (fun row => exists n, cell 1 row = VInt n /\ 1 <= n) (rows out)
    /\ column_total 1 (rows out)
       = Z.of_nat (List.length
                     (filter (fun r => existsb (cell_eqb (cell ti r))
                                         (map (cell oi) (rows orders)))
                             (rows tickets))).
Proof.
  intros Hoi Hti Htid Hno Hwf Hkind Hnd Hna.
  destruct (one_kind_plain _ _ _ _ Hkind) as [HkL HkR].
  destruct (tickets_per_order_rows orders tickets oi ti tid Hoi Hti Htid Hno Hwf HkL HkR)
    as (Hrun & Hndk & Hkp & Hkin).
  set (keys := sort_values _) in *.
  assert (Hcount : forall k, In k keys ->
            rows_with oi k (rows orders) * counted_rows ti tid k (rows tickets)
            = rows_with ti k (rows tickets)).
  { intros k Hk. apply Hkin in Hk as [Hk _].
    rewrite (rows_with_one oi k (rows orders) HkL Hnd Hk), Z.mul_1_l.
    unfold counted_rows, rows_with. do 2 f_equal. apply filter_ext_in.
    intros r Hr. rewrite Forall_forall in Hna. rewrite (Hna r Hr). apply andb_true_r. }
  eexists. split; [exact Hrun|]. simpl. split.
  - apply Forall_forall. intros row Hrow. apply in_map_iff in Hrow as (k & <- & Hk).
    eexists. split; [reflexivity|]. rewrite (Hcount k Hk).
    apply Hkin in Hk as [_ Hk]. apply in_map_iff in Hk as (r & <- & Hr).
    unfold rows_with.
    assert (Hin : In r (filter (fun r0 => cell_eqb (cell ti r0) (cell ti r)) (rows tickets))).
    { apply filter_In. split; [assumption|]. rewrite Forall_forall in HkR.
      apply cell_eqb_plain; auto. }
    destruct (filter _ (rows tickets)); [contradiction | simpl List.length; lia].
  - unfold column_total. rewrite map_map. simpl.
    rewrite (map_ext_in _ (fun k => rows_with ti k (rows tickets))) by exact Hcount.
    rewrite (sum_rows_with ti keys (rows tickets) HkR Hkp Hndk).
    do 2 f_equal. apply filter_ext_in. intros r Hr.
    rewrite Forall_forall in HkR.
    apply existsb_ext_in; auto.
    + apply Forall_forall. intros k Hk. apply in_map_iff in Hk as (l & <- & Hl).
      rewrite Forall_forall in HkL. auto.
    + rewrite Hkin. split; [tauto|]. intros H. split; [assumption|]. now apply in_map.
Qed.

Lemma tickets_per_order_accounts_for_tickets_witness :
  exists out,
    create_tickets_per_order orders_three tickets_three = Ok out
    /\ Forall (fun row => exists n, cell 1 row = VInt n /\ 1 <= n) (rows out)
    /\ column_total 1 (rows out)
       = Z.of_nat (List.length
                     (filter (fun r => existsb (cell_eqb (cell 1 r))
                                         (map (cell 0) (rows orders_three)))
                             (rows tickets_three))).
Proof.
  apply (tickets_per_order_accounts_for_tickets orders_three tickets_three 0 1 0).
  - reflexivity.
  - reflexivity.
  - reflexivity.
  - reflexivity.
  - repeat constructor.
  - left. repeat constructor.
  - simpl. repeat constructor; simpl; intuition discriminate.
  - repeat constructor.
Defined.
(** *** The columns [create_tickets_per_order] needs *)

Lemma In_remove_nth {A} (x : A) (i : nat) (l : list A) : In x (remove_nth i l) -> In x l.
Proof.
  revert i. induction l as [|y l IH]; intros [|i]; simpl; auto.
  intros [-> | H]; [now left | right; eauto].
Qed.

Lemma has_column_In (c : string) (df : DataFrame) :
  has_column c df = true <-> In c (columns df).
Proof.
  unfold has_column. rewrite existsb_exists. split.
  - intros (x & Hx & He). apply String.eqb_eq in He. now subst.
  - intros H. exists c. split; [assumption | apply String.eqb_refl].
Qed.

Lemma existsb_eqb_In (c : string) (l : list string) :
  existsb (String.eqb c) l = true <-> In c l.
Proof.
  rewrite existsb_exists. split.
  - intros (x & Hx & He). apply String.eqb_eq in He. now subst.
  - intros H. exists c. split; [assumption | apply String.eqb_refl].
Qed.

Lemma merge_columns_has_ticket_id (ri : nat) (lcols rcols : list string) :
  index_of "order_id" rcols = Some ri ->
  In "ticket_id" (merge_columns "order_id" ri lcols rcols) ->
  (In "ticket_id" lcols /\ ~ In "ticket_id" rcols)
  \/ (~ In "ticket_id" lcols /\ In "ticket_id" rcols).
Proof.
  intros Hri Hin. unfold merge_columns in Hin. apply in_app_or in Hin as [Hin | Hin].
  - apply in_map_iff in Hin as (c & Hc & Hin).
    destruct (negb (String.eqb c "order_id")
              && existsb (String.eqb c) (remove_nth ri rcols)) eqn:E.
    + now apply suffix_x_not_ticket_id in Hc.
    + subst c. left. split; [assumption|]. intros Hr.
      apply index_of_In in Hr as [i Hi].
      destruct (index_of_remove_nth "ticket_id" "order_id" rcols i ri Hi Hri) as [Hs _];
        [discriminate|].
      assert (Hrest : In "ticket_id" (remove_nth ri rcols))
        by (apply index_of_In; eauto).
      apply existsb_eqb_In in Hrest. rewrite Hrest in E. discriminate E.
  - apply in_map_iff in Hin as (c & Hc & Hin).
    destruct (existsb (String.eqb c) lcols) eqn:E.
    + now apply suffix_y_not_ticket_id in Hc.
    + subst c. right. split.
      * intros Hl. apply existsb_eqb_In in Hl. congruence.
      * eapply In_remove_nth. eassumption.
Qed.

(** X12.  [create_tickets_per_order] returns a table only if both tables have an
    [order_id] column and exactly one of them has a [ticket_id] column: when
    both have one, [merge] renames them [ticket_id_x] and [ticket_id_y] and
    the count finds no [ticket_id]. *)
Theorem tickets_per_order_needs_columns (orders tickets out : DataFrame) :
  create_tickets_per_order orders tickets = Ok out ->
  has_column "order_id" orders = true
  /\ has_column "order_id" tickets = true
  /\ xorb (has_column "ticket_id" orders) (has_column "ticket_id" tickets) = true.
Proof.
  unfold create_tickets_per_order, merge.
  destruct (index_of "order_id" (columns orders)) as [oi|] eqn:Hoi; [|discriminate].
  destruct (index_of "order_id" (columns tickets)) as [ti|] eqn:Hti; [|discriminate].
  destruct (_ && _); [|discriminate]. simpl. unfold groupby_count. simpl.
  destruct (index_of "order_id" (merge_columns _ _ _ _)); [|discriminate].
  destruct (index_of "ticket_id" (merge_columns _ _ _ _)) as [ci|] eqn:Hci; [|discriminate].
  intros _.
  split; [apply has_column_index; eauto|]. split; [apply has_column_index; eauto|].
  assert (Hin : In "ticket_id" (merge_columns "order_id" ti (columns orders) (columns tickets)))
    by (apply index_of_In; eauto).
  destruct (merge_columns_has_ticket_id _ _ _ Hti Hin) as [[H1 H2] | [H1 H2]].
  - apply has_column_In in H1. rewrite H1.
    destruct (has_column "ticket_id" tickets) eqn:E; [|reflexivity].
    apply has_column_In in E. contradiction.
  - apply has_column_In in H2. rewrite H2.
    destruct (has_column "ticket_id" orders) eqn:E; [|reflexivity].
    apply has_column_In in E. contradiction.
Qed.

Lemma tickets_per_order_needs_columns_witness :
  has_column "order_id" orders_three = true
  /\ has_column "order_id" tickets_three = true
  /\ xorb (has_column "ticket_id" orders_three) (has_column "ticket_id" tickets_three) = true.
Proof.
  apply (tickets_per_order_needs_columns orders_three tickets_three
           (mkDataFrame ["order_id"; "number_of_tickets"]
              [[VStr "ORD-001"; VInt 2]; [VStr "ORD-002"; VInt 1]])).
  reflexivity.
Defined.

(** Both tables with a [ticket_id] column: the node raises. *)
Example tickets_per_order_two_ticket_ids :
  create_tickets_per_order
    (mkDataFrame ["order_id"; "ticket_id"] [[VStr "ORD-001"; VStr "TCK-001"]])
    tickets_one
  = Raise KeyError.
Proof. reflexivity. Qed.
(** ** Texts of [_safe_serialize] and the values they stand for *)

(** Two values with the same key-sorted form have the same structure. *)
Lemma canon_eq_equiv (v1 : value) :
  forall v2, canon v1 = canon v2 -> value_equiv v1 v2.
Proof.
  induction v1 as [| | b | z | f | s | t | l IH | d IH] using value_ind;
    intros v2 H.
  - destruct v2; simpl in H; try discriminate. apply equiv_same.
  - destruct v2; simpl in H; try discriminate. apply equiv_same.
  - destruct v2; simpl in H; try discriminate. injection H as <-. apply equiv_same.
  - destruct v2; simpl in H; try discriminate. injection H as <-. apply equiv_same.
  - destruct v2; simpl in H; try discriminate. injection H as <-. apply equiv_same.
  - destruct v2; simpl in H; try discriminate. injection H as <-. apply equiv_same.
  - destruct v2; simpl in H; try discriminate. injection H as <-. apply equiv_same.
  - destruct v2 as [| | | | | | | l0 |]; simpl in H; try discriminate.
    injection H as H. apply equiv_list. revert l0 H.
    induction IH as [|x l Hx _ IHl]; intros [|y l0] H; simpl in H; try discriminate.
    + constructor.
    + injection H as Hxy Hl. constructor; auto.
  - destruct v2 as [| | | | | | | | d0]; simpl in H; try discriminate.
    injection H as H.
    set (ci := fun kv : string * value => (fst kv, canon (snd kv))) in *.
    assert (Hp : Permutation (map ci d) (map ci d0)).
    { rewrite (sort_items_perm (map ci d)), H. symmetry. apply sort_items_perm. }
    apply Permutation_map_inv in Hp as (d3 & Hmap & Hp).
    apply (equiv_dict d d0 d3); [|now symmetry].
    clear H Hp. revert d3 Hmap.
    induction IH as [|x l Hx _ IHl]; intros [|y d3] Hmap; simpl in Hmap; try discriminate.
    + constructor.
    + injection Hmap as Hk Hv Hl. constructor; auto.
Qed.

(** The text of a nested value that [json.dumps] can encode, and what it
    reads back as. *)
Lemma safe_serialize_decodes (v : value) :
  is_nested v = true ->
  json_serializable v = true ->
  distinct_keys v = true ->
  floats_readable v = true ->
  exists s, _safe_serialize v = VStr s /\ json_loads s = Ok (canon v).
Proof.
  intros Hn Hs Hd Hf.
  destruct (json_dumps_serializable v Hs) as [s Hdumps].
  exists s. split.
  - unfold _safe_serialize. now rewrite Hn, Hdumps.
  - apply json_loads_render.
    + now rewrite canon_floats_readable.
    + apply keys_sorted_distinct. now apply canon_keys_sorted.
    + now rewrite <- json_dumps_render.
Qed.

(** X13.  Two nested values that [json.dumps] can encode get the same text exactly
    when they have the same structure up to the order of dict keys: the
    deduplication neither keeps two tags apart for their key order nor takes
    two different tags for one. *)
Theorem safe_serialize_same_text_iff (x y : value) :
  is_nested x = true -> is_nested y = true ->
  json_serializable x = true -> json_serializable y = true ->
  distinct_keys x = true -> distinct_keys y = true ->
  floats_readable x = true -> floats_readable y = true ->
  (_safe_serialize x = _safe_serialize y <-> value_equiv x y).
Proof.
  intros Hnx Hny Hsx Hsy Hdx Hdy Hfx Hfy. split.
  - intros Heq.
    destruct (safe_serialize_decodes x Hnx Hsx Hdx Hfx) as (sx & Hx & Hlx).
    destruct (safe_serialize_decodes y Hny Hsy Hdy Hfy) as (sy & Hy & Hly).
    rewrite Hx, Hy in Heq. injection Heq as <-.
    rewrite Hlx in Hly. injection Hly as Hc. now apply canon_eq_equiv.
  - intros He.
    destruct (safe_serialize_same x y He Hnx Hdx Hsx) as (s & Hx & Hy & _).
    now rewrite Hx, Hy.
Qed.

Lemma safe_serialize_same_text_iff_witness :
  _safe_serialize tags_ab = _safe_serialize tags_ba <-> value_equiv tags_ab tags_ba.
Proof.
  apply (safe_serialize_same_text_iff tags_ab tags_ba); reflexivity.
Defined.

(** ** The cells of the cleaned tickets *)


(** ** [clean_orders] and the other columns *)

Lemma subsequence_length {A} (l1 l2 : list A) :
  subsequence l1 l2 -> (List.length l1 <= List.length l2)%nat.
Proof. induction 1; simpl; lia. Qed.

Lemma drop_duplicates_subsequence (df d : DataFrame) :
  drop_duplicates df = Ok d -> subsequence (rows d) (rows df).
Proof.
  unfold drop_duplicates. destruct (frame_empty df).
  - intros [= <-]. apply subsequence_refl.
  - destruct (forallb _ _); [|discriminate]. intros [= <-]. apply dedup_subsequence.
Qed.

Lemma orders_before_parsing_subsequence (orders kept : DataFrame) :
  orders_before_parsing orders = Ok kept -> subsequence (rows kept) (rows orders).
Proof.
  unfold orders_before_parsing.
  set (renamed := if has_column "id" orders then _ else _).
  assert (Hr : rows renamed = rows orders)
    by (subst renamed; destruct (has_column "id" orders); reflexivity).
  destruct (drop_duplicates renamed) as [d|] eqn:Hd; simpl; [|discriminate].
  intros [= <-]. simpl. rewrite <- Hr.
  eapply subsequence_trans; [apply filter_subsequence|].
  now apply drop_duplicates_subsequence.
Qed.

Lemma subsequence_In {A} (l1 l2 : list A) (x : A) :
  subsequence l1 l2 -> In x l1 -> In x l2.
Proof. induction 1; simpl; intuition. Qed.

Lemma orders_before_parsing_no_nulls (orders kept : DataFrame) :
  orders_before_parsing orders = Ok kept -> no_nulls kept.
Proof.
  unfold orders_before_parsing.
  destruct (drop_duplicates _) as [d|]; simpl; [|discriminate].
  intros [= <-]. apply dropna_no_nulls.
Qed.

Lemma In_set_cells (i : nat) (vals : list value) (rs : list (list value)) (r' : list value) :
  In r' (set_cells i vals rs) -> exists r v, In r rs /\ r' = set_cell i v r.
Proof.
  revert rs. induction vals as [|v vals IH]; intros [|r rs]; simpl; try contradiction.
  intros [<- | H].
  - exists r, v. auto.
  - destruct (IH rs H) as (r0 & v0 & Hin & ->). exists r0, v0. auto.
Qed.

Lemma length_set_cells (i : nat) (vals : list value) (rs : list (list value)) :
  List.length vals = List.length rs -> List.length (set_cells i vals rs) = List.length rs.
Proof.
  revert rs. induction vals as [|v vals IH]; intros [|r rs]; simpl; try discriminate; auto.
Qed.

(** X15.  [clean_orders] rewrites the [ordered_at] column and nothing else of the
    rows it keeps: every cleaned row is a raw row with its [ordered_at] cell
    replaced, no cell outside [ordered_at] is missing, and there are no more
    cleaned rows than raw ones.  So a missing cell of the cleaned orders can
    only be a date. *)
Theorem clean_orders_touches_only_ordered_at
    (to_datetime : list value -> result (list value)) (orders out : DataFrame) :
  clean_orders to_datetime orders = Ok out ->
  exists i,
    index_of "ordered_at" (columns out) = Some i
    /\ (List.length (rows out) <= List.length (rows orders))%nat
    /\ forall r', In r' (rows out) ->
       exists r,
         In r (rows orders)
         /\ List.length r' = List.length r
         /\ (forall j, j <> i -> cell j r' = cell j r)
         /\ (forall j, (j < List.length r)%nat -> j <> i -> isna (cell j r') = false).
Proof.
  rewrite clean_orders_steps.
  destruct (orders_before_parsing orders) as [kept|] eqn:Hk; simpl; [|discriminate].
  destruct (get_column "ordered_at" kept) as [col|] eqn:Hg; simpl; [|discriminate].
  destruct (to_datetime col) as [parsed|]; simpl; [|discriminate].
  intros Hset. unfold get_column in Hg.
  destruct (index_of "ordered_at" (columns kept)) as [i|] eqn:Hi; [|discriminate].
  destruct (set_column_existing _ _ _ _ _ Hi Hset) as (Hc & Hr & Hl).
  pose proof (orders_before_parsing_subsequence _ _ Hk) as Hsub.
  pose proof (orders_before_parsing_no_nulls _ _ Hk) as Hnn.
  exists i. split; [now rewrite Hc|]. split.
  - rewrite Hr, length_set_cells by assumption. now apply subsequence_length.
  - intros r' Hr'. rewrite Hr in Hr'. apply In_set_cells in Hr' as (r & v & Hin & ->).
    exists r. split; [eapply subsequence_In; eassumption|].
    split; [apply length_set_cell|]. split.
    + intros j Hj. apply cell_set_cell_other. auto.
    + intros j Hlt Hj. rewrite cell_set_cell_other by auto.
      unfold no_nulls in Hnn. rewrite Forall_forall in Hnn.
      specialize (Hnn r Hin). rewrite Forall_forall in Hnn.
      apply Hnn. unfold cell. now apply nth_In.
Qed.

Lemma clean_orders_touches_only_ordered_at_witness :
  exists i,
    index_of "ordered_at" (columns cleaned_orders_2024) = Some i
    /\ (List.length (rows cleaned_orders_2024) <= List.length (rows orders_2024))%nat
    /\ forall r', In r' (rows cleaned_orders_2024) ->
       exists r,
         In r (rows orders_2024)
         /\ List.length r' = List.length r
         /\ (forall j, j <> i -> cell j r' = cell j r)
         /\ (forall j, (j < List.length r)%nat -> j <> i -> isna (cell j r') = false).
Proof.
  apply (clean_orders_touches_only_ordered_at iso_to_datetime orders_2024 cleaned_orders_2024).
  reflexivity.
Defined.

(** ** The cleaning nodes feeding the reporting nodes *)

Lemma clean_orders_keeps_columns
    (to_datetime : list value -> result (list value)) (orders out : DataFrame) :
  has_column "id" orders = false ->
  clean_orders to_datetime orders = Ok out ->
  columns out = columns orders.
Proof.
  intros Hid. rewrite clean_orders_steps.
  destruct (orders_before_parsing orders) as [kept|] eqn:Hk; simpl; [|discriminate].
  destruct (get_column "ordered_at" kept) as [col|] eqn:Hg; simpl; [|discriminate].
  destruct (to_datetime col) as [parsed|]; simpl; [|discriminate].
  intros Hset. unfold get_column in Hg.
  destruct (index_of "ordered_at" (columns kept)) as [i|] eqn:Hi; [|discriminate].
  destruct (set_column_existing _ _ _ _ _ Hi Hset) as (Hc & _ & _).
  rewrite Hc, (orders_before_parsing_columns _ _ Hk), Hid. reflexivity.
Qed.

(** X16.  The rename is what lets the reporting join work: raw orders with
    neither an [id] nor an [order_id] column are cleaned without complaint,
    and [create_tickets_per_order] then raises [KeyError] on the cleaned
    table, whatever the tickets. *)
Theorem orders_without_id_break_the_join
    (to_datetime : list value -> result (list value))
    (orders cleaned tickets : DataFrame) :
  has_column "id" orders = false ->
  has_column "order_id" orders = false ->
  clean_orders to_datetime orders = Ok cleaned ->
  create_tickets_per_order cleaned tickets = Raise KeyError.
Proof.
  intros Hid Hoid Hrun.
  pose proof (clean_orders_keeps_columns _ _ _ Hid Hrun) as Hc.
  apply has_column_false_index in Hoid.
  unfold create_tickets_per_order, merge. rewrite Hc, Hoid. reflexivity.
Qed.

Lemma orders_without_id_break_the_join_witness :
  create_tickets_per_order
    (mkDataFrame ["ordered_at"; "subtotal"]
       [[VTimestamp (mkTimestamp 2024 1 1 0 0 0 0); VInt 100]])
    tickets_three
  = Raise KeyError.
Proof.
  apply (orders_without_id_break_the_join iso_to_datetime
           (mkDataFrame ["ordered_at"; "subtotal"] [[VStr "2024-01-01"; VInt 100]]));
    reflexivity.
Defined.

Lemma index_of_inj (a b : string) (l : list string) (i : nat) :
  index_of a l = Some i -> index_of b l = Some i -> a = b.
Proof.
  revert i. induction l as [|c l IH]; intros i; simpl; [discriminate|].
  destruct (String.eqb a c) eqn:Ea, (String.eqb b c) eqn:Eb.
  - apply String.eqb_eq in Ea, Eb. congruence.
  - intros [= <-]. destruct (index_of b l); discriminate.
  - intros H [= <-]. destruct (index_of a l); discriminate.
  - destruct (index_of a l) as [ia|] eqn:Ha; [|discriminate].
    destruct (index_of b l) as [ib|] eqn:Hb; [|discriminate].
    intros [= <-] [= ->]. eauto.
Qed.

Lemma rows_with_pos (i : nat) (k : value) (rs : list (list value)) :
  Forall (fun r => plain_key (cell i r) = true) rs ->
  In k (map (cell i) rs) -> 1 <= rows_with i k rs.
Proof.
  intros Hp Hin. apply in_map_iff in Hin as (r & <- & Hr). unfold rows_with.
  assert (Hin : In r (filter (fun r0 => cell_eqb (cell i r0) (cell i r)) rs)).
  { apply filter_In. split; [assumption|]. rewrite Forall_forall in Hp.
    apply cell_eqb_plain; auto. }
  destruct (filter _ rs); [contradiction | simpl List.length; lia].
Qed.

(** The cell of a plain key column in a prepared row is the raw cell. *)
Lemma prepared_row_plain_cell (tags : option nat) (j : nat) (r : list value) :
  tags <> Some j -> plain_key (cell j r) = true ->
  cell j (prepared_row tags r) = cell j r.
Proof.
  intros Ht Hp. unfold prepared_row.
  assert (Hm : cell j (map _safe_serialize r) = cell j r).
  { destruct (Nat.lt_ge_cases j (List.length r)) as [Hlt | Hge].
    - rewrite cell_map by assumption.
      apply _safe_serialize_scalar. now apply plain_key_hashable.
    - unfold cell. rewrite !nth_overflow; [reflexivity | assumption | now rewrite length_map]. }
  destruct tags as [i|]; [|exact Hm].
  rewrite cell_set_cell_other; [exact Hm|]. intros ->. now apply Ht.
Qed.

(** X17.  Downstream of [clean_tickets] no count is 0.  Whatever the raw tickets
    (the [order_id] cells of both tables being of one kind), the cleaned
    tickets
    have no missing [ticket_id], so [create_tickets_per_order] on them
    counts, for each [order_id] of both tables, the order rows with it times
    the cleaned ticket rows with it, which is at least 1. *)
Theorem cleaned_tickets_are_all_counted
    (orders tickets : DataFrame) (oi ti tid : nat) :
  index_of "order_id" (columns orders) = Some oi ->
  index_of "order_id" (columns tickets) = Some ti ->
  index_of "ticket_id" (columns tickets) = Some tid ->
  has_column "ticket_id" orders = false ->
  wf_frame orders ->
  wf_frame tickets ->
  one_kind (map (cell oi) (rows orders) ++ map (cell ti) (rows tickets))%list ->
  exists cleaned out,
    clean_tickets tickets = Ok cleaned
    /\ create_tickets_per_order orders cleaned = Ok out
    /\ forall row, In row (rows out) ->
       exists k n,
         row = [k; VInt n]
         /\ n = rows_with oi k (rows orders) * rows_with ti k (rows cleaned)
         /\ 1 <= n.
Proof.
  intros Hoi Hti Htid Hno Hwf Hwft Hkind.
  destruct (one_kind_plain _ _ _ _ Hkind) as [HkL HkR].
  destruct (clean_tickets_facts tickets) as (cleaned & Hrun & Hc & _ & Hnn & _ & Hrows).
  assert (Hlen : forall r, In r (rows tickets) ->
                           List.length r = List.length (columns tickets)).
  { unfold wf_frame in Hwft. rewrite Forall_forall in Hwft. exact Hwft. }
  assert (Htags : index_of "tags" (columns tickets) <> Some ti).
  { intros Ht. pose proof (index_of_inj _ _ _ _ Ht Hti). discriminate. }
  assert (HkR' : Forall (fun r => plain_key (cell ti r) = true) (rows cleaned)).
  { apply Forall_forall. intros r' Hr'. destruct (Hrows r' Hr') as (r & Hr & ->).
    rewrite Forall_forall in HkR.
    rewrite prepared_row_plain_cell; auto. }
  assert (Hna : Forall (fun r => isna (cell tid r) = false) (rows cleaned)).
  { apply Forall_forall. intros r' Hr'.
    unfold no_nulls in Hnn. rewrite Forall_forall in Hnn. specialize (Hnn r' Hr').
    rewrite Forall_forall in Hnn. apply Hnn. unfold cell. apply nth_In.
    destruct (Hrows r' Hr') as (r & Hr & ->).
    rewrite length_prepared_row, (Hlen r Hr). eapply index_of_lt. eassumption. }
  rewrite <- Hc in Hti, Htid.
  destruct (tickets_per_order_rows orders cleaned oi ti tid Hoi Hti Htid Hno Hwf HkL HkR')
    as (Hout & _ & _ & Hkin).
  exists cleaned. eexists. split; [exact Hrun|]. split; [exact Hout|].
  simpl. intros row Hrow. apply in_map_iff in Hrow as (k & <- & Hk).
  apply Hkin in Hk as [Hk1 Hk2].
  assert (Hcnt : counted_rows ti tid k (rows cleaned) = rows_with ti k (rows cleaned)).
  { unfold counted_rows, rows_with. do 2 f_equal. apply filter_ext_in.
    intros r Hr. rewrite Forall_forall in Hna. rewrite (Hna r Hr). apply andb_true_r. }
  exists k. eexists. split; [reflexivity|]. rewrite Hcnt. split; [reflexivity|].
  pose proof (rows_with_pos oi k (rows orders) HkL Hk1).
  pose proof (rows_with_pos ti k (rows cleaned) HkR' Hk2).
  nia.
Qed.

Lemma cleaned_tickets_are_all_counted_witness :
  exists cleaned out,
    clean_tickets tickets_null_id = Ok cleaned
    /\ create_tickets_per_order orders_three cleaned = Ok out
    /\ forall row, In row (rows out) ->
       exists k n,
         row = [k; VInt n]
         /\ n = rows_with 0 k (rows orders_three) * rows_with 1 k (rows cleaned)
         /\ 1 <= n.
Proof.
  apply (cleaned_tickets_are_all_counted orders_three tickets_null_id 0 1 0).
  - reflexivity.
  - reflexivity.
  - reflexivity.
  - reflexivity.
  - repeat constructor.
  - repeat constructor.
  - left. repeat constructor.
Defined.

(** The tickets without a [ticket_id] are gone after the cleaning, and with
    them the row whose count was 0. *)
Example cleaned_tickets_counts_run :
  (cleaned <- clean_tickets tickets_null_id ;; create_tickets_per_order orders_three cleaned)
  = Ok (mkDataFrame ["order_id"; "number_of_tickets"] [[VStr "ORD-001"; VInt 1]]).
Proof. reflexivity. Qed.
(** ** When the cleaned orders do satisfy the invariants *)

Lemma orders_before_parsing_NoDup (orders kept : DataFrame) :
  orders_before_parsing orders = Ok kept -> columns kept <> [] -> NoDup (rows kept).
Proof.
  unfold orders_before_parsing.
  destruct (drop_duplicates _) as [d|] eqn:Hd; simpl; [|discriminate].
  intros [= <-]. simpl. intros Hc. apply NoDup_filter.
  unfold drop_duplicates in Hd. destruct (frame_empty _) eqn:He.
  - injection Hd as <-. unfold frame_empty in He.
    destruct (columns _); [congruence|].
    destruct (rows _); [constructor | discriminate].
  - destruct (forallb _ _) eqn:Hh; [|discriminate]. injection Hd as <-. simpl.
    apply dedup_NoDup. now apply forallb_Forall.
Qed.

Lemma nth_set_cells (i p : nat) (vals : list value) (rs : list (list value)) :
  List.length vals = List.length rs -> (p < List.length rs)%nat ->
  nth p (set_cells i vals rs) [] = set_cell i (nth p vals VNone) (nth p rs []).
Proof.
  revert p rs. induction vals as [|v vals IH]; intros p [|r rs]; simpl; try discriminate; try lia.
  intros [= Hl] Hp. destruct p as [|p]; [reflexivity|]. apply IH; [assumption | lia].
Qed.

Lemma Forall_set_cell (P : value -> Prop) (i : nat) (v : value) (r : list value) :
  P v -> Forall P r -> Forall P (set_cell i v r).
Proof.
  intros Hv Hr. revert i. induction Hr as [|x r Hx Hr IH]; intros [|i]; simpl;
    constructor; auto.
Qed.

(** X18.  The invariants of a cleaned table hold of the cleaned orders under two
    conditions on what the date parser returned for the rows kept: the
    table has no missing cell if no date was read as [NaT], and no two equal
    rows if rows with different raw dates got different parsed dates. *)
Theorem clean_orders_invariants
    (to_datetime : list value -> result (list value))
    (orders kept out : DataFrame) (raw parsed : list value) :
  wf_frame orders ->
  orders_before_parsing orders = Ok kept ->
  get_column "ordered_at" kept = Ok raw ->
  to_datetime raw = Ok parsed ->
  clean_orders to_datetime orders = Ok out ->
  (Forall (fun v => isna v = false) parsed -> no_nulls out)
  /\ ((forall p q, (p < List.length raw)%nat -> (q < List.length raw)%nat ->
         nth p parsed VNone = nth q parsed VNone -> nth p raw VNone = nth q raw VNone) ->
      no_duplicate_rows out).
Proof.
  intros Hwf Hk Hg Hp. rewrite clean_orders_steps, Hk. simpl. rewrite Hg. simpl.
  rewrite Hp. simpl. intros Hset. unfold get_column in Hg.
  destruct (index_of "ordered_at" (columns kept)) as [i|] eqn:Hi; [|discriminate].
  injection Hg as <-.
  destruct (set_column_existing _ _ _ _ _ Hi Hset) as (Hc & Hr & Hl).
  pose proof (orders_before_parsing_wf _ _ Hwf Hk) as Hwfk.
  pose proof (orders_before_parsing_no_nulls _ _ Hk) as Hnn.
  split.
  - intros Hna. unfold no_nulls. rewrite Hr. apply Forall_forall. intros r' Hr'.
    apply In_nth with (d := []) in Hr' as (p & Hp' & <-).
    rewrite length_set_cells in Hp' by assumption.
    rewrite nth_set_cells by assumption.
    apply Forall_set_cell.
    + rewrite Forall_forall in Hna. apply Hna. apply nth_In. now rewrite Hl.
    + unfold no_nulls in Hnn. rewrite Forall_forall in Hnn. apply Hnn. now apply nth_In.
  - intros Hinj. unfold no_duplicate_rows. rewrite Hr.
    assert (Hnd : NoDup (rows kept)).
    { apply (orders_before_parsing_NoDup _ _ Hk). intros Hnil. now rewrite Hnil in Hi. }
    apply (NoDup_nth _ []). intros p q Hp' Hq' Heq.
    rewrite length_set_cells in Hp', Hq' by assumption.
    rewrite !nth_set_cells in Heq by assumption.
    apply (proj1 (NoDup_nth _ []) Hnd); try assumption.
    set (rp := nth p (rows kept) []) in *. set (rq := nth q (rows kept) []) in *.
    assert (Hlp : List.length rp = List.length (columns kept)).
    { unfold wf_frame in Hwfk. rewrite Forall_forall in Hwfk. apply Hwfk. now apply nth_In. }
    assert (Hlq : List.length rq = List.length (columns kept)).
    { unfold wf_frame in Hwfk. rewrite Forall_forall in Hwfk. apply Hwfk. now apply nth_In. }
    assert (Hilt : (i < List.length (columns kept))%nat) by (eapply index_of_lt; eassumption).
    apply cells_ext; [congruence|]. intros j Hj.
    destruct (Nat.eq_dec j i) as [-> | Hne].
    + assert (Hv : nth p parsed VNone = nth q parsed VNone).
      { rewrite <- (cell_set_cell i (nth p parsed VNone) rp) by lia.
        rewrite <- (cell_set_cell i (nth q parsed VNone) rq) by lia.
        now rewrite Heq. }
      rewrite length_map in Hinj.
      specialize (Hinj p q Hp' Hq' Hv).
      assert (Hnth : forall n, (n < List.length (rows kept))%nat ->
                nth n (map (cell i) (rows kept)) VNone = cell i (nth n (rows kept) [])).
      { intros n Hn. rewrite (nth_indep _ VNone (cell i [])) by now rewrite length_map.
        apply map_nth. }
      now rewrite !Hnth in Hinj by assumption.
    + rewrite <- (cell_set_cell_other i j (nth p parsed VNone) rp) by auto.
      rewrite <- (cell_set_cell_other i j (nth q parsed VNone) rq) by auto.
      now rewrite Heq.
Qed.

Lemma clean_orders_invariants_witness :
  (Forall (fun v => isna v = false)
     [VTimestamp (mkTimestamp 2024 1 1 0 0 0 0); VTimestamp (mkTimestamp 2024 1 2 0 0 0 0)] ->
   no_nulls cleaned_orders_2024)
  /\ ((forall p q, (p < List.length [VStr "2024-01-01"; VStr "2024-01-02"])%nat ->
         (q < List.length [VStr "2024-01-01"; VStr "2024-01-02"])%nat ->
         nth p [VTimestamp (mkTimestamp 2024 1 1 0 0 0 0);
                VTimestamp (mkTimestamp 2024 1 2 0 0 0 0)] VNone
         = nth q [VTimestamp (mkTimestamp 2024 1 1 0 0 0 0);
                  VTimestamp (mkTimestamp 2024 1 2 0 0 0 0)] VNone ->
         nth p [VStr "2024-01-01"; VStr "2024-01-02"] VNone
         = nth q [VStr "2024-01-01"; VStr "2024-01-02"] VNone) ->
      no_duplicate_rows cleaned_orders_2024).
Proof.
  apply (clean_orders_invariants iso_to_datetime orders_2024
           (mkDataFrame ["order_id"; "ordered_at"; "subtotal"]
              [[VStr "ORD-001"; VStr "2024-01-01"; VInt 100];
               [VStr "ORD-002"; VStr "2024-01-02"; VInt 150]])
           cleaned_orders_2024
           [VStr "2024-01-01"; VStr "2024-01-02"]
           [VTimestamp (mkTimestamp 2024 1 1 0 0 0 0);
            VTimestamp (mkTimestamp 2024 1 2 0 0 0 0)]).
  - repeat constructor.
  - reflexivity.
  - reflexivity.
  - reflexivity.
  - reflexivity.
Defined.
(** ** The JSON text is printable ASCII *)

Lemma printable_app (a b : string) :
  printable_ascii (a ++ b) = printable_ascii a && printable_ascii b.
Proof.
  induction a as [|c a IH]; simpl; [reflexivity|]. now rewrite IH, andb_assoc.
Qed.

Lemma printable_json_escape_char (c : ascii) : printable_ascii (json_escape_char c) = true.
Proof. destruct c as [[] [] [] [] [] [] [] []]; reflexivity. Qed.

Lemma printable_json_string (s : string) : printable_ascii (json_string s) = true.
Proof.
  unfold json_string. change (String dquote ?x) with (String dquote "" ++ x).
  simpl. rewrite printable_app. simpl. rewrite andb_true_r.
  induction s as [|c s IH]; simpl; [reflexivity|].
  now rewrite printable_app, printable_json_escape_char, IH.
Qed.

Lemma printable_uint (u : Decimal.uint) :
  printable_ascii (DecimalString.NilEmpty.string_of_uint u) = true.
Proof. induction u; simpl; auto. Qed.

Lemma printable_int_str (z : Z) : printable_ascii (int_str z) = true.
Proof.
  unfold int_str, DecimalString.NilZero.string_of_int, DecimalString.NilZero.string_of_uint.
  destruct (Z.to_int z) as [u | u]; destruct u; simpl; auto using printable_uint;
    try apply (printable_uint (Decimal.D0 _)).
Qed.

Lemma printable_repeat_zero (n : nat) : printable_ascii (repeat_char "0" n) = true.
Proof. induction n; simpl; auto. Qed.

Lemma printable_substring (n m : nat) (s : string) :
  printable_ascii s = true -> printable_ascii (substring n m s) = true.
Proof.
  revert n m. induction s as [|c s IH]; intros n m H.
  - destruct n, m; reflexivity.
  - simpl in H. apply andb_prop in H as [Hc Hs].
    destruct n as [|n].
    + destruct m as [|m]; simpl; [reflexivity|]. now rewrite Hc, IH.
    + simpl. now apply IH.
Qed.

Lemma printable_string_drop (n : nat) (s : string) :
  printable_ascii s = true -> printable_ascii (string_drop n s) = true.
Proof. apply printable_substring. Qed.

Lemma printable_of_list (l : list ascii) :
  printable_ascii (string_of_list_ascii l)
  = forallb (fun c => ((32 <=? N_of_ascii c) && (N_of_ascii c <? 127))%N) l.
Proof. induction l as [|c l IH]; simpl; [reflexivity | now rewrite IH]. Qed.

Lemma printable_to_list (s : string) :
  forallb (fun c => ((32 <=? N_of_ascii c) && (N_of_ascii c <? 127))%N)
          (list_ascii_of_string s)
  = printable_ascii s.
Proof. induction s as [|c s IH]; simpl; [reflexivity | now rewrite IH]. Qed.

Lemma forallb_rev {A} (f : A -> bool) (l : list A) : forallb f (List.rev l) = forallb f l.
Proof.
  induction l as [|x l IH]; simpl; [reflexivity|].
  rewrite forallb_app, IH. simpl. rewrite andb_true_r. apply andb_comm.
Qed.

Lemma forallb_strip_zeros (f : ascii -> bool) (l : list ascii) :
  forallb f l = true -> forallb f (strip_zeros_rev l) = true.
Proof.
  induction l as [|c l IH]; simpl; [reflexivity|]. intros H.
  apply andb_prop in H as [Hc Hl].
  destruct c as [[] [] [] [] [] [] [] []]; simpl; rewrite ?Hc, ?Hl; auto.
Qed.

Lemma printable_strip_trailing_zeros (s : string) :
  printable_ascii s = true -> printable_ascii (strip_trailing_zeros s) = true.
Proof.
  intros H. unfold strip_trailing_zeros.
  rewrite printable_of_list, forallb_rev. apply forallb_strip_zeros.
  now rewrite forallb_rev, printable_to_list.
Qed.

Lemma printable_pad_int (w : nat) (z : Z) : printable_ascii (pad_int w z) = true.
Proof.
  unfold pad_int. now rewrite printable_app, printable_repeat_zero, printable_int_str.
Qed.

Lemma printable_format_float (digits : string) (decpt : Z) :
  printable_ascii digits = true -> printable_ascii (format_float digits decpt) = true.
Proof.
  intros H. unfold format_float.
  destruct ((-4 <? decpt) && (decpt <=? 16)).
  - destruct (decpt <=? 0); [|destruct (_ <=? decpt)].
    + change "0." with (String "0" (String "." "")). simpl.
      now rewrite printable_app, printable_repeat_zero, H.
    + now rewrite !printable_app, H, printable_repeat_zero.
    + rewrite !printable_app, printable_substring, printable_string_drop by assumption.
      reflexivity.
  - rewrite !printable_app, printable_substring, printable_pad_int by assumption.
    simpl. rewrite andb_true_r.
    destruct (1 <? _); destruct (_ <? 0); simpl;
      rewrite ?printable_app, ?printable_string_drop by assumption; reflexivity.
Qed.

Lemma printable_float_repr (f : spec_float) : printable_ascii (float_repr f) = true.
Proof.
  destruct f as [s | s | | s m e]; simpl.
  - now destruct s.
  - now destruct s.
  - reflexivity.
  - unfold float_digits. destruct (shortest m e 17 1) as [k c].
    rewrite printable_app, printable_format_float.
    + now destruct s.
    + apply printable_strip_trailing_zeros, printable_int_str.
Qed.

Lemma printable_json_float (f : spec_float) : printable_ascii (json_float f) = true.
Proof.
  destruct f as [s | s | | s m e]; try apply printable_float_repr.
  - now destruct s.
  - reflexivity.
Qed.

Lemma printable_join (items : list string) :
  Forall (fun s => printable_ascii s = true) items ->
  printable_ascii (join ", " items) = true.
Proof.
  induction 1 as [|x l Hx Hl IH]; [reflexivity|].
  rewrite join_cons, printable_app, Hx. destruct l; [reflexivity|].
  now rewrite printable_app, IH.
Qed.

Lemma printable_json_items (l : list (string * result string)) (items : list string) :
  Forall (fun km => forall s, snd km = Ok s -> printable_ascii s = true) l ->
  json_items l = Ok items ->
  Forall (fun s => printable_ascii s = true) items.
Proof.
  intros H. revert items. induction H as [|[k m] l Hm _ IH]; simpl; intros items.
  - intros [= <-]. constructor.
  - destruct m as [s|]; simpl; [|discriminate].
    destruct (json_items l) as [rest|]; simpl; [|discriminate].
    intros [= <-]. constructor; [|now apply IH].
    change (printable_ascii (json_string k ++ ": " ++ s) = true).
    rewrite !printable_app, printable_json_string. simpl. now apply Hm.
Qed.

Lemma printable_json_render (v : value) :
  forall s, json_render v = Ok s -> printable_ascii s = true.
Proof.
  induction v as [| | b | z | f | s0 | t | l IH | d IH] using value_ind;
    simpl; intros s; try discriminate.
  - now intros [= <-].
  - intros [= <-]. now destruct b.
  - intros [= <-]. apply printable_int_str.
  - intros [= <-]. apply printable_json_float.
  - intros [= <-]. apply printable_json_string.
  - destruct (mapM json_render l) as [items|] eqn:Hm; simpl; [|discriminate].
    intros [= <-]. change (printable_ascii ("[" ++ join ", " items ++ "]") = true).
    rewrite !printable_app, printable_join; [reflexivity|].
    revert items Hm.
    induction IH as [|x l Hx _ IHl]; simpl; intros items.
    + intros [= <-]. constructor.
    + destruct (json_render x) as [sx|]; simpl; [|discriminate].
      destruct (mapM json_render l) as [rest|]; simpl; [|discriminate].
      intros [= <-]. constructor; auto.
  - destruct (json_items _) as [items|] eqn:Hm; simpl; [|discriminate].
    intros [= <-]. change (printable_ascii ("{" ++ join ", " items ++ "}") = true).
    rewrite !printable_app, printable_join; [reflexivity|].
    eapply printable_json_items; [|exact Hm].
    apply Forall_forall. intros km Hkm. apply in_map_iff in Hkm as (kv & <- & Hkv).
    simpl. rewrite Forall_forall in IH. now apply IH.
Qed.

(** X19.  The text [_safe_serialize] gives a list or dict that [json.dumps] can
    encode is printable ASCII, whatever characters the strings in the value
    hold ([json.dumps] escapes the others): one line, no control character. *)
Theorem safe_serialize_printable_ascii (v : value) :
  is_nested v = true ->
  json_serializable v = true ->
  exists s, _safe_serialize v = VStr s /\ printable_ascii s = true.
Proof.
  intros Hn Hs. destruct (json_dumps_serializable v Hs) as [s Hd].
  exists s. split.
  - unfold _safe_serialize. now rewrite Hn, Hd.
  - apply (printable_json_render (canon v)). now rewrite <- json_dumps_render.
Qed.

Lemma safe_serialize_printable_ascii_witness :
  exists s,
    _safe_serialize (VList [VStr (String "010" (String "233" "t")); VFloat S754_nan]) = VStr s
    /\ printable_ascii s = true.
Proof.
  apply (safe_serialize_printable_ascii
           (VList [VStr (String "010" (String "233" "t")); VFloat S754_nan]));
    reflexivity.
Defined.

(** A line break and an accented letter inside a tag come out escaped. *)
Example safe_serialize_escapes :
  _safe_serialize (VList [VStr (String "010" (String "233" "t"))])
  = VStr ("[" ++ String dquote ("\n\u00e9t" ++ String dquote "]")).
Proof. reflexivity. Qed.
(** *** The order of the rows does not matter *)

Lemma length_filter_perm {A} (f : A -> bool) (l l' : list A) :
  Permutation l l' -> List.length (filter f l) = List.length (filter f l').
Proof.
  induction 1 as [|x l l' _ IH|x y l|l l' l'' _ IH1 _ IH2]; simpl.
  - reflexivity.
  - destruct (f x); simpl; now rewrite IH.
  - destruct (f x), (f y); reflexivity.
  - now rewrite IH1.
Qed.

Lemma sort_values_strings_perm (U U' : list value) :
  Forall (fun v => is_str v = true) U ->
  NoDup U -> Permutation U U' -> sort_values U = sort_values U'.
Proof.
  intros HU Hnd Hp.
  assert (HU' : Forall (fun v => is_str v = true) U')
    by (eapply Permutation_Forall; eassumption).
  destruct (strings_of U HU) as [us ->]. destruct (strings_of U' HU') as [us' ->].
  rewrite !sort_values_strings. do 2 f_equal.
  assert (Hinj : forall a b : string, VStr a = VStr b -> a = b) by (intros a b [= ->]; reflexivity).
  assert (Hnd' : NoDup us) by (eapply NoDup_map_inv; eassumption).
  assert (Hpu : Permutation us us').
  { apply Permutation_map_inv in Hp as (l3 & Hl3 & Hp3).
    assert (us = l3).
    { clear -Hl3 Hinj. revert l3 Hl3. induction us as [|a us IH]; intros [|b l3] H;
        simpl in H; try discriminate; [reflexivity|].
      injection H as -> H. f_equal. auto. }
    subst l3. now symmetry. }
  apply sort_items_permutation.
  - now apply Permutation_map.
  - rewrite map_map. simpl. now rewrite map_id.
Qed.

(** X20.  [create_tickets_per_order] does not depend on the order of the rows of
    either table (the [order_id] cells being strings): the keys are sorted
    and the counts are numbers of rows. *)
Theorem tickets_per_order_ignores_row_order
    (orders orders' tickets tickets' : DataFrame) (oi ti tid : nat) :
  index_of "order_id" (columns orders) = Some oi ->
  index_of "order_id" (columns tickets) = Some ti ->
  index_of "ticket_id" (columns tickets) = Some tid ->
  has_column "ticket_id" orders = false ->
  wf_frame orders ->
  Forall (fun l => is_str (cell oi l) = true) (rows orders) ->
  Forall (fun r => is_str (cell ti r) = true) (rows tickets) ->
  columns orders' = columns orders ->
  columns tickets' = columns tickets ->
  Permutation (rows orders) (rows orders') ->
  Permutation (rows tickets) (rows tickets') ->
  create_tickets_per_order orders' tickets' = create_tickets_per_order orders tickets.
Proof.
  intros Hoi Hti Htid Hno Hwf HsL HsR Hco Hct HpL HpR.
  assert (HsL' : Forall (fun l => is_str (cell oi l) = true) (rows orders'))
    by (eapply Permutation_Forall; eassumption).
  assert (HsR' : Forall (fun r => is_str (cell ti r) = true) (rows tickets'))
    by (eapply Permutation_Forall; eassumption).
  assert (Hwf' : wf_frame orders').
  { unfold wf_frame. rewrite Hco. eapply Permutation_Forall; eassumption. }
  assert (Hno' : has_column "ticket_id" orders' = false)
    by (unfold has_column in *; now rewrite Hco).
  assert (plain : forall i rs, Forall (fun r => is_str (cell i r) = true) rs ->
                               Forall (fun r => plain_key (cell i r) = true) rs).
  { intros i rs H. eapply Forall_impl; [|exact H]. intros a. apply is_str_plain. }
  destruct (tickets_per_order_rows orders tickets oi ti tid Hoi Hti Htid Hno Hwf
              (plain _ _ HsL) (plain _ _ HsR)) as (Hrun & Hnd & Hkp & Hkin).
  rewrite <- Hco in Hoi. rewrite <- Hct in Hti, Htid.
  destruct (tickets_per_order_rows orders' tickets' oi ti tid Hoi Hti Htid Hno' Hwf'
              (plain _ _ HsL') (plain _ _ HsR')) as (Hrun' & Hnd' & Hkp' & Hkin').
  rewrite Hrun, Hrun'. clear Hrun Hrun'.
  set (U := uniques [] (map (cell oi) (join_rows oi ti (rows orders) (rows tickets)))) in *.
  set (U' := uniques [] (map (cell oi) (join_rows oi ti (rows orders') (rows tickets')))) in *.
  assert (Hmem : forall k, In k U' <-> In k U).
  { intros k. split; intros Hk.
    - apply (Permutation_in _ (sort_values_perm _)) in Hk. apply Hkin' in Hk as [H1 H2].
      apply (Permutation_in _ (Permutation_sym (sort_values_perm U))). apply Hkin. split.
      + eapply Permutation_in; [|exact H1]. apply Permutation_map. now symmetry.
      + eapply Permutation_in; [|exact H2]. apply Permutation_map. now symmetry.
    - apply (Permutation_in _ (sort_values_perm _)) in Hk. apply Hkin in Hk as [H1 H2].
      apply (Permutation_in _ (Permutation_sym (sort_values_perm U'))). apply Hkin'. split.
      + eapply Permutation_in; [|exact H1]. now apply Permutation_map.
      + eapply Permutation_in; [|exact H2]. now apply Permutation_map. }
  assert (HndU : NoDup U)
    by (eapply Permutation_NoDup; [apply Permutation_sym, sort_values_perm | exact Hnd]).
  assert (HndU' : NoDup U')
    by (eapply Permutation_NoDup; [apply Permutation_sym, sort_values_perm | exact Hnd']).
  assert (HpU : Permutation U' U) by (apply NoDup_Permutation; assumption).
  assert (HstrU' : Forall (fun v => is_str v = true) U').
  { apply Forall_forall. intros k Hk.
    apply (Permutation_in _ (sort_values_perm _)) in Hk. apply Hkin' in Hk as [Hk _].
    apply in_map_iff in Hk as (l & <- & Hl). rewrite Forall_forall in HsL'. auto. }
  rewrite (sort_values_strings_perm U' U HstrU' HndU' HpU).
  do 2 f_equal. apply map_ext. intros k. do 3 f_equal.
  unfold rows_with, counted_rows.
  rewrite (length_filter_perm _ _ _ HpL), (length_filter_perm _ _ _ HpR). reflexivity.
Qed.

Lemma tickets_per_order_ignores_row_order_witness :
  create_tickets_per_order
    (mkDataFrame ["order_id"; "customer"; "subtotal"]
       [[VStr "ORD-003"; VInt 3; VInt 200];
        [VStr "ORD-001"; VInt 1; VInt 100];
        [VStr "ORD-002"; VInt 2; VInt 150]])
    (mkDataFrame ["ticket_id"; "order_id"; "status"]
       [[VStr "TCK-003"; VStr "ORD-002"; VStr "open"];
        [VStr "TCK-001"; VStr "ORD-001"; VStr "resolved"];
        [VStr "TCK-002"; VStr "ORD-001"; VStr "resolved"]])
  = create_tickets_per_order orders_three tickets_three.
Proof.
  apply (tickets_per_order_ignores_row_order orders_three _ tickets_three _ 0 1 0).
  - reflexivity.
  - reflexivity.
  - reflexivity.
  - reflexivity.
  - repeat constructor.
  - repeat constructor.
  - repeat constructor.
  - reflexivity.
  - reflexivity.
  - simpl. eapply perm_trans; [apply perm_skip, perm_swap | apply perm_swap].
  - simpl. eapply perm_trans; [apply perm_skip, perm_swap | apply perm_swap].
Defined.
